(** * Gaussian bond scan notebook: a shallow embedding and its properties

    The notebook [geometry_scanner.ipynb] drives two runs of an external
    quantum-chemistry engine and translates text between them.  Every code
    cell is embedded below as a function on text: a Python [str] is a
    [string] whose characters are the code points below 256, a list of lines
    is a [list string], a Python [float] is a binary64 [float], a Python
    [int] is a [Z].  Exceptions are values of [exn]; what a cell prints or
    writes, and each engine run, is recorded in a trace of [event]s. *)

From Stdlib Require Import ZArith Lia Ascii String Floats.
From Stdlib Require Import DecimalString DecimalPos.
From stdpp Require Import base list strings.

#[local] Set Warnings "-inexact-float".
Local Open Scope Z_scope.

(** ** Python string methods *)

Module PyStr.

(** [str.isspace] on one character; the whitespace code points below 256
    are TAB..CR, FS..US, SPACE, NEL (0x85) and NBSP (0xA0). *)
Definition isspace (c : ascii) : bool :=
  let n := Z.of_N (N_of_ascii c) in
  ((9 <=? n) && (n <=? 13)) || ((28 <=? n) && (n <=? 32))
  || (n =? 133) || (n =? 160).

(** [str.isdecimal] on one character, also [\d] in a pattern: the decimal
    digits below code point 256 are the ASCII ones. *)
Definition isdecimal (c : ascii) : bool :=
  let n := Z.of_N (N_of_ascii c) in (48 <=? n) && (n <=? 57).

Definition digit_value (c : ascii) : Z := Z.of_N (N_of_ascii c) - 48.

Fixpoint lstrip (s : string) : string :=
  match s with
  | String c s' => if isspace c then lstrip s' else s
  | EmptyString => EmptyString
  end.

Fixpoint rstrip (s : string) : string :=
  match s with
  | EmptyString => EmptyString
  | String c s' =>
      match rstrip s' with
      | EmptyString => if isspace c then EmptyString else String c EmptyString
      | r => String c r
      end
  end.

(** [s.strip()] *)
Definition strip (s : string) : string := rstrip (lstrip s).

(** [s.startswith(p)] *)
Definition startswith (s p : string) : bool := String.prefix p s.

(** [sub in s] *)
Fixpoint contains (sub s : string) : bool :=
  String.prefix sub s ||
  match s with
  | EmptyString => false
  | String _ s' => contains sub s'
  end.

Definition starts_token (s : string) : bool :=
  match s with
  | String c _ => negb (isspace c)
  | EmptyString => false
  end.

(** [s.split()]: the maximal runs of non-whitespace characters. *)
Fixpoint split (s : string) : list string :=
  match s with
  | EmptyString => []
  | String c s' =>
      if isspace c then split s'
      else if starts_token s' then
        match split s' with
        | t :: ts => String c t :: ts
        | [] => [String c EmptyString]
        end
      else String c EmptyString :: split s'
  end.

(** [s.replace(c, by)] for a one-character [c]; also [re.sub(c, by, s)]
    when [c] is not a regular-expression metacharacter. *)
Fixpoint replace (c : ascii) (by_ : string) (s : string) : string :=
  match s with
  | EmptyString => EmptyString
  | String d s' =>
      if Ascii.eqb d c then by_ +:+ replace c by_ s'
      else String d (replace c by_ s')
  end.

(** [sep.join(parts)] *)
Fixpoint join (sep : string) (parts : list string) : string :=
  match parts with
  | [] => ""
  | [p] => p
  | p :: ps => p +:+ sep +:+ join sep ps
  end.

(** The concatenation of the pieces written to a file one after another. *)
Definition concat (parts : list string) : string :=
  foldr String.app "" parts.

(** Text-mode reading translates "\r\n" and a lone "\r" to "\n". *)
Fixpoint universal_newlines (s : string) : string :=
  match s with
  | EmptyString => EmptyString
  | String c s' =>
      if Ascii.eqb c "013" then
        match s' with
        | String "010" _ => universal_newlines s'
        | _ => String "010" (universal_newlines s')
        end
      else String c (universal_newlines s')
  end.

Fixpoint splitlines_keepends (s : string) : list string :=
  match s with
  | EmptyString => []
  | String c s' =>
      if Ascii.eqb c "010" then String c EmptyString :: splitlines_keepends s'
      else match splitlines_keepends s' with
           | [] => [String c EmptyString]
           | l :: ls => String c l :: ls
           end
  end.

(** [file.readlines()] of a file opened with [open(path, "r")]. *)
Definition readlines (text : string) : list string :=
  splitlines_keepends (universal_newlines text).

End PyStr.

(** ** Python numbers *)

(** The exceptions the notebook can end with.  [ValueError] and
    [RuntimeError] carry the message given at the [raise]; the other
    constructors are the errors of built-in operations. *)
Inductive exn : Type :=
  | ValueError (msg : string)
  | RuntimeError (msg : string)
  | FloatValueError (arg : string)   (* float(arg) raised ValueError *)
  | IntValueError (arg : string)     (* int(arg) raised ValueError *)
  | NanToIntError                    (* int(nan) raised ValueError *)
  | ZeroDivisionError
  | OverflowError
  | TypeError
  | IndexError
  | FileNotFoundError.

(** A numeric parameter of the input cell: an [int] or a [float]. *)
Inductive pyval : Type :=
  | PyInt (z : Z)
  | PyFloat (f : float).

Module PyNum.
Import PyStr.

(** [str(n)] for an [int]. *)
Definition str_of_int (n : Z) : string :=
  match n with
  | Z0 => "0"
  | Zpos p => NilEmpty.string_of_uint (Pos.to_uint p)
  | Zneg p => String "-" (NilEmpty.string_of_uint (Pos.to_uint p))
  end.

(** Digits with single underscores strictly between digits; returns the
    value and the number of digits. *)
Fixpoint int_digits (s : string) (prev_us : bool) (acc n : Z) : option (Z * Z) :=
  match s with
  | EmptyString => if prev_us || (n =? 0) then None else Some (acc, n)
  | String c s' =>
      if isdecimal c then int_digits s' false (10 * acc + digit_value c) (n + 1)
      else if Ascii.eqb c "_" then
        if prev_us || (n =? 0) then None else int_digits s' true acc n
      else None
  end.

(** The default limit [sys.int_max_str_digits] of Python 3.12. *)
Definition int_max_str_digits : Z := 4300.

(** [int(s)] for a [str]; [None] is [ValueError]. *)
Definition int_of_str (s : string) : option Z :=
  let s := strip s in
  let '(neg, body) :=
    match s with
    | String "-" r => (true, r)
    | String "+" r => (false, r)
    | _ => (false, s)
    end in
  match int_digits body false 0 0 with
  | Some (v, n) =>
      if int_max_str_digits <? n then None
      else Some (if neg then - v else v)
  | None => None
  end.

(** The binary64 value nearest to [m * 2^e], ties to even. *)
Definition nearest_float (m e : Z) : spec_float :=
  binary_normalize prec emax m e false.

(** The least integer that rounds to no finite float: half way between
    the largest float, [2^1024 - 2^971], and [2^1024]. *)
Definition float_int_bound : Z := 2 ^ 1024 - 2 ^ 970.

(** [float(n)] for an [int], also the conversion of an [int] operand in
    mixed arithmetic; [None] is [OverflowError]. *)
Definition float_of_int (n : Z) : option float :=
  if Z.abs n <? float_int_bound then Some (SF2Prim (nearest_float n 0))
  else None.

(** The binary64 value nearest to [d * 10^e] for [d > 0], with the sign
    [neg].  For a negative [e] the quotient is computed with two or more
    bits beyond the precision and a sticky bit. *)
Definition nearest_decimal (neg : bool) (d e : Z) : float :=
  let sgn (m : Z) := if neg then - m else m in
  if d =? 0 then (if neg then neg_zero else zero)
  else if 0 <=? e then SF2Prim (nearest_float (sgn (d * 10 ^ e)) 0)
  else
    let den := 10 ^ (- e) in
    let k := Z.max 0 (Z.log2 den - Z.log2 d + 56) in
    let q := (d * 2 ^ k) / den in
    let sticky := if (d * 2 ^ k) mod den =? 0 then 0 else 1 in
    SF2Prim (nearest_float (sgn (2 * q + sticky)) (- k - 1)).

(** Each underscore of a float literal stands between two digits. *)
Fixpoint underscores_ok (s : string) (prev : ascii) : bool :=
  match s with
  | EmptyString => negb (Ascii.eqb prev "_")
  | String c s' =>
      (if Ascii.eqb c "_" then isdecimal prev
       else negb (Ascii.eqb prev "_") || isdecimal c)
      && underscores_ok s' c
  end.

Fixpoint remove_underscores (s : string) : string :=
  match s with
  | EmptyString => EmptyString
  | String c s' =>
      if Ascii.eqb c "_" then remove_underscores s'
      else String c (remove_underscores s')
  end.

Definition lower (c : ascii) : ascii :=
  let n := N_of_ascii c in
  if ((65 <=? n) && (n <=? 90))%N then ascii_of_N (n + 32) else c.

Fixpoint lowercase (s : string) : string :=
  match s with
  | EmptyString => EmptyString
  | String c s' => String (lower c) (lowercase s')
  end.

(** A maximal run of digits: its value, its length, and the rest. *)
Fixpoint digit_run (s : string) (acc n : Z) : Z * Z * string :=
  match s with
  | String c s' =>
      if isdecimal c then digit_run s' (10 * acc + digit_value c) (n + 1)
      else (acc, n, s)
  | EmptyString => (acc, n, s)
  end.

(** The exponent part of a float literal, which must end the string. *)
Definition exponent_part (s : string) : option Z :=
  match s with
  | EmptyString => Some 0
  | String c s' =>
      if Ascii.eqb (lower c) "e" then
        let '(neg, body) :=
          match s' with
          | String "-" r => (true, r)
          | String "+" r => (false, r)
          | _ => (false, s')
          end in
        match digit_run body 0 0 with
        | (v, n, EmptyString) =>
            if n =? 0 then None else Some (if neg then - v else v)
        | _ => None
        end
      else None
  end.

(** digits [. digits] [exponent], with a digit before or after the point. *)
Definition decimal_literal (neg : bool) (s : string) : option float :=
  let '(ip, ni, r1) := digit_run s 0 0 in
  let '(m, nf, r2) :=
    match r1 with
    | String "." r => let '(m, n, r') := digit_run r ip 0 in (m, n, r')
    | _ => (ip, 0, r1)
    end in
  if ni + nf =? 0 then None
  else match exponent_part r2 with
       | Some x => Some (nearest_decimal neg m (x - nf))
       | None => None
       end.

(** [float(s)] for a [str]; [None] is [ValueError]. *)
Definition float_of_str (s : string) : option float :=
  if underscores_ok s "000" then
    let s := strip (remove_underscores s) in
    let '(neg, body) :=
      match s with
      | String "-" r => (true, r)
      | String "+" r => (false, r)
      | _ => (false, s)
      end in
    let name := lowercase body in
    if String.eqb name "inf" || String.eqb name "infinity"
    then Some (if neg then neg_infinity else infinity)
    else if String.eqb name "nan" then Some nan
    else decimal_literal neg body
  else None.

(** [int(x)] for a numeric parameter. *)
Definition int_of_pyval (x : pyval) : exn + Z :=
  match x with
  | PyInt z => inr z
  | PyFloat f =>
      match Prim2SF f with
      | S754_nan => inl NanToIntError
      | S754_infinity _ => inl OverflowError
      | S754_zero _ => inr 0
      | S754_finite s m e =>
          let a := if 0 <=? e then Zpos m * 2 ^ e else Zpos m / 2 ^ (- e) in
          inr (if s then - a else a)
      end
  end.

(** The float a numeric operand is converted to in mixed arithmetic. *)
Definition float_of_pyval (x : pyval) : exn + float :=
  match x with
  | PyFloat f => inr f
  | PyInt z =>
      match float_of_int z with
      | Some f => inr f
      | None => inl OverflowError
      end
  end.

(** [z <= f] and [f <= z] between an [int] and a [float] compare the
    exact values. *)
Definition int_le_float (z : Z) (f : float) : bool :=
  match Prim2SF f with
  | S754_nan => false
  | S754_infinity s => negb s
  | S754_zero _ => z <=? 0
  | S754_finite s m e =>
      let v := if s then Zneg m else Zpos m in
      if 0 <=? e then z <=? v * 2 ^ e else z * 2 ^ (- e) <=? v
  end.

Definition float_le_int (f : float) (z : Z) : bool :=
  match Prim2SF f with
  | S754_nan => false
  | S754_infinity s => s
  | S754_zero _ => 0 <=? z
  | S754_finite s m e =>
      let v := if s then Zneg m else Zpos m in
      if 0 <=? e then v * 2 ^ e <=? z else v <=? z * 2 ^ (- e)
  end.

(** [a <= b] *)
Definition le (a b : pyval) : bool :=
  match a, b with
  | PyInt x, PyInt y => x <=? y
  | PyFloat x, PyFloat y => PrimFloat.leb x y
  | PyInt x, PyFloat y => int_le_float x y
  | PyFloat x, PyInt y => float_le_int x y
  end.

(** *** [str(x)] for a float: the shortest decimal that reads back as [x]

    The statements below hold for any rendering of floats; this one serves
    where a run is evaluated on given inputs. *)

(** [x = num / den] exactly, for a finite positive [x = m * 2^e]. *)
Definition ratio_of (m e : Z) : Z * Z :=
  if 0 <=? e then (m * 2 ^ e, 1) else (m, 2 ^ (- e)).

(** [10^k <= num / den] *)
Definition pow10_le (num den k : Z) : bool :=
  if 0 <=? k then 10 ^ k * den <=? num else den <=? num * 10 ^ (- k).

(** The decimal exponent of [num / den]: the largest [k] with
    [10^k <= num / den], sought around an estimate from the bit lengths. *)
Definition decimal_exponent (num den : Z) : Z :=
  let est := (Z.log2 num - Z.log2 den) * 30103 / 100000 in
  let candidates := [est + 2; est + 1; est; est - 1; est - 2] in
  match filter (fun k => pow10_le num den k = true) candidates with
  | k :: _ => k
  | [] => est - 3
  end.

(** The two decimals [d * 10^q] next to [num / den], the nearer first (on
    a tie the even one); one only when [num / den] is itself one. *)
Definition neighbours (num den q : Z) : list Z :=
  let '(n, d) := if 0 <=? q then (num, den * 10 ^ q) else (num * 10 ^ (- q), den) in
  let lo := n / d in
  let r := n mod d in
  if r =? 0 then [lo]
  else match 2 * r ?= d with
       | Lt => [lo; lo + 1]
       | Gt => [lo + 1; lo]
       | Eq => if Z.even lo then [lo; lo + 1] else [lo + 1; lo]
       end.

(** The shortest digits: for 1, 2, ... significant digits, the first
    neighbour that reads back as [x]. *)
Fixpoint shortest_digits (x : float) (num den e10 : Z) (p : Z) (fuel : nat)
    : Z * Z :=
  let q := e10 - (p - 1) in
  match filter (fun d => PrimFloat.eqb (nearest_decimal false d q) x)
               (neighbours num den q) with
  | d :: _ => (d, q)
  | [] =>
      match fuel with
      | O => (0, 0)
      | S fuel' => shortest_digits x num den e10 (p + 1) fuel'
      end
  end.

Fixpoint strip_zeros (d q : Z) (fuel : nat) : Z * Z :=
  match fuel with
  | O => (d, q)
  | S fuel' =>
      if (d mod 10 =? 0) && negb (d =? 0) then strip_zeros (d / 10) (q + 1) fuel'
      else (d, q)
  end.

Fixpoint zeros (n : nat) : string :=
  match n with
  | O => ""
  | S n' => String "0" (zeros n')
  end.

Definition two_digits (n : Z) : string :=
  if n <? 10 then String "0" (str_of_int n) else str_of_int n.

(** The layout of [repr]: plain notation when the decimal point falls
    within [-3 .. 16] of the first digit, exponent notation otherwise. *)
Definition layout (digits : string) (decpt : Z) : string :=
  let n := Z.of_nat (String.length digits) in
  if (-4 <? decpt) && (decpt <=? 16) then
    if decpt <=? 0 then "0." +:+ zeros (Z.to_nat (- decpt)) +:+ digits
    else if n <=? decpt then digits +:+ zeros (Z.to_nat (decpt - n)) +:+ ".0"
    else String.substring 0 (Z.to_nat decpt) digits +:+ "."
         +:+ String.substring (Z.to_nat decpt) (Z.to_nat (n - decpt)) digits
  else
    let x := decpt - 1 in
    String.substring 0 1 digits
    +:+ (if 1 <? n then "." +:+ String.substring 1 (Z.to_nat (n - 1)) digits else "")
    +:+ "e" +:+ (if x <? 0 then "-" else "+") +:+ two_digits (Z.abs x).

Definition float_str (x : float) : string :=
  match Prim2SF x with
  | S754_nan => "nan"
  | S754_infinity s => if s then "-inf" else "inf"
  | S754_zero s => if s then "-0.0" else "0.0"
  | S754_finite s m e =>
      let '(num, den) := ratio_of (Zpos m) e in
      let e10 := decimal_exponent num den in
      let '(d, q) := shortest_digits (abs x) num den e10 1 17 in
      let '(d, q) := strip_zeros d q 17 in
      let digits := str_of_int d in
      (if s then "-" else "")
      +:+ layout digits (Z.of_nat (String.length digits) + q)
  end.

Fixpoint zero_pad (width : nat) (s : string) : string :=
  match width with
  | O => s
  | S w => if (String.length s <? S w)%nat then String "0" (zero_pad w s) else s
  end.

(** [m * 10^8 * 2^e] rounded to the nearest integer, ties to even. *)
Definition scaled_round (m e : Z) : Z :=
  let num := m * 10 ^ 8 in
  if 0 <=? e then num * 2 ^ e
  else
    let den := 2 ^ (- e) in
    let q := num / den in
    let r := num mod den in
    match 2 * r ?= den with
    | Gt => q + 1
    | Eq => if Z.even q then q else q + 1
    | Lt => q
    end.

(** [f"{x:.8f}"] *)
Definition format_8f (x : float) : string :=
  match Prim2SF x with
  | S754_nan => "nan"
  | S754_infinity s => if s then "-inf" else "inf"
  | S754_zero s => (if s then "-" else "") +:+ "0.00000000"
  | S754_finite s m e =>
      let n := scaled_round (Zpos m) e in
      (if s then "-" else "") +:+ str_of_int (n / 10 ^ 8) +:+ "."
      +:+ zero_pad 8 (str_of_int (n mod 10 ^ 8))
  end.

End PyNum.

(** ** The fragment of [re] the notebook uses

    Python's [re] is a backtracking matcher.  The notebook's patterns are
    concatenations of literals, character classes and greedy repetitions of
    a character class; [matches] tries the alternatives in Python's order
    (longest repetition first) and hands the rest of the text to the
    continuation. *)

Module Re.
Import PyStr.

Inductive re : Type :=
  | Lit (s : string)               (* the characters of s *)
  | Cls (p : ascii -> bool)        (* [...] *)
  | Star (p : ascii -> bool)       (* [...]* *)
  | Plus (p : ascii -> bool)       (* [...]+ *)
  | Cat (r1 r2 : re).

Fixpoint drop_prefix (p s : string) : option string :=
  match p, s with
  | EmptyString, _ => Some s
  | String a p', String b s' => if Ascii.eqb a b then drop_prefix p' s' else None
  | String _ _, EmptyString => None
  end.

Fixpoint star (p : ascii -> bool) (s : string)
    (k : string -> option string) : option string :=
  match s with
  | String c s' =>
      if p c then
        match star p s' k with
        | Some r => Some r
        | None => k s
        end
      else k s
  | EmptyString => k s
  end.

Fixpoint matches (r : re) (s : string)
    (k : string -> option string) : option string :=
  match r with
  | Lit l => match drop_prefix l s with Some s' => k s' | None => None end
  | Cls p =>
      match s with
      | String c s' => if p c then k s' else None
      | EmptyString => None
      end
  | Star p => star p s k
  | Plus p =>
      match s with
      | String c s' => if p c then star p s' k else None
      | EmptyString => None
      end
  | Cat r1 r2 => matches r1 s (fun s' => matches r2 s' k)
  end.

Fixpoint take (n : nat) (s : string) : string :=
  match n, s with
  | S n', String c s' => String c (take n' s')
  | _, _ => EmptyString
  end.

(** A match of [pre(grp)] at the start of [s]: the text of the group. *)
Definition match_group (pre grp : re) (s : string) : option string :=
  matches pre s (fun s1 =>
    match matches grp s1 Some with
    | Some s2 => Some (take (String.length s1 - String.length s2) s1)
    | None => None
    end).

(** [re.search(pre(grp), s).group(1)], the leftmost match. *)
Fixpoint search_group (pre grp : re) (s : string) : option string :=
  match match_group pre grp s with
  | Some g => Some g
  | None =>
      match s with
      | String _ s' => search_group pre grp s'
      | EmptyString => None
      end
  end.

End Re.

(** ** Effects: a trace of events and an exception *)

Inductive stage : Type := Opt | Scan.

Inductive artifact : Type := OptDeck | ScanDeck | Trajectory | EnergyFile.

Inductive event : Type :=
  | Printed (msg : string)                    (* print(msg) *)
  | Wrote (a : artifact) (content : string)   (* a file opened with "w" and closed *)
  | EngineRun (s : stage) (deck : string).    (* g16 on the deck of a stage *)

(** A computation prints, writes and runs the engine, and then returns a
    value or stops with an exception. *)
Definition M (A : Type) : Type := list event * (exn + A).

Definition ret {A} (a : A) : M A := ([], inr a).
Definition raise {A} (e : exn) : M A := ([], inl e).
Definition emit (ev : event) : M unit := ([ev], inr tt).
Definition lift {A} (r : exn + A) : M A := ([], r).

Definition bind {A B} (m : M A) (k : A -> M B) : M B :=
  match m with
  | (t, inr a) => let '(t', r) := k a in (t ++ t', r)
  | (t, inl e) => (t, inl e)
  end.

(** The same for code that only computes. *)
Definition ebind {A B} (m : exn + A) (k : A -> exn + B) : exn + B :=
  match m with
  | inr a => k a
  | inl e => inl e
  end.

Declare Scope py_scope.
Delimit Scope py_scope with py.
Notation "x <- m ;; k" := (bind m (fun x => k))
  (at level 100, m at next level, right associativity) : py_scope.
Notation "m ;; k" := (bind m (fun _ => k))
  (at level 100, right associativity) : py_scope.
Notation "x <~ m ;; k" := (ebind m (fun x => k))
  (at level 100, m at next level, right associativity) : py_scope.

Definition LF : string := String "010" EmptyString.

(** ** The notebook

    A function that opens a file and calls [readlines] takes the list of
    lines here; the cell that calls it does the reading.  [float_repr] is
    Python's rendering of a float in an f-string ([str], the shortest
    decimal that reads back as the same float), which belongs to the
    runtime, and [g16] is the external engine: it maps the deck of a stage
    to the text of the log it leaves, or to [None] when it leaves none. *)

(** "User Input": the variables of the input cell that the other cells
    read. *)
Record params : Type := {
  molecule_name : string;
  memory : Z;
  n_cpus : Z;
  method : string;
  title_card : string;
  scan_bond : string;
  lower_bound : pyval;
  upper_bound : pyval;
  scan_step_number : pyval
}.

(** The two module-level variables [update_scan_bond] assigns. *)
Record globals : Type := {
  minimum_dist : option float;
  step_size : option float
}.

Section Notebook.
Import PyStr PyNum.
Local Open Scope py_scope.

Variable float_repr : float -> string.
Variable g16 : stage -> string -> option string.

Definition is_blank (line : string) : bool := String.eqb (strip line) "".

(** *** "Check if the user is trolling and the bond to be scanned is
    non-existing" *)

Definition bond_not_in_geometry (bond : string) : exn :=
  ValueError ("Error: Could not find the line starting with '" +:+ bond
              +:+ "'." +:+ LF +:+ " Please provide a valid bond to be scanned.").

Fixpoint check_scan_bond (bond : string) (lines : list string) : exn + unit :=
  match lines with
  | [] => inl (bond_not_in_geometry bond)
  | line :: rest =>
      if startswith (strip line) (bond +:+ " ") then
        let parts := split line in
        if (length parts =? 2)%nat then inr tt
        else check_scan_bond bond rest
      else check_scan_bond bond rest
  end.

(** *** "Check if lower_bound, upper_bound and scan_step_number are
    reasonable choices" *)

Definition isinstance_int (x : pyval) : bool :=
  match x with PyInt _ => true | PyFloat _ => false end.

Definition validate_parameters (lower_bound upper_bound scan_step_number : pyval)
    : exn + unit :=
  if le lower_bound (PyInt 0) then
    inl (ValueError "lower_bound must be positive")
  else if le upper_bound (PyInt 0) then
    inl (ValueError "upper_bound must be positive")
  else if le upper_bound lower_bound then
    inl (ValueError "upper_bound must be larger than lower_bound")
  else if negb (isinstance_int scan_step_number) || le scan_step_number (PyInt 0) then
    inl (ValueError "scan_step_number must be a positive integer")
  else inr tt.

(** [try: validate_parameters(...) except ValueError as e: print(...)] *)
Definition validation_cell (p : params) : M unit :=
  match validate_parameters (lower_bound p) (upper_bound p) (scan_step_number p) with
  | inl (ValueError e) => emit (Printed ("Parameter validation error: " +:+ e))
  | inl e => raise e
  | inr _ => ret tt
  end.

(** *** "Block that sets the header lines of the .gjf", for the geometry
    optimization and for the bond scan *)

Definition header_opt (p : params) : list string :=
  [ "%chk=" +:+ molecule_name p +:+ ".chk" +:+ LF;
    "%mem=" +:+ str_of_int (memory p) +:+ "GB" +:+ LF;
    "%nprocshared=" +:+ str_of_int (n_cpus p) +:+ LF;
    "# " +:+ method p
      +:+ "/gen pseudo=read guess=mix scf=(maxcycle=500, yqc, tight) OPT(maxcycles=1000)"
      +:+ LF;
    LF;
    title_card p +:+ LF;
    LF ].

Definition header_scan (p : params) : list string :=
  [ "%chk=" +:+ molecule_name p +:+ ".chk" +:+ LF;
    "%mem=" +:+ str_of_int (memory p) +:+ "GB" +:+ LF;
    "%nprocshared=" +:+ str_of_int (n_cpus p) +:+ LF;
    "# scan " +:+ method p
      +:+ "/gen pseudo=read guess=mix scf=(maxcycle=500, yqc, tight)" +:+ LF;
    LF;
    title_card p +:+ LF;
    LF ].

(** *** "Definition of the function reading in the geometry" *)

(** [while index < len(lines) and lines[index].strip() == "": index += 1];
    the result is [lines[index:]].  Also [basisset.pop(0)] while the first
    line is blank. *)
Fixpoint skip_blank (lines : list string) : list string :=
  match lines with
  | line :: rest => if is_blank line then skip_blank rest else lines
  | [] => []
  end.

(** [if index < len(lines): index += 1] *)
Definition skip_title (lines : list string) : list string :=
  match lines with
  | _ :: rest => rest
  | [] => []
  end.

(** The loop that skips lines until two blank ones have gone by. *)
Fixpoint skip_two_blank (lines : list string) (empty_line_count : nat)
    : list string :=
  match lines with
  | line :: rest =>
      if (empty_line_count <? 2)%nat then
        skip_two_blank rest
          (if is_blank line then S empty_line_count else empty_line_count)
      else lines
  | [] => []
  end.

(** The loop that appends lines until two blank ones have been appended. *)
Fixpoint read_block (lines : list string) (empty_line_count : nat)
    (geometry_block : list string) : list string :=
  match lines with
  | line :: rest =>
      if (empty_line_count <? 2)%nat then
        read_block rest
          (if is_blank line then S empty_line_count else empty_line_count)
          (geometry_block ++ [line])
      else geometry_block
  | [] => geometry_block
  end.

(** [while block and block[-1].strip() == "": block.pop()] *)
Fixpoint pop_blank (block : list string) : list string :=
  match block with
  | [] => []
  | line :: rest =>
      match pop_blank rest with
      | [] => if is_blank line then [] else [line]
      | rest' => line :: rest'
      end
  end.

Definition read_geometry_block (lines : list string) : list string :=
  let lines := skip_blank lines in
  let lines := skip_title lines in
  let lines := skip_two_blank lines 0 in
  pop_blank (read_block lines 0 []).

(** *** "Definition of the function reading in the Basis Set" *)

Definition read_basis_set (basisset : list string) : list string :=
  let basisset := skip_blank basisset in
  let basisset := pop_blank basisset in
  let basisset := LF :: basisset in
  basisset ++ [LF].

(** *** "Check if geometry did converge" and "Check if the bond scan
    terminated properly" *)

Definition stage_done (s : stage) : string :=
  match s with
  | Opt => "Geometry optimization completed successfully."
  | Scan => "Bond scan completed successfully."
  end.

Definition stage_failed (s : stage) : string :=
  match s with
  | Opt => "Error: Geometry optimization didn't terminate properly."
  | Scan => "Error: Bond scan didn't terminate properly."
  end.

(** [lines and lines[-1].strip().startswith("Normal termination")] *)
Definition terminated_normally (lines : list string) : bool :=
  match last lines with
  | Some line => startswith (strip line) "Normal termination"
  | None => false
  end.

Definition check_termination (s : stage) (lines : list string) : M unit :=
  if terminated_normally lines then emit (Printed (stage_done s))
  else raise (RuntimeError (stage_failed s)).

(** *** "Definition of the function extracting the converged geometry" *)

Definition structure_marker : string :=
  "Final structure in terms of initial Z-matrix:".

(** The first loop: [start_index], one past the first line with the marker. *)
Fixpoint find_start_index (lines : list string) (i : nat) : option nat :=
  match lines with
  | [] => None
  | line :: rest =>
      if contains structure_marker line then Some (i + 1)%nat
      else find_start_index rest (S i)
  end.

(** [re.match(r'^\d', s)] *)
Definition starts_with_digit (s : string) : bool :=
  match s with
  | String c _ => isdecimal c
  | EmptyString => false
  end.

(** The second loop, over [lines[start_index:]]. *)
Fixpoint copy_structure (lines geometry_block : list string) : list string :=
  match lines with
  | [] => geometry_block
  | line :: rest =>
      if starts_with_digit (strip line) then geometry_block
      else if contains "Variables:" line then
        copy_structure rest (geometry_block ++ [LF])
      else
        let modified_line := replace "," "   " line in
        let modified_line := replace "=" "   " modified_line in
        copy_structure rest (geometry_block ++ [modified_line])
  end.

Definition structure_not_found : exn :=
  RuntimeError "Error: Could not find the start of the geometry block.".

Definition extract_optimized_structure (lines : list string)
    : exn + list string :=
  match find_start_index lines 0 with
  | None => inl structure_not_found
  | Some start_index => inr (copy_structure (drop start_index lines) [])
  end.

(** *** "Insert the bond scan in the Gaussian input file" *)

(** [x * y] and [x / y] for a float [x] and an int or float [y]. *)
Definition float_mul (x : float) (y : pyval) : exn + float :=
  y' <~ float_of_pyval y ;; inr (x * y')%float.

Definition float_div (x : float) (y : pyval) : exn + float :=
  y' <~ float_of_pyval y ;;
  if PrimFloat.eqb y' 0 then inl ZeroDivisionError else inr (x / y')%float.

Definition bond_not_in_deck (bond : string) : exn :=
  ValueError ("Error: Could not find the line starting with '" +:+ bond +:+ "'.").

(** The [for i, line in enumerate(lines)] loop with its [else]; [lines] is
    the whole list and [rest] is [lines[i:]]. *)
Fixpoint update_scan_bond_loop (p : params) (bond : string)
    (lines rest : list string) (i : nat) : exn + (globals * list string) :=
  match rest with
  | [] => inl (bond_not_in_deck bond)
  | line :: rest' =>
      if startswith (strip line) bond then
        let parts := split line in
        match parts with
        | [_; token] =>
            equilibrium_dist <~
              match float_of_str token with
              | Some x => inr x
              | None => inl (FloatValueError token)
              end ;;
            minimum_dist <~ float_mul equilibrium_dist (lower_bound p) ;;
            maximum_dist <~ float_mul equilibrium_dist (upper_bound p) ;;
            let scan_distance := (maximum_dist - minimum_dist)%float in
            step_size <~ float_div scan_distance (scan_step_number p) ;;
            steps <~ int_of_pyval (scan_step_number p) ;;
            let new_line :=
              " " +:+ bond +:+ "   " +:+ format_8f minimum_dist +:+ "   "
              +:+ str_of_int steps +:+ "   " +:+ float_repr step_size +:+ LF in
            inr ({| minimum_dist := Some minimum_dist;
                    step_size := Some step_size |},
                 <[i := new_line]> lines)
        | _ => update_scan_bond_loop p bond lines rest' (S i)
        end
      else update_scan_bond_loop p bond lines rest' (S i)
  end.

(** The function reads the scan deck, rewrites one line and writes the
    deck back; it returns the globals it has set and the lines written. *)
Definition update_scan_bond (p : params) (lines : list string) (bond : string)
    : M (globals * list string) :=
  r <- lift (update_scan_bond_loop p bond lines lines 0) ;;
  emit (Wrote ScanDeck (concat r.2)) ;;
  ret r.

(** *** "Extract the geometries of the scan for TANGO to use" *)

Definition periodic_table : list (Z * string) :=
  [ (1, "H"); (2, "He"); (3, "Li"); (4, "Be"); (5, "B"); (6, "C"); (7, "N");
    (8, "O"); (9, "F"); (10, "Ne"); (11, "Na"); (12, "Mg"); (13, "Al");
    (14, "Si"); (15, "P"); (16, "S"); (17, "Cl"); (18, "Ar"); (19, "K");
    (20, "Ca"); (21, "Sc"); (22, "Ti"); (23, "V"); (24, "Cr"); (25, "Mn");
    (26, "Fe"); (27, "Co"); (28, "Ni"); (29, "Cu"); (30, "Zn"); (31, "Ga");
    (32, "Ge"); (33, "As"); (34, "Se"); (35, "Br"); (36, "Kr"); (37, "Rb");
    (38, "Sr"); (39, "Y"); (40, "Zr"); (41, "Nb"); (42, "Mo"); (43, "Tc");
    (44, "Ru"); (45, "Rh"); (46, "Pd"); (47, "Ag"); (48, "Cd"); (49, "In");
    (50, "Sn"); (51, "Sb"); (52, "Te"); (53, "I"); (54, "Xe"); (55, "Cs");
    (56, "Ba"); (57, "La"); (58, "Ce"); (59, "Pr"); (60, "Nd"); (61, "Pm");
    (62, "Sm"); (63, "Eu"); (64, "Gd"); (65, "Tb"); (66, "Dy"); (67, "Ho");
    (68, "Er"); (69, "Tm"); (70, "Yb"); (71, "Lu"); (72, "Hf"); (73, "Ta");
    (74, "W"); (75, "Re"); (76, "Os"); (77, "Ir"); (78, "Pt"); (79, "Au");
    (80, "Hg"); (81, "Tl"); (82, "Pb"); (83, "Bi"); (84, "Po"); (85, "At");
    (86, "Rn"); (87, "Fr"); (88, "Ra"); (89, "Ac"); (90, "Th"); (91, "Pa");
    (92, "U"); (93, "Np"); (94, "Pu"); (95, "Am"); (96, "Cm"); (97, "Bk");
    (98, "Cf"); (99, "Es"); (100, "Fm"); (101, "Md"); (102, "No");
    (103, "Lr"); (104, "Rf"); (105, "Db"); (106, "Sg"); (107, "Bh");
    (108, "Hs"); (109, "Mt"); (110, "Ds"); (111, "Rg"); (112, "Cn");
    (113, "Nh"); (114, "Fl"); (115, "Mc"); (116, "Lv"); (117, "Ts");
    (118, "Og") ].

(** [table.get(key, default)] *)
Fixpoint dict_get (table : list (Z * string)) (key : Z) (default : string)
    : string :=
  match table with
  | [] => default
  | (k, v) :: rest => if k =? key then v else dict_get rest key default
  end.

(** The [while] loop over [lines[start_index:]]; a line with six or more
    fields gives one atom record. *)
Fixpoint read_orientation (lines block_data : list string)
    : exn + list string :=
  match lines with
  | [] => inr block_data
  | line :: rest =>
      if startswith (strip line) "-" then inr block_data
      else
        match split line with
        | _ :: number :: _ :: x :: y :: z :: _ =>
            atomic_number <~
              match int_of_str number with
              | Some n => inr n
              | None => inl (IntValueError number)
              end ;;
            let element := dict_get periodic_table atomic_number "X" in
            read_orientation rest
              (block_data ++ [element +:+ " " +:+ x +:+ " " +:+ y +:+ " " +:+ z])
        | _ => read_orientation rest block_data
        end
  end.

Definition render_block (block_data : list string) : string :=
  str_of_int (Z.of_nat (length block_data)) +:+ LF +:+ LF
  +:+ join LF block_data.

(** The [for i, line in enumerate(lines)] loop; [rest] is [lines[i+1:]],
    so the table is read from [lines[i+5:]]. *)
Fixpoint orientation_blocks (lines all_blocks : list string)
    : exn + list string :=
  match lines with
  | [] => inr all_blocks
  | line :: rest =>
      if contains "Standard orientation:" line then
        block_data <~ read_orientation (drop 4 rest) [] ;;
        orientation_blocks rest
          (match block_data with
           | [] => all_blocks
           | _ => all_blocks ++ [render_block block_data]
           end)
      else orientation_blocks rest all_blocks
  end.

Definition extract_data_from_log (lines : list string) : M unit :=
  all_blocks <- lift (orientation_blocks lines []) ;;
  emit (Wrote Trajectory (concat (map (fun block => block +:+ LF) all_blocks))).

(** *** "Extract the energies of the scan for TANGO to use" *)

Definition hartree_to_eV : float := 27.211407953%float.

Definition mantissa_char (c : ascii) : bool :=
  Ascii.eqb c "-" || isdecimal c || Ascii.eqb c "." || Ascii.eqb c "D".

Definition sign_char (c : ascii) : bool :=
  Ascii.eqb c "+" || Ascii.eqb c "-".

(** [EUMP2\s*=\s*] and the group [([-\d\.D]+[+-]\d+)] *)
Definition energy_prefix : Re.re :=
  Re.Cat (Re.Lit "EUMP2")
    (Re.Cat (Re.Star isspace) (Re.Cat (Re.Lit "=") (Re.Star isspace))).

Definition energy_group : Re.re :=
  Re.Cat (Re.Plus mantissa_char) (Re.Cat (Re.Cls sign_char) (Re.Plus isdecimal)).

(** The text of the [ValueError] that [float(arg)] raises, for an [arg]
    made of the characters the group can capture. *)
Definition float_error_text (arg : string) : string :=
  "could not convert string to float: '" +:+ arg +:+ "'".

Definition energy_error_message (energy : string) : string :=
  "Error converting energy: " +:+ energy +:+ " - " +:+ float_error_text energy.

Fixpoint extract_energies_loop (lines : list string) (energies : list float)
    : M (list float) :=
  match lines with
  | [] => ret energies
  | line :: rest =>
      if contains "EUMP2" line then
        match Re.search_group energy_prefix energy_group line with
        | Some group1 =>
            let energy := replace "D" "E" group1 in
            match float_of_str energy with
            | Some x =>
                let energy_eV := (x * hartree_to_eV)%float in
                extract_energies_loop rest (energies ++ [energy_eV])
            | None =>
                emit (Printed (energy_error_message energy)) ;;
                extract_energies_loop rest energies
            end
        | None => extract_energies_loop rest energies
        end
      else extract_energies_loop rest energies
  end.

Definition extract_energies (lines : list string) : M (list float) :=
  extract_energies_loop lines [].

(** A list comprehension whose element expression can raise. *)
Fixpoint comprehension {A B} (f : A -> exn + B) (l : list A) : exn + list B :=
  match l with
  | [] => inr []
  | a :: l' => b <~ f a ;; bs <~ comprehension f l' ;; inr (b :: bs)
  end.

(** [minimum_dist + i * step_size]; either variable may still be [None]. *)
Definition distance_at (minimum_dist step_size : option float) (i : Z)
    : exn + float :=
  match step_size with
  | None => inl TypeError
  | Some s =>
      i' <~ float_of_pyval (PyInt i) ;;
      match minimum_dist with
      | None => inl TypeError
      | Some m => inr (m + i' * s)%float
      end
  end.

(** [range(scan_step_number + 1)] *)
Definition step_range (scan_step_number : pyval) : exn + list Z :=
  match scan_step_number with
  | PyInt n => inr (seqZ 0 (n + 1))
  | PyFloat _ => inl TypeError
  end.

Definition energy_line (distance energy : float) : string :=
  float_repr distance +:+ " " +:+ float_repr energy +:+ LF.

Definition write_energies_to_file (energies : list float)
    (minimum_dist step_size : option float) (scan_step_number : pyval)
    : M unit :=
  steps <- lift (step_range scan_step_number) ;;
  distances <- lift (comprehension (distance_at minimum_dist step_size) steps) ;;
  emit (Wrote EnergyFile (concat (zip_with energy_line distances energies))).

(** *** The notebook, run from the first cell to the last *)

(** "Run the Gaussian geometry optimization" and "Run the Gaussian bond
    scan": the engine runs on a deck; the cell after each opens the log. *)
Definition run_engine (s : stage) (deck : string) : M string :=
  emit (EngineRun s deck) ;;
  match g16 s deck with
  | Some log => ret log
  | None => raise FileNotFoundError
  end.

Definition notebook (p : params) (geom_text basis_text : string) : M unit :=
  (* Check if the user is trolling *)
  lift (check_scan_bond (scan_bond p) (readlines geom_text)) ;;
  (* Check if lower_bound, upper_bound and scan_step_number are reasonable *)
  validation_cell p ;;
  (* Extract the Geometry and Basis Set and write the Gaussian input file *)
  let input_geometry := read_geometry_block (readlines geom_text) in
  let basisset := read_basis_set (readlines basis_text) in
  let opt_deck := concat (header_opt p ++ input_geometry ++ basisset) in
  emit (Wrote OptDeck opt_deck) ;;
  (* Run the Gaussian geometry optimization; check if geometry did converge *)
  opt_log <- run_engine Opt opt_deck ;;
  check_termination Opt (readlines opt_log) ;;
  (* Extract the optimized geometry and write the input file for the bond scan *)
  optimized_structure <- lift (extract_optimized_structure (readlines opt_log)) ;;
  first_line <- lift (match input_geometry with
                      | line :: _ => inr line
                      | [] => inl IndexError
                      end) ;;
  let optimized_structure := first_line :: optimized_structure in
  let scan_deck := concat (header_scan p ++ optimized_structure ++ basisset) in
  emit (Wrote ScanDeck scan_deck) ;;
  (* Insert the bond scan in the Gaussian input file *)
  r <- update_scan_bond p (readlines scan_deck) (scan_bond p) ;;
  let g : globals := r.1 in
  (* Run the Gaussian bond scan; check if the bond scan terminated properly *)
  scan_log <- run_engine Scan (concat r.2) ;;
  check_termination Scan (readlines scan_log) ;;
  (* Extract the geometries of the scan *)
  extract_data_from_log (readlines scan_log) ;;
  (* Extract the energies of the scan *)
  energies <- extract_energies (readlines scan_log) ;;
  write_energies_to_file energies (minimum_dist g) (step_size g)
    (scan_step_number p).

End Notebook.

(** ** Notions used in the statements *)

Module Reading.
Import PyStr PyNum.

(** The number of blank lines a list of lines begins with. *)
Fixpoint leading_blank (lines : list string) : nat :=
  match lines with
  | line :: rest => if is_blank line then S (leading_blank rest) else O
  | [] => O
  end.

(** The number of blank lines a list of lines ends with. *)
Definition trailing_blank (lines : list string) : nat :=
  leading_blank (rev lines).

(** "The log's last non-empty line begins with the success marker", in
    the words of the specification: the last line that is not blank. *)
Definition last_nonblank_line_has_marker (lines : list string) : bool :=
  match last (filter (fun line => is_blank line = false) lines) with
  | Some line => startswith (strip line) "Normal termination"
  | None => false
  end.

(** What one copied line of the final structure becomes. *)
Definition convert_line (line : string) : string :=
  if contains "Variables:" line then LF
  else replace "=" "   " (replace "," "   " line).

(** The lines before the first one whose stripped text begins with a
    digit. *)
Fixpoint until_digit (lines : list string) : list string :=
  match lines with
  | line :: rest =>
      if starts_with_digit (strip line) then [] else line :: until_digit rest
  | [] => []
  end.

(** The captured payload of a line with the energy label, with [D]
    replaced by [E]. *)
Definition payload (line : string) : option string :=
  if contains "EUMP2" line then
    match Re.search_group energy_prefix energy_group line with
    | Some group1 => Some (replace "D" "E" group1)
    | None => None
    end
  else None.

(** The energy one line contributes, in eV. *)
Definition energy_of (line : string) : option float :=
  match payload line with
  | Some energy =>
      match float_of_str energy with
      | Some x => Some (x * hartree_to_eV)%float
      | None => None
      end
  | None => None
  end.

(** The message one line makes [extract_energies] print. *)
Definition complaint_of (line : string) : option event :=
  match payload line with
  | Some energy =>
      match float_of_str energy with
      | Some _ => None
      | None => Some (Printed (energy_error_message energy))
      end
  | None => None
  end.

(** A line [update_scan_bond] takes for the one to rewrite. *)
Definition selected (bond line : string) : bool :=
  startswith (strip line) bond && (length (split line) =? 2)%nat.

End Reading.

(** ** A sample run, for the examples *)

Module Sample.

Definition p : params :=
  {| molecule_name := "h3f"; memory := 25; n_cpus := 6;
     method := "ump2(full)"; title_card := "Basis Set";
     scan_bond := "B4";
     lower_bound := PyFloat 0.7; upper_bound := PyFloat 1.75;
     scan_step_number := PyInt 105 |}.


Definition geom_lines : list string :=
  [ "%chk=h3f.chk" +:+ LF; "# hf/3-21g" +:+ LF; LF; "Title Card Required" +:+ LF;
    LF; "0 1" +:+ LF; " H" +:+ LF; " F   1   B1" +:+ LF;
    " H   2   B4   1   A1" +:+ LF; LF; "   B1   0.92" +:+ LF;
    "   B4   1.40000000" +:+ LF; "   A1   104.5" +:+ LF; LF ].

Definition basis_lines : list string :=
  [ LF; "H 0" +:+ LF; "S 1 1.0" +:+ LF; "****" +:+ LF; LF; LF ].

Definition opt_log_lines : list string :=
  [ " Optimization completed." +:+ LF;
    " Final structure in terms of initial Z-matrix:" +:+ LF;
    " H" +:+ LF; " F,1,B1" +:+ LF; " H,2,B4,1,A1" +:+ LF;
    "      Variables:" +:+ LF; " B1=0.93" +:+ LF; " B4=1.40000000" +:+ LF;
    " A1=104.5" +:+ LF; " 1\1\GINC-NODE" +:+ LF;
    " Normal termination of Gaussian 16." +:+ LF ].

Definition table_lines : list string :=
  [ "                         Standard orientation:" +:+ LF;
    " ------------------------------------------------------" +:+ LF;
    " Center     Atomic      Atomic        Coordinates (Angstroms)" +:+ LF;
    " Number     Number       Type        X           Y           Z" +:+ LF;
    " ------------------------------------------------------" +:+ LF;
    "      1          1           0        0.000000    0.000000    0.100000" +:+ LF;
    "      2          9           0        0.000000    0.000000   -0.900000" +:+ LF;
    "      3          1           0        1.000000    0.000000   -0.900000" +:+ LF;
    " ------------------------------------------------------" +:+ LF ].

Definition scan_log_lines : list string :=
  table_lines ++
  [ " E2 =    -0.2D+00 EUMP2 =    -0.10023456789D+03" +:+ LF;
    " E2 =    -0.2D+00 EUMP2 =    1.2.3+5" +:+ LF;
    " E2 =    -0.2D+00 EUMP2 =    -0.10020000000D+03" +:+ LF;
    " Normal termination of Gaussian 16." +:+ LF ].

Definition geom_text : string := PyStr.concat geom_lines.
Definition basis_text : string := PyStr.concat basis_lines.

(** A deck in which the variable B10 stands before the variable B1, and
    the parameters of a scan of B1. *)
Definition deck_B10_first : list string :=
  [ " H" +:+ LF; " F   1   B10" +:+ LF; " H   2   B1   1   A1" +:+ LF; LF;
    " B10   0.92" +:+ LF; " B1   1.40000000" +:+ LF; " A1   104.5" +:+ LF ].

Definition p_B1 : params :=
  {| molecule_name := "h3f"; memory := 25; n_cpus := 6;
     method := "ump2(full)"; title_card := "Basis Set";
     scan_bond := "B1";
     lower_bound := PyFloat 0.7; upper_bound := PyFloat 1.75;
     scan_step_number := PyInt 105 |}.

(** A geometry file and an optimisation log with the same two variables. *)
Definition geom_B10_lines : list string :=
  [ "%chk=h3f.chk" +:+ LF; "# hf/3-21g" +:+ LF; LF; "Title Card Required" +:+ LF;
    LF; "0 1" +:+ LF ] ++ deck_B10_first ++ [ LF ].

Definition opt_log_B10_lines : list string :=
  [ " Final structure in terms of initial Z-matrix:" +:+ LF;
    " H" +:+ LF; " F,1,B10" +:+ LF; " H,2,B1,1,A1" +:+ LF;
    "      Variables:" +:+ LF; " B10=0.92" +:+ LF; " B1=1.40000000" +:+ LF;
    " A1=104.5" +:+ LF; " 1\1\GINC-NODE" +:+ LF;
    " Normal termination of Gaussian 16." +:+ LF ].

Definition g16_B10 (s : stage) (deck : string) : option string :=
  Some (PyStr.concat match s with
                     | Opt => opt_log_B10_lines
                     | Scan => scan_log_lines
                     end).

(** An engine that leaves these logs whatever the deck. *)
Definition g16 (s : stage) (deck : string) : option string :=
  Some (PyStr.concat match s with
                     | Opt => opt_log_lines
                     | Scan => scan_log_lines
                     end).

(** An engine whose optimisation log lacks the final structure. *)
Definition g16_no_structure (s : stage) (deck : string) : option string :=
  Some (" Normal termination of Gaussian 16." +:+ LF).

(** An engine whose logs end with a blank line after the marker. *)
Definition g16_trailing_blank (s : stage) (deck : string) : option string :=
  Some (" Normal termination of Gaussian 16." +:+ LF +:+ LF).

End Sample.

(** ** Further notions used in the statements *)

Module Text.
Import PyStr PyNum.

(** Every character of [s] satisfies [p]. *)
Fixpoint all_chars (p : ascii -> bool) (s : string) : bool :=
  match s with
  | EmptyString => true
  | String c s' => p c && all_chars p s'
  end.

(** A string without whitespace. *)
Definition no_space (s : string) : bool :=
  all_chars (fun c => negb (isspace c)) s.

(** A string made of whitespace. *)
Definition all_space (s : string) : bool := all_chars isspace s.

(** A field, as [split] gives them: not empty and without whitespace. *)
Definition is_token (s : string) : bool :=
  negb (String.eqb s "") && no_space s.

(** What follows a field in a text: nothing, or whitespace. *)
Definition at_gap (s : string) : Prop := starts_token s = false.

(** The test of the cell that checks the geometry file for the bond. *)
Definition accepted (bond line : string) : bool :=
  startswith (strip line) (bond +:+ " ") && (length (split line) =? 2)%nat.

(** A text that is empty or ends with a line feed: its last line is a
    whole line. *)
Fixpoint ends_line (s : string) : bool :=
  match s with
  | EmptyString => true
  | String c s' =>
      match s' with
      | EmptyString => Ascii.eqb c "010"
      | _ => ends_line s'
      end
  end.

(** The number of blank lines in a list of lines. *)
Definition blank_lines (lines : list string) : nat :=
  length (filter (fun line => is_blank line = true) lines).

(** A text at whose start no character with [p] stands. *)
Definition stops (p : ascii -> bool) (s : string) : bool :=
  match s with
  | String c _ => negb (p c)
  | EmptyString => true
  end.

(** A text without a line break. *)
Definition no_break (s : string) : bool :=
  all_chars (fun c => negb (Ascii.eqb c "010") && negb (Ascii.eqb c "013")) s.

(** The line of one atom in the trajectory. *)
Definition atom_line (element x y z : string) : string :=
  element +:+ " " +:+ x +:+ " " +:+ y +:+ " " +:+ z.

(** A row of the table of a standard orientation and the line of its atom:
    the row has six fields or more, the second an integer, the atomic
    number. *)
Definition row_atom (row atom : string) : Prop :=
  startswith (strip row) "-" = false /\
  exists (center number kind x y z : string) (more : list string) (n : Z),
    split row = center :: number :: kind :: x :: y :: z :: more /\
    int_of_str number = Some n /\
    atom = atom_line (dict_get periodic_table n "X") x y z.

(** The lines that one block of the trajectory takes in the file. *)
Definition block_lines (atoms : list string) : list string :=
  (str_of_int (Z.of_nat (length atoms)) +:+ LF) :: LF
  :: map (fun atom => atom +:+ LF) atoms.

(** A line with its end, as it is written to a file: text without a line
    break, then the line feed. *)
Fixpoint is_line (s : string) : bool :=
  match s with
  | EmptyString => false
  | String c s' =>
      if Ascii.eqb c "010" then String.eqb s' ""
      else negb (Ascii.eqb c "013") && is_line s'
  end.

(** What a run does to the files and the engine, in order: the events of
    its trace other than the messages printed. *)
Inductive step : Type :=
  | Writes (a : artifact)
  | Runs (s : stage).

Definition step_of (ev : event) : option step :=
  match ev with
  | Printed _ => None
  | Wrote a _ => Some (Writes a)
  | EngineRun s _ => Some (Runs s)
  end.

Definition steps (trace : list event) : list step := omap step_of trace.

(** The steps of a run of the notebook from the first cell to the last. *)
Definition all_steps : list step :=
  [ Writes OptDeck; Runs Opt; Writes ScanDeck; Writes ScanDeck; Runs Scan;
    Writes Trajectory; Writes EnergyFile ].

End Text.

(** ** Further inputs, for the examples *)

Module Cases.

(** The variable section of a scan deck. *)
Definition deck : list string :=
  [ " B1   0.93" +:+ LF; " B4   1.40000000" +:+ LF; " A1   104.5" +:+ LF ].

(** A geometry file without the two blank lines before the molecule. *)
Definition geom_no_block : string :=
  "# hf/3-21g" +:+ LF +:+ " B4   1.40000000" +:+ LF.

(** The sample parameters with a step count of zero. *)
Definition p_zero : params :=
  {| molecule_name := "h3f"; memory := 25; n_cpus := 6;
     method := "ump2(full)"; title_card := "Basis Set";
     scan_bond := "B4";
     lower_bound := PyFloat 0.7; upper_bound := PyFloat 1.75;
     scan_step_number := PyInt 0 |}.

End Cases.

(** * Properties *)

Import PyStr PyNum Reading.

(** ** Blank lines and the basis set block *)

Section BlankLines.

Abbreviation blank := (fun line : string => is_blank line = true).

Lemma is_blank_LF : is_blank LF = true.
Proof. reflexivity. Qed.

Lemma skip_blank_split (lines : list string) :
  exists pre, lines = pre ++ skip_blank lines /\ Forall blank pre.
Proof.
  induction lines as [|line rest [pre [Heq Hpre]]]; simpl.
  - exists []. split; [reflexivity | constructor].
  - destruct (is_blank line) eqn:Hb.
    + exists (line :: pre). split; [simpl; congruence | constructor; assumption].
    + exists []. split; [reflexivity | constructor].
Qed.

Lemma skip_blank_leading (lines : list string) :
  leading_blank (skip_blank lines) = 0%nat.
Proof.
  induction lines as [|line rest IH]; simpl; [reflexivity|].
  destruct (is_blank line) eqn:Hb; [assumption | simpl; now rewrite Hb].
Qed.

Lemma pop_blank_split (block : list string) :
  exists post, block = pop_blank block ++ post /\ Forall blank post.
Proof.
  induction block as [|line rest [post [Heq Hpost]]]; simpl.
  - exists []. split; [reflexivity | constructor].
  - destruct (pop_blank rest) as [|l' r'] eqn:Hp.
    + destruct (is_blank line) eqn:Hb.
      * exists (line :: post). simpl in Heq. subst rest.
        split; [reflexivity | constructor; assumption].
      * exists post. simpl in *. subst rest. split; [reflexivity | assumption].
    + exists post. split; [|assumption].
      change ((line :: l' :: r') ++ post) with (line :: (l' :: r') ++ post).
      now rewrite <- Heq.
Qed.

Lemma leading_blank_app_blank (lines : list string) (line : string) :
  is_blank line = true ->
  leading_blank (lines ++ [line]) =
    (if (leading_blank lines =? length lines)%nat
     then S (leading_blank lines) else leading_blank lines).
Proof.
  intros Hb. induction lines as [|l r IH]; simpl.
  - now rewrite Hb.
  - destruct (is_blank l); simpl; [|reflexivity].
    rewrite IH. destruct (leading_blank r =? length r)%nat; reflexivity.
Qed.

Lemma leading_blank_app_nonblank (lines : list string) (line : string) :
  is_blank line = false ->
  leading_blank (lines ++ [line]) = leading_blank lines.
Proof.
  intros Hb. induction lines as [|l r IH]; simpl.
  - now rewrite Hb.
  - destruct (is_blank l); simpl; congruence.
Qed.

(** After the trailing blank lines are popped, none is left at the end. *)
Lemma pop_blank_trailing (block : list string) :
  trailing_blank (pop_blank block) = 0%nat.
Proof.
  unfold trailing_blank.
  induction block as [|line rest IH]; simpl; [reflexivity|].
  destruct (pop_blank rest) as [|l' r'] eqn:Hp.
  - destruct (is_blank line) eqn:Hb; simpl; [reflexivity | now rewrite Hb].
  - change (rev (line :: l' :: r')) with (rev (l' :: r') ++ [line]).
    destruct (is_blank line) eqn:Hb.
    + rewrite leading_blank_app_blank by assumption. rewrite IH.
      rewrite length_rev. reflexivity.
    + rewrite leading_blank_app_nonblank by assumption. exact IH.
Qed.

(** Popping at the end leaves a non-blank first line in place. *)
Lemma pop_blank_leading (block : list string) :
  leading_blank block = 0%nat -> leading_blank (pop_blank block) = 0%nat.
Proof.
  destruct block as [|line rest]; simpl; [reflexivity|].
  destruct (is_blank line) eqn:Hb; [discriminate|]. intros _.
  destruct (pop_blank rest); simpl; now rewrite Hb.
Qed.

Lemma leading_blank_framed (core : list string) :
  leading_blank core = 0%nat ->
  leading_blank (LF :: core ++ [LF]) =
    match core with [] => 2%nat | _ => 1%nat end.
Proof.
  destruct core as [|line rest]; simpl; [reflexivity|].
  destruct (is_blank line); [discriminate | reflexivity].
Qed.

Lemma trailing_blank_framed (core : list string) :
  trailing_blank core = 0%nat ->
  trailing_blank (LF :: core ++ [LF]) =
    match core with [] => 2%nat | _ => 1%nat end.
Proof.
  unfold trailing_blank. intros H0.
  destruct core as [|line rest]; [reflexivity|].
  assert (Hrev : rev (LF :: (line :: rest) ++ [LF])
                 = LF :: rev (line :: rest) ++ [LF]).
  { change (LF :: (line :: rest) ++ [LF])
      with ([LF] ++ (line :: rest) ++ [LF]).
    now rewrite !rev_app_distr. }
  rewrite Hrev. cbn [leading_blank]. rewrite is_blank_LF. f_equal.
  rewrite leading_blank_app_blank by apply is_blank_LF.
  rewrite H0. rewrite length_rev. reflexivity.
Qed.

End BlankLines.

(** C7 (as amended): [read_basis_set] removes the blank lines before the
    first and after the last non-blank line of the file, leaves the lines in
    between as they are, and puts one blank line before and one after them.
    The output therefore begins and ends with exactly one blank line when
    the file has a non-blank line, and is two blank lines when it has none. *)
Theorem read_basis_set_frame (basisset : list string) :
  exists pre core post : list string,
    basisset = pre ++ core ++ post /\
    Forall (fun line => is_blank line = true) pre /\
    Forall (fun line => is_blank line = true) post /\
    leading_blank core = 0%nat /\
    trailing_blank core = 0%nat /\
    read_basis_set basisset = LF :: core ++ [LF] /\
    leading_blank (read_basis_set basisset) =
      match core with [] => 2%nat | _ => 1%nat end /\
    trailing_blank (read_basis_set basisset) =
      match core with [] => 2%nat | _ => 1%nat end.
Proof.
  destruct (skip_blank_split basisset) as [pre [Hpre Hblank]].
  destruct (pop_blank_split (skip_blank basisset)) as [post [Hpost Hblank']].
  pose proof (pop_blank_leading _ (skip_blank_leading basisset)) as Hlead.
  pose proof (pop_blank_trailing (skip_blank basisset)) as Htrail.
  exists pre, (pop_blank (skip_blank basisset)), post.
  assert (Hout : read_basis_set basisset
                 = LF :: pop_blank (skip_blank basisset) ++ [LF]) by reflexivity.
  repeat split; try assumption.
  - rewrite <- Hpost. exact Hpre.
  - rewrite Hout. now apply leading_blank_framed.
  - rewrite Hout. now apply trailing_blank_framed.
Qed.

(** C7, counterexample: a basis-set file of three blank lines gives two
    blank lines, so the output begins (and ends) with two blank lines, not
    with exactly one. *)
Lemma read_basis_set_blank_file :
  read_basis_set [LF; LF; LF] = [LF; LF] /\
  leading_blank (read_basis_set [LF; LF; LF]) = 2%nat /\
  trailing_blank (read_basis_set [LF; LF; LF]) = 2%nat.
Proof. repeat split. Qed.

(** ** Runs of the notebook *)

Section Runs.

Context {A B : Type}.

Lemma bind_inv (m : M A) (k : A -> M B) (t : list event) (r : exn + B) :
  bind m k = (t, r) ->
  (exists e, m = (t, inl e) /\ r = inl e) \/
  (exists t1 a t2, m = (t1, inr a) /\ k a = (t2, r) /\ t = t1 ++ t2).
Proof.
  unfold bind. destruct m as [t1 [e|a]].
  - intros [= <- <-]. left. eauto.
  - destruct (k a) as [t2 r2] eqn:Hk. intros [= <- <-]. right.
    exists t1, a, t2. auto.
Qed.

Lemma bind_lift_inv (x : exn + A) (k : A -> M B) (t : list event) (r : exn + B) :
  bind (lift x) k = (t, r) ->
  (exists e, x = inl e /\ t = [] /\ r = inl e) \/
  (exists a, x = inr a /\ k a = (t, r)).
Proof.
  unfold bind, lift. destruct x as [e|a].
  - intros [= <- <-]. left. eauto.
  - destruct (k a) as [t2 r2] eqn:Hk. intros [= <- <-]. right. eauto.
Qed.

Lemma bind_emit_inv (ev : event) (k : unit -> M B) (t : list event) (r : exn + B) :
  bind (emit ev) k = (t, r) -> exists t', k tt = (t', r) /\ t = ev :: t'.
Proof.
  unfold bind, emit. destruct (k tt) as [t2 r2]. intros [= <- <-]. eauto.
Qed.

End Runs.

Section Facts.
Local Open Scope py_scope.

Variable float_repr : float -> string.
Variable g16 : stage -> string -> option string.

Lemma validation_cell_inv (p : params) (t : list event) (r : exn + unit) :
  validation_cell p = (t, r) ->
  r = inr tt /\
  match validate_parameters (lower_bound p) (upper_bound p) (scan_step_number p) with
  | inl (ValueError e) => t = [Printed ("Parameter validation error: " +:+ e)]
  | _ => t = []
  end.
Proof.
  unfold validation_cell, validate_parameters.
  repeat match goal with |- context [if ?b then _ else _] => destruct b end;
    unfold emit, ret; intros [= <- <-]; auto.
Qed.

Lemma run_engine_inv (s : stage) (deck : string) (t : list event) (r : exn + string) :
  run_engine g16 s deck = (t, r) ->
  t = [EngineRun s deck] /\
  r = match g16 s deck with Some log => inr log | None => inl FileNotFoundError end.
Proof.
  unfold run_engine, bind, emit, ret, raise.
  destruct (g16 s deck); intros [= <- <-]; auto.
Qed.

Lemma check_termination_inv (s : stage) (lines : list string)
    (t : list event) (r : exn + unit) :
  check_termination s lines = (t, r) ->
  (terminated_normally lines = true /\ t = [Printed (stage_done s)] /\ r = inr tt) \/
  (terminated_normally lines = false /\ t = [] /\ r = inl (RuntimeError (stage_failed s))).
Proof.
  unfold check_termination, emit, raise.
  destruct (terminated_normally lines); intros [= <- <-]; auto.
Qed.

Lemma update_scan_bond_inv (p : params) (lines : list string) (bond : string)
    (t : list event) (r : exn + (globals * list string)) :
  update_scan_bond float_repr p lines bond = (t, r) ->
  (exists e, update_scan_bond_loop float_repr p bond lines lines 0 = inl e /\
             t = [] /\ r = inl e) \/
  (exists g lines', update_scan_bond_loop float_repr p bond lines lines 0 = inr (g, lines') /\
             t = [Wrote ScanDeck (concat lines')] /\ r = inr (g, lines')).
Proof.
  unfold update_scan_bond. intros H.
  apply bind_lift_inv in H as [(e & He & -> & ->) | ([g lines'] & Hl & H)].
  - left. eauto.
  - apply bind_emit_inv in H as (t' & H & ->). unfold ret in H.
    injection H as <- <-. right. eauto.
Qed.

Lemma terminated_normally_last (lines : list string) :
  terminated_normally lines = true <->
  exists init line, lines = init ++ [line] /\
                    startswith (strip line) "Normal termination" = true.
Proof.
  unfold terminated_normally. split.
  - destruct (last lines) as [line|] eqn:Hl; [|discriminate].
    apply last_Some in Hl as [init ->]. eauto.
  - intros (init & line & -> & H). now rewrite last_snoc.
Qed.

Lemma extract_energies_loop_eq (lines : list string) (energies : list float) :
  extract_energies_loop lines energies =
    (omap complaint_of lines, inr (energies ++ omap energy_of lines)).
Proof.
  revert energies. induction lines as [|line rest IH]; intros energies.
  - simpl. now rewrite app_nil_r.
  - cbn [extract_energies_loop omap list_omap].
    unfold complaint_of, energy_of, payload.
    destruct (contains "EUMP2" line); [|apply IH].
    destruct (Re.search_group energy_prefix energy_group line) as [group1|];
      [|apply IH].
    destruct (float_of_str (replace "D" "E" group1)) as [x|].
    + rewrite IH, <- app_assoc. reflexivity.
    + unfold bind, emit. rewrite IH. reflexivity.
Qed.

Lemma extract_energies_eq (lines : list string) :
  extract_energies lines = (omap complaint_of lines, inr (omap energy_of lines)).
Proof. unfold extract_energies. now rewrite extract_energies_loop_eq. Qed.

Lemma complaints_printed (lines : list string) (ev : event) :
  In ev (omap complaint_of lines) -> exists msg, ev = Printed msg.
Proof.
  induction lines as [|line rest IH]; cbn [omap list_omap]; [intros []|].
  destruct (complaint_of line) as [ev'|] eqn:Hc; [|exact IH].
  intros [<-|Hin]; [|auto].
  unfold complaint_of in Hc. destruct (payload line); [|discriminate].
  destruct (float_of_str s); [discriminate|]. injection Hc as <-. eauto.
Qed.

Lemma extract_data_from_log_inv (lines : list string)
    (t : list event) (r : exn + unit) :
  extract_data_from_log lines = (t, r) ->
  (exists e, orientation_blocks lines [] = inl e /\ t = [] /\ r = inl e) \/
  (exists all_blocks, orientation_blocks lines [] = inr all_blocks /\
     t = [Wrote Trajectory (concat (map (fun block => block +:+ LF) all_blocks))] /\
     r = inr tt).
Proof.
  unfold extract_data_from_log. intros H.
  apply bind_lift_inv in H as [(e & He & -> & ->) | (all_blocks & Hb & H)].
  - left. eauto.
  - unfold emit in H. injection H as <- <-. right. eauto.
Qed.

Lemma write_energies_to_file_inv (energies : list float)
    (minimum_dist step_size : option float) (scan_step_number : pyval)
    (t : list event) (r : exn + unit) :
  write_energies_to_file float_repr energies minimum_dist step_size scan_step_number
    = (t, r) ->
  (exists e, t = [] /\ r = inl e) \/
  (exists n distances,
     scan_step_number = PyInt n /\
     comprehension (distance_at minimum_dist step_size) (seqZ 0 (n + 1)) = inr distances /\
     t = [Wrote EnergyFile (concat (zip_with (energy_line float_repr) distances energies))] /\
     r = inr tt).
Proof.
  unfold write_energies_to_file. intros H.
  apply bind_lift_inv in H as [(e & He & -> & ->) | (steps & Hs & H)];
    [left; eauto|].
  apply bind_lift_inv in H as [(e & He & -> & ->) | (distances & Hd & H)];
    [left; eauto|].
  unfold emit in H. injection H as <- <-. right.
  destruct scan_step_number as [n|]; [|discriminate]. injection Hs as <-.
  exists n, distances. auto.
Qed.

(** One step of a run [H : bind m k = (t, r)]: either [m] stops with an
    exception or it returns and the run goes on in [k]. *)
Tactic Notation "step_lift" hyp(H) "as" ident(a) ident(Ha) :=
  let e := fresh "e" in let H' := fresh "Hnext" in
  apply bind_lift_inv in H;
  destruct H as [(e & Ha & -> & ->) | (a & Ha & H')];
  [|cbv beta zeta in H'; rename H' into H].
Tactic Notation "step_emit" hyp(H) :=
  let t' := fresh "t" in let H' := fresh "Hnext" in
  apply bind_emit_inv in H; destruct H as (t' & H' & ->);
  cbv beta zeta in H'; rename H' into H.
Tactic Notation "step_bind" hyp(H) "as" ident(a) ident(Ha) :=
  let e := fresh "e" in let t1 := fresh "t" in let t2 := fresh "t" in
  let H' := fresh "Hnext" in
  apply bind_inv in H;
  destruct H as [(e & Ha & ->) | (t1 & a & t2 & Ha & H' & ->)];
  [|cbv beta zeta in H'; rename H' into H].
(** Membership of an event in a trace that is a concatenation of known
    pieces. *)
Ltac in_trace H :=
  repeat (rewrite in_app_iff in H || cbn [In app] in H);
  repeat match type of H with
         | _ \/ _ => destruct H as [H|H]
         | False => destruct H
         | _ = _ => first [discriminate H | injection H as <- <- | injection H as <-]
         end.

(** An event that stands in a trace given piece by piece. *)
Ltac find_event :=
  solve [repeat first [apply in_eq | apply in_cons | (apply in_or_app; right)]].

(** Every engine run of the notebook is followed by the check of its log:
    either the check fails, and the run of the notebook ends there with the
    failure of that stage, or it prints that the stage is done. *)
Lemma notebook_engine_run
    (p : params) (geom_text basis_text : string)
    (trace : list event) (r : exn + unit)
    (s : stage) (deck log : string) :
  notebook float_repr g16 p geom_text basis_text = (trace, r) ->
  In (EngineRun s deck) trace ->
  g16 s deck = Some log ->
  (terminated_normally (readlines log) = false /\
   r = inl (RuntimeError (stage_failed s)) /\
   (exists before, trace = before ++ [EngineRun s deck]) /\
   ~ In (Printed (stage_done s)) trace) \/
  (terminated_normally (readlines log) = true /\
   In (Printed (stage_done s)) trace).
Proof.
  intros H Hin Hlog. unfold notebook in H. cbv beta zeta in H.
  remember (read_geometry_block (readlines geom_text)) as input_geometry.
  remember (read_basis_set (readlines basis_text)) as basisset.
  remember (concat (header_opt p ++ input_geometry ++ basisset)) as opt_deck.
  step_lift H as u Hbond; [destruct Hin|].
  step_bind H as u' Hval.
  { apply validation_cell_inv in Hval as [? _]. discriminate. }
  apply validation_cell_inv in Hval as [_ Hval].
  assert (Hval' : forall l, In (EngineRun s deck) (t ++ l) -> In (EngineRun s deck) l).
  { intros l Hl. destruct (validate_parameters _ _ _) as [[]|]; subst t; in_trace Hl; auto. }
  assert (Hdone : forall s', ~ In (Printed (stage_done s')) t).
  { intros s' Hs'. destruct (validate_parameters _ _ _) as [[]|]; subst t; in_trace Hs'.
    destruct s'; discriminate. }
  apply Hval' in Hin. clear Hval Hval'.
  step_emit H.
  step_bind H as opt_log Hrun.
  { apply run_engine_inv in Hrun as [-> Hr]. in_trace Hin.
    rewrite Hlog in Hr. discriminate. }
  apply run_engine_inv in Hrun as [-> Hr].
  destruct (g16 Opt opt_deck) as [opt_log'|] eqn:Hopt; [|discriminate].
  injection Hr as <-.
  step_bind H as u'' Hcheck.
  { apply check_termination_inv in Hcheck as [(_ & _ & ?) | (Hbad & -> & ->)];
      [discriminate|].
    in_trace Hin. left. assert (log = opt_log) as -> by congruence.
    repeat split; [assumption | |].
    - exists (t ++ [Wrote OptDeck opt_deck]). now rewrite <- app_assoc.
    - intros Hp. in_trace Hp. eapply Hdone; eauto. }
  apply check_termination_inv in Hcheck as [(Hgood & -> & _) | (_ & _ & ?)];
    [|discriminate].
  assert (Hopt_done : s = Opt -> deck = opt_deck ->
            forall rest, terminated_normally (readlines log) = true /\
              In (Printed (stage_done s))
                 (t ++ Wrote OptDeck opt_deck
                    :: ([EngineRun Opt opt_deck] ++ [Printed (stage_done Opt)] ++ rest))).
  { intros -> -> rest. assert (log = opt_log) as -> by congruence.
    split; [assumption|]. rewrite in_app_iff. right. simpl. auto. }
  step_lift H as optimized_structure Hstruct.
  { in_trace Hin. right. rewrite <- (app_nil_r [Printed _]). now apply Hopt_done. }
  step_lift H as first_line Hfirst.
  { in_trace Hin. right. rewrite <- (app_nil_r [Printed _]). now apply Hopt_done. }
  remember (concat (header_scan p ++ (first_line :: optimized_structure) ++ basisset))
    as scan_deck.
  step_emit H.
  step_bind H as updated Hupd.
  { apply update_scan_bond_inv in Hupd
      as [(e' & _ & -> & _) | (g & lines' & _ & _ & ?)]; [|discriminate].
    in_trace Hin. right. now apply Hopt_done. }
  apply update_scan_bond_inv in Hupd
    as [(e' & _ & _ & ?) | (g & lines' & Hloop & -> & [= ->])]; [discriminate|].
  cbn [fst snd] in H.
  step_bind H as scan_log Hrun.
  { apply run_engine_inv in Hrun as [-> Hr]. in_trace Hin.
    - right. now apply Hopt_done.
    - rewrite Hlog in Hr. discriminate. }
  apply run_engine_inv in Hrun as [-> Hr].
  destruct (g16 Scan (concat lines')) as [scan_log'|] eqn:Hscan; [|discriminate].
  injection Hr as <-.
  step_bind H as u3 Hcheck.
  { apply check_termination_inv in Hcheck as [(_ & _ & ?) | (Hbad & -> & ->)];
      [discriminate|].
    in_trace Hin; [right; now apply Hopt_done|].
    left. assert (log = scan_log) as -> by congruence.
    repeat split; [assumption | |].
    - exists (t ++ [Wrote OptDeck opt_deck; EngineRun Opt opt_deck;
                    Printed (stage_done Opt); Wrote ScanDeck scan_deck;
                    Wrote ScanDeck (concat lines')]).
      rewrite <- !app_assoc. reflexivity.
    - intros Hp. in_trace Hp. eapply Hdone; eauto. }
  apply check_termination_inv in Hcheck as [(Hgood' & -> & _) | (_ & _ & ?)];
    [|discriminate].
  assert (Hno : forall tr, (extract_data_from_log (readlines scan_log) ;;
                        energies <- extract_energies (readlines scan_log) ;;
                        write_energies_to_file float_repr energies
                          (minimum_dist g) (step_size g) (scan_step_number p))%py
                       = (tr, r) -> ~ In (EngineRun s deck) tr).
  { intros tr Hr Hin'.
    step_bind Hr as u4 Hxyz.
    { apply extract_data_from_log_inv in Hxyz
        as [(e' & _ & -> & _) | (blocks & _ & _ & ?)]; [|discriminate].
      destruct Hin'. }
    apply extract_data_from_log_inv in Hxyz
      as [(e' & _ & _ & ?) | (blocks & _ & -> & _)]; [discriminate|].
    rewrite extract_energies_eq in Hr.
    step_bind Hr as energies Hen; [discriminate|].
    injection Hen as <- <-.
    apply write_energies_to_file_inv in Hr
      as [(e' & -> & _) | (n & distances & _ & _ & -> & _)];
      in_trace Hin'; apply complaints_printed in Hin' as [msg ?]; discriminate. }
  apply Hno in H. right. in_trace Hin.
  - now apply Hopt_done.
  - assert (log = scan_log) as -> by congruence.
    split; [assumption|]. rewrite in_app_iff. right. simpl. auto 10.
  - contradiction.
Qed.

(** C4 (as amended): the log of an engine run is judged by its last line
    alone.  The notebook prints that the stage is done exactly when the log
    has a last line whose stripped text begins with "Normal termination";
    in every other case, also when blank lines follow a line with the
    marker, it ends with the engine-failure error of that stage and does
    nothing after the engine run. *)
Theorem termination_check_last_line
    (p : params) (geom_text basis_text : string)
    (trace : list event) (r : exn + unit)
    (s : stage) (deck log : string) :
  notebook float_repr g16 p geom_text basis_text = (trace, r) ->
  In (EngineRun s deck) trace ->
  g16 s deck = Some log ->
  ((exists init line, readlines log = init ++ [line] /\
      startswith (strip line) "Normal termination" = true)
   <-> In (Printed (stage_done s)) trace) /\
  (~ (exists init line, readlines log = init ++ [line] /\
        startswith (strip line) "Normal termination" = true) ->
   r = inl (RuntimeError (stage_failed s)) /\
   exists before, trace = before ++ [EngineRun s deck]).
Proof.
  intros H Hin Hlog.
  destruct (notebook_engine_run _ _ _ _ _ _ _ _ H Hin Hlog)
    as [(Hbad & Hr & Hhalt & Hnot) | (Hgood & Hdone)].
  - assert (Hno : ~ (exists init line, readlines log = init ++ [line] /\
                       startswith (strip line) "Normal termination" = true)).
    { intros Hok. apply terminated_normally_last in Hok. congruence. }
    split; [split; intros; contradiction | auto].
  - apply terminated_normally_last in Hgood.
    split; [split; auto | intros; contradiction].
Qed.

(** ** The final structure of the optimisation log *)

Lemma find_start_index_absent (lines : list string) (i : nat) :
  Forall (fun line => contains structure_marker line = false) lines ->
  find_start_index lines i = None.
Proof.
  intros Hno. revert i. induction Hno as [|line rest Hline _ IH]; intros i.
  - reflexivity.
  - simpl. rewrite Hline. apply IH.
Qed.

Lemma find_start_index_present (before after : list string) (marked : string)
    (i : nat) :
  Forall (fun line => contains structure_marker line = false) before ->
  contains structure_marker marked = true ->
  find_start_index (before ++ marked :: after) i
    = Some (i + length before + 1)%nat.
Proof.
  intros Hno Hm. revert i. induction Hno as [|line rest Hline _ IH]; intros i.
  - simpl. rewrite Hm. f_equal. lia.
  - simpl. rewrite Hline, IH. f_equal. lia.
Qed.

Lemma copy_structure_eq (lines geometry_block : list string) :
  copy_structure lines geometry_block
    = geometry_block ++ map convert_line (until_digit lines).
Proof.
  revert geometry_block.
  induction lines as [|line rest IH]; intros geometry_block; simpl.
  - now rewrite app_nil_r.
  - destruct (starts_with_digit (strip line)); [now rewrite app_nil_r|].
    unfold convert_line at 1. simpl.
    destruct (contains "Variables:" line); rewrite IH, <- app_assoc; reflexivity.
Qed.

Lemma extract_optimized_structure_absent (lines : list string) :
  Forall (fun line => contains structure_marker line = false) lines ->
  extract_optimized_structure lines = inl structure_not_found.
Proof.
  intros Hno. unfold extract_optimized_structure.
  now rewrite find_start_index_absent.
Qed.

Lemma extract_optimized_structure_present
    (before after : list string) (marked : string) :
  Forall (fun line => contains structure_marker line = false) before ->
  contains structure_marker marked = true ->
  extract_optimized_structure (before ++ marked :: after)
    = inr (map convert_line (until_digit after)).
Proof.
  intros Hno Hm. unfold extract_optimized_structure.
  rewrite find_start_index_present by assumption.
  rewrite copy_structure_eq. cbn [app]. do 3 f_equal.
  replace (0 + length before + 1)%nat with (length (before ++ [marked]))
    by (rewrite length_app; simpl; lia).
  replace (before ++ marked :: after) with ((before ++ [marked]) ++ after)
    by now rewrite <- app_assoc.
  apply drop_app_length.
Qed.

Lemma bind_lift_ok {A B} (a : A) (k : A -> M B) : bind (lift (inr a)) k = k a.
Proof. unfold bind, lift. now destruct (k a). Qed.

Lemma bind_lift_fail {A B} (e : exn) (k : A -> M B) :
  bind (lift (inl e)) k = ([], inl e).
Proof. reflexivity. Qed.

Lemma bind_emit {B} (ev : event) (k : unit -> M B) :
  bind (emit ev) k = (ev :: (k tt).1, (k tt).2).
Proof. unfold bind, emit. now destruct (k tt). Qed.

Lemma bind_ok {A B} (m : M A) (k : A -> M B) (t : list event) (a : A) :
  m = (t, inr a) -> bind m k = (t ++ (k a).1, (k a).2).
Proof. intros ->. unfold bind. now destruct (k a). Qed.

(** The validation cell goes on to the next cell whatever it finds. *)
Lemma validation_cell_returns (p : params) :
  validation_cell p = ((validation_cell p).1, inr tt).
Proof.
  destruct (validation_cell p) as [t r] eqn:H.
  apply validation_cell_inv in H as [-> _]. reflexivity.
Qed.

Lemma run_engine_log (s : stage) (deck log : string) :
  g16 s deck = Some log ->
  run_engine g16 s deck = ([EngineRun s deck], inr log).
Proof. intros H. unfold run_engine, bind, emit, ret. now rewrite H. Qed.

Lemma check_termination_ok (s : stage) (lines : list string) :
  terminated_normally lines = true ->
  check_termination s lines = ([Printed (stage_done s)], inr tt).
Proof. intros H. unfold check_termination. now rewrite H. Qed.

(** C5 (as amended): after the first line that contains the marker,
    [extract_optimized_structure] copies the lines up to the first one
    whose stripped text begins with a digit; a copied line that contains
    "Variables:" (with the colon) becomes one blank line, and in every
    other copied line each comma and each '=' becomes three spaces.
    Without the marker it raises the structure-not-found error, and the
    notebook then ends with that error right after the check of the
    optimisation log, before it writes a scan deck. *)
Theorem extract_optimized_structure_spec :
  (forall (before after : list string) (marked : string),
     Forall (fun line => contains structure_marker line = false) before ->
     contains structure_marker marked = true ->
     extract_optimized_structure (before ++ marked :: after)
       = inr (map convert_line (until_digit after))) /\
  (forall lines : list string,
     Forall (fun line => contains structure_marker line = false) lines ->
     extract_optimized_structure lines = inl structure_not_found) /\
  (forall (p : params) (geom_text basis_text log : string),
     let deck := concat (header_opt p
                         ++ read_geometry_block (readlines geom_text)
                         ++ read_basis_set (readlines basis_text)) in
     check_scan_bond (scan_bond p) (readlines geom_text) = inr tt ->
     g16 Opt deck = Some log ->
     terminated_normally (readlines log) = true ->
     Forall (fun line => contains structure_marker line = false) (readlines log) ->
     notebook float_repr g16 p geom_text basis_text
       = ((validation_cell p).1
            ++ [Wrote OptDeck deck; EngineRun Opt deck; Printed (stage_done Opt)],
          inl structure_not_found)).
Proof.
  split; [exact extract_optimized_structure_present|].
  split; [exact extract_optimized_structure_absent|].
  intros p geom_text basis_text log deck Hbond Hlog Hterm Hno.
  unfold notebook. fold deck.
  rewrite Hbond, bind_lift_ok.
  rewrite (bind_ok _ _ _ _ (validation_cell_returns p)). cbn [fst snd].
  rewrite bind_emit.
  rewrite (bind_ok _ _ _ _ (run_engine_log _ _ _ Hlog)). cbn [fst snd].
  rewrite (bind_ok _ _ _ _ (check_termination_ok Opt _ Hterm)). cbn [fst snd].
  rewrite (extract_optimized_structure_absent _ Hno), bind_lift_fail.
  reflexivity.
Qed.

(** ** The scan directive and the energy file *)

Lemma ebind_inr {A B} (m : exn + A) (k : A -> exn + B) (b : B) :
  ebind m k = inr b -> exists a, m = inr a /\ k a = inr b.
Proof. destruct m as [e|a]; [discriminate|]. simpl. eauto. Qed.

Lemma selected_parts (bond line : string) :
  selected bond line = true <->
  startswith (strip line) bond = true /\
  exists name token, split line = [name; token].
Proof.
  unfold selected. rewrite andb_true_iff, Nat.eqb_eq. split.
  - intros [Hs Hl]. split; [assumption|].
    destruct (split line) as [|name [|token [|]]]; try discriminate. eauto.
  - intros [Hs (name & token & ->)]. auto.
Qed.

(** A line that is not selected is passed over. *)
Lemma update_scan_bond_loop_skip (p : params) (bond line : string)
    (lines rest : list string) (i : nat) :
  selected bond line = false ->
  update_scan_bond_loop float_repr p bond lines (line :: rest) i
    = update_scan_bond_loop float_repr p bond lines rest (S i).
Proof.
  unfold selected. intros Hsel. cbn [update_scan_bond_loop].
  destruct (startswith (strip line) bond); [|reflexivity].
  destruct (split line) as [|name [|token [|]]]; try reflexivity.
  discriminate.
Qed.

(** What the loop does at a selected line. *)
Lemma update_scan_bond_loop_selected (p : params) (bond line name token : string)
    (lines rest : list string) (i : nat) :
  startswith (strip line) bond = true ->
  split line = [name; token] ->
  update_scan_bond_loop float_repr p bond lines (line :: rest) i =
    (equilibrium_dist <~
       match float_of_str token with
       | Some x => inr x
       | None => inl (FloatValueError token)
       end ;;
     minimum_dist <~ float_mul equilibrium_dist (lower_bound p) ;;
     maximum_dist <~ float_mul equilibrium_dist (upper_bound p) ;;
     step_size <~ float_div (maximum_dist - minimum_dist)%float (scan_step_number p) ;;
     steps <~ int_of_pyval (scan_step_number p) ;;
     inr ({| minimum_dist := Some minimum_dist; step_size := Some step_size |},
          <[i := " " +:+ bond +:+ "   " +:+ format_8f minimum_dist +:+ "   "
                 +:+ str_of_int steps +:+ "   " +:+ float_repr step_size +:+ LF]>
            lines))%py.
Proof.
  intros Hs Hp. cbn [update_scan_bond_loop]. rewrite Hs, Hp. reflexivity.
Qed.

(** The loop succeeds only by rewriting the first selected line. *)
Lemma update_scan_bond_loop_inv (p : params) (bond : string)
    (lines pre rest : list string) (g : globals) (lines' : list string) :
  lines = pre ++ rest ->
  update_scan_bond_loop float_repr p bond lines rest (length pre) = inr (g, lines') ->
  exists (k : nat) (line name token : string) (x m mx s : float) (n : Z),
    (length pre <= k)%nat /\
    lines !! k = Some line /\
    (forall j l, (length pre <= j < k)%nat -> lines !! j = Some l ->
                 selected bond l = false) /\
    startswith (strip line) bond = true /\
    split line = [name; token] /\
    float_of_str token = Some x /\
    float_mul x (lower_bound p) = inr m /\
    float_mul x (upper_bound p) = inr mx /\
    float_div (mx - m)%float (scan_step_number p) = inr s /\
    int_of_pyval (scan_step_number p) = inr n /\
    g = {| minimum_dist := Some m; step_size := Some s |} /\
    lines' = <[k := " " +:+ bond +:+ "   " +:+ format_8f m +:+ "   "
                    +:+ str_of_int n +:+ "   " +:+ float_repr s +:+ LF]> lines.
Proof.
  revert pre. induction rest as [|line rest IH]; intros pre Hlines H.
  - discriminate.
  - destruct (selected bond line) eqn:Hsel.
    + apply selected_parts in Hsel as [Hs (name & token & Hp)].
      rewrite (update_scan_bond_loop_selected _ _ _ _ _ _ _ _ Hs Hp) in H.
      apply ebind_inr in H as (x & Hx & H).
      apply ebind_inr in H as (m & Hm & H).
      apply ebind_inr in H as (mx & Hmx & H).
      apply ebind_inr in H as (s & Hstep & H).
      apply ebind_inr in H as (n & Hn & H).
      injection H as <- <-.
      destruct (float_of_str token) as [x'|] eqn:Hf; [|discriminate].
      injection Hx as ->.
      exists (length pre), line, name, token, x, m, mx, s, n.
      split; [lia|].
      split; [subst lines; now rewrite list_lookup_middle|].
      split; [intros j l Hj; lia|].
      repeat (split; [assumption || reflexivity|]). reflexivity.
    + rewrite update_scan_bond_loop_skip in H by assumption.
      specialize (IH (pre ++ [line])).
      rewrite length_app in IH. simpl in IH.
      replace (length pre + 1)%nat with (S (length pre)) in IH by lia.
      destruct IH as (k & line' & name & token & x & m & mx & s & n
                      & Hk & Hlook & Hfirst & Hrest);
        [now rewrite <- app_assoc | assumption |].
      exists k, line', name, token, x, m, mx, s, n.
      split; [lia|]. split; [assumption|]. split; [|assumption].
      intros j l Hj Hl.
      destruct (decide (j = length pre)) as [->|Hne].
      * subst lines. rewrite list_lookup_middle in Hl by reflexivity.
        now injection Hl as <-.
      * apply (Hfirst j l); [lia | assumption].
Qed.

Lemma comprehension_inr {A B} (f : A -> exn + B) (l : list A) (bs : list B) :
  comprehension f l = inr bs ->
  length bs = length l /\
  forall (i : nat) (a : A), l !! i = Some a ->
    exists b, f a = inr b /\ bs !! i = Some b.
Proof.
  revert bs. induction l as [|a l IH]; intros bs H.
  - injection H as <-. split; [reflexivity | intros i a Hi; discriminate].
  - cbn [comprehension] in H.
    apply ebind_inr in H as (b & Hb & H).
    apply ebind_inr in H as (bs' & Hbs & H).
    injection H as <-. destruct (IH _ Hbs) as [Hlen Hall].
    split; [simpl; congruence|].
    intros [|i] a' Hi; simpl in Hi.
    + injection Hi as <-. eauto.
    + apply Hall in Hi as (b' & ? & ?). eauto.
Qed.

Lemma comprehension_total {A B} (f : A -> exn + B) (l : list A) :
  Forall (fun a => exists b, f a = inr b) l ->
  exists bs, comprehension f l = inr bs.
Proof.
  induction 1 as [|a l [b Hb] _ [bs Hbs]].
  - exists []. reflexivity.
  - exists (b :: bs). cbn [comprehension]. now rewrite Hb, Hbs.
Qed.

Lemma distance_at_inr (m s : float) (i : Z) (d : float) :
  distance_at (Some m) (Some s) i = inr d ->
  exists fi, float_of_int i = Some fi /\ d = (m + fi * s)%float.
Proof.
  unfold distance_at, float_of_pyval. destruct (float_of_int i) as [fi|].
  - intros [= <-]. eauto.
  - discriminate.
Qed.

Lemma distance_at_small (m s : float) (i : Z) :
  Z.abs i < float_int_bound ->
  exists d, distance_at (Some m) (Some s) i = inr d.
Proof.
  intros Hi. unfold distance_at, float_of_pyval, float_of_int.
  apply Z.ltb_lt in Hi. rewrite Hi. eauto.
Qed.

(** The rows of the energy file, given the list of distances. *)
Lemma energy_rows (energies distances : list float) (m s : float) (n : Z) :
  comprehension (distance_at (Some m) (Some s)) (seqZ 0 (n + 1)) = inr distances ->
  length (zip_with (energy_line float_repr) distances energies)
    = Nat.min (Z.to_nat (n + 1)) (length energies) /\
  forall (i : nat) (e : float),
    energies !! i = Some e -> Z.of_nat i <= n ->
    exists fi, float_of_int (Z.of_nat i) = Some fi /\
      zip_with (energy_line float_repr) distances energies !! i
        = Some (energy_line float_repr (m + fi * s)%float e).
Proof.
  intros H. apply comprehension_inr in H as [Hlen Hall].
  rewrite length_seqZ in Hlen. split.
  - rewrite length_zip_with. congruence.
  - intros i e He Hi.
    destruct (Hall i (Z.of_nat i)) as (d & Hd & Hlook).
    { rewrite lookup_seqZ_lt by lia. f_equal; lia. }
    apply distance_at_inr in Hd as (fi & Hfi & ->).
    exists fi. split; [assumption|].
    rewrite lookup_zip_with, Hlook, He. reflexivity.
Qed.

(** C2 (as amended): [write_energies_to_file] builds the N+1 distances
    [minimum + i * step_size], i = 0..N, and writes one row for each of them
    that has an energy: the file has min(N+1, number of energies) rows, and
    row i carries the distance [minimum + i * step_size] and the i-th
    energy.  With fewer than N+1 energies the distance column is cut short
    accordingly. *)
Theorem energy_file_rows (energies : list float) (m s : float) (n : Z) :
  n < float_int_bound ->
  exists rows : list string,
    write_energies_to_file float_repr energies (Some m) (Some s) (PyInt n)
      = ([Wrote EnergyFile (concat rows)], inr tt) /\
    length rows = Nat.min (Z.to_nat (n + 1)) (length energies) /\
    forall (i : nat) (e : float),
      energies !! i = Some e -> Z.of_nat i <= n ->
      exists fi, float_of_int (Z.of_nat i) = Some fi /\
        rows !! i = Some (energy_line float_repr (m + fi * s)%float e).
Proof.
  intros Hn.
  destruct (comprehension_total (distance_at (Some m) (Some s)) (seqZ 0 (n + 1)))
    as [distances Hd].
  { apply Forall_forall. intros i Hi.
    apply list_elem_of_lookup in Hi as [j Hj].
    apply lookup_seqZ in Hj as [-> Hj]. apply distance_at_small. lia. }
  exists (zip_with (energy_line float_repr) distances energies).
  split; [|now apply energy_rows].
  unfold write_energies_to_file, step_range.
  rewrite bind_lift_ok, Hd, bind_lift_ok. reflexivity.
Qed.

(** C1 (as amended): in every run of the notebook that reaches its end,
    [update_scan_bond] computes a pair (minimum distance, step size) from
    the scan deck it reads, writes the deck back with the directive line
    made from that pair (the minimum rounded to eight decimals, the step
    size as Python prints a float), the engine runs the scan on the deck
    written, and the energy file is labelled from the same pair, not
    rounded: its row i is the text of [minimum + float(i) * step_size], a
    space, the text of the i-th energy and a line feed. *)
Theorem scan_parameters_label_energies
    (p : params) (geom_text basis_text : string) (trace : list event) :
  notebook float_repr g16 p geom_text basis_text = (trace, inr tt) ->
  exists (m s : float) (n : Z) (scan_deck : string) (deck : list string)
         (k : nat) (scan_log : string) (rows : list string),
    In (Wrote ScanDeck scan_deck) trace /\
    update_scan_bond_loop float_repr p (scan_bond p)
        (readlines scan_deck) (readlines scan_deck) 0
      = inr ({| minimum_dist := Some m; step_size := Some s |}, deck) /\
    scan_step_number p = PyInt n /\
    deck !! k = Some (" " +:+ scan_bond p +:+ "   " +:+ format_8f m +:+ "   "
                      +:+ str_of_int n +:+ "   " +:+ float_repr s +:+ LF) /\
    (forall j, j <> k -> deck !! j = readlines scan_deck !! j) /\
    In (Wrote ScanDeck (concat deck)) trace /\
    In (EngineRun Scan (concat deck)) trace /\
    g16 Scan (concat deck) = Some scan_log /\
    In (Wrote EnergyFile (concat rows)) trace /\
    length rows = Nat.min (Z.to_nat (n + 1))
                    (length (omap energy_of (readlines scan_log))) /\
    forall (i : nat) (e : float),
      omap energy_of (readlines scan_log) !! i = Some e -> Z.of_nat i <= n ->
      exists fi, float_of_int (Z.of_nat i) = Some fi /\
        rows !! i = Some (float_repr (m + fi * s)%float +:+ " "
                          +:+ float_repr e +:+ LF).
Proof.
  remember (inr tt) as r eqn:Hr. intros H.
  unfold notebook in H. cbv beta zeta in H.
  remember (read_geometry_block (readlines geom_text)) as input_geometry.
  remember (read_basis_set (readlines basis_text)) as basisset.
  remember (concat (header_opt p ++ input_geometry ++ basisset)) as opt_deck.
  step_lift H as u Hbond; [discriminate|].
  step_bind H as u' Hval; [discriminate|].
  step_emit H.
  step_bind H as opt_log Hrun; [discriminate|].
  step_bind H as u'' Hcheck; [discriminate|].
  step_lift H as optimized_structure Hstruct; [discriminate|].
  step_lift H as first_line Hfirst; [discriminate|].
  remember (concat (header_scan p ++ (first_line :: optimized_structure) ++ basisset))
    as scan_deck.
  step_emit H.
  step_bind H as updated Hupd; [discriminate|].
  apply update_scan_bond_inv in Hupd
    as [(e' & _ & _ & ?) | (g & deck & Hloop & -> & [= ->])]; [discriminate|].
  cbn [fst snd] in H.
  step_bind H as scan_log Hscan; [discriminate|].
  apply run_engine_inv in Hscan as [-> Hlog].
  destruct (g16 Scan (concat deck)) as [scan_log'|] eqn:Hg; [|discriminate].
  injection Hlog as <-.
  step_bind H as u3 Hcheck'; [discriminate|].
  step_bind H as u4 Hxyz; [discriminate|].
  rewrite extract_energies_eq in H.
  step_bind H as energies Hen; [discriminate|].
  injection Hen as <- <-.
  apply write_energies_to_file_inv in H
    as [(e' & _ & ?) | (n & distances & Hn & Hd & -> & _)]; [congruence|].
  pose proof (update_scan_bond_loop_inv p (scan_bond p) _ [] _ _ _ eq_refl Hloop)
    as (k & line & name & token & x & m & mx & s & n' & _ & Hk & _ & _ & _ & _
        & _ & _ & _ & Hsteps & -> & ->).
  cbn [minimum_dist step_size] in Hd.
  rewrite Hn in Hsteps. injection Hsteps as <-.
  destruct (energy_rows (omap energy_of (readlines scan_log)) distances m s n Hd)
    as [Hlen Hrows].
  exists m, s, n, scan_deck,
    (<[k := " " +:+ scan_bond p +:+ "   " +:+ format_8f m +:+ "   "
             +:+ str_of_int n +:+ "   " +:+ float_repr s +:+ LF]>
       (readlines scan_deck)), k, scan_log,
    (zip_with (energy_line float_repr) distances (omap energy_of (readlines scan_log))).
  split; [find_event|].
  split; [assumption|]. split; [assumption|].
  split; [apply list_lookup_insert_eq; eapply lookup_lt_Some; eassumption|].
  split; [intros j Hj; now apply list_lookup_insert_ne|].
  split; [find_event|].
  split; [find_event|].
  split; [assumption|].
  split; [find_event|].
  split; [assumption | exact Hrows].
Qed.

(** ** The energies of the scan log *)

(** C8 (as amended): a line with the label "EUMP2" that gives no energy
    is skipped and the extraction goes on: the lines before and after it
    give what they give on their own.  When the pattern captures a payload
    that [float] rejects, the failure is printed, with the payload; when
    the pattern does not match the line, nothing is printed.  The energies
    returned are those of the lines whose payload parses, in the order of
    the log: a line gives an energy exactly when it has the label, the
    pattern captures a payload and [float] accepts it, and the energy is
    that number times the factor to eV. *)
Theorem extract_energies_skips_unparsed
    (before after : list string) (line : string) :
  contains "EUMP2" line = true ->
  match Re.search_group energy_prefix energy_group line with
  | Some group1 => float_of_str (replace "D" "E" group1) = None
  | None => True
  end ->
  extract_energies (before ++ line :: after)
    = ((extract_energies before).1
         ++ match Re.search_group energy_prefix energy_group line with
            | Some group1 =>
                [Printed ("Error converting energy: " +:+ replace "D" "E" group1
                          +:+ " - could not convert string to float: '"
                          +:+ replace "D" "E" group1 +:+ "'")]
            | None => []
            end
         ++ (extract_energies after).1,
       inr (omap energy_of before ++ omap energy_of after)) /\
  (extract_energies before).2 = inr (omap energy_of before) /\
  (extract_energies after).2 = inr (omap energy_of after) /\
  (forall lines : list string,
     (extract_energies lines).2 = inr (omap energy_of lines)) /\
  forall (l : string) (energy_eV : float),
    energy_of l = Some energy_eV <->
    contains "EUMP2" l = true /\
    exists (group1 : string) (x : float),
      Re.search_group energy_prefix energy_group l = Some group1 /\
      float_of_str (replace "D" "E" group1) = Some x /\
      energy_eV = (x * 27.211407953)%float.
Proof.
  intros Hlabel Hpayload.
  assert (Hc : omap complaint_of [line]
               = match Re.search_group energy_prefix energy_group line with
                 | Some group1 =>
                     [Printed ("Error converting energy: "
                               +:+ replace "D" "E" group1
                               +:+ " - could not convert string to float: '"
                               +:+ replace "D" "E" group1 +:+ "'")]
                 | None => []
                 end).
  { cbn [omap list_omap]. unfold complaint_of, payload. rewrite Hlabel.
    destruct (Re.search_group energy_prefix energy_group line) as [group1|];
      [|reflexivity].
    now rewrite Hpayload. }
  assert (He : energy_of line = None).
  { unfold energy_of, payload. rewrite Hlabel.
    destruct (Re.search_group energy_prefix energy_group line) as [group1|];
      [|reflexivity].
    now rewrite Hpayload. }
  rewrite !extract_energies_eq. cbn [fst snd].
  split; [|split; [reflexivity|split; [reflexivity|split]]].
  - change (before ++ line :: after) with (before ++ [line] ++ after).
    rewrite !omap_app, Hc. cbn [omap list_omap]. now rewrite He.
  - intros lines. now rewrite extract_energies_eq.
  - intros l energy_eV. unfold energy_of, payload. split.
    + destruct (contains "EUMP2" l); [|discriminate].
      destruct (Re.search_group energy_prefix energy_group l) as [group1|];
        [|discriminate].
      destruct (float_of_str (replace "D" "E" group1)) as [x|] eqn:Hx;
        [|discriminate].
      intros [= <-]. split; [reflexivity|]. now exists group1, x.
    + intros [-> (group1 & x & -> & -> & ->)]. reflexivity.
Qed.

(** ** The validation of the parameters *)




(** ** The trajectory *)

Lemma str_of_int_positive (n : nat) :
  (0 < n)%nat -> str_of_int (Z.of_nat n) <> "0".
Proof.
  intros Hn. destruct n as [|n]; [lia|].
  change (Z.of_nat (S n)) with (Zpos (Pos.of_succ_nat n)).
  unfold str_of_int. intros H.
  apply (f_equal NilEmpty.uint_of_string) in H.
  rewrite NilEmpty.usu in H. injection H as H.
  now apply Unsigned.to_uint_nonzero in H.
Qed.

(** A table line with fewer than six fields gives no atom record. *)
Lemma read_orientation_short (line : string) (rest block_data : list string) :
  startswith (strip line) "-" = false ->
  (length (split line) < 6)%nat ->
  read_orientation (line :: rest) block_data = read_orientation rest block_data.
Proof.
  intros Hsep Hlen. cbn [read_orientation]. rewrite Hsep.
  destruct (split line) as [|? [|? [|? [|? [|? [|? ?]]]]]]; try reflexivity.
  simpl in Hlen. lia.
Qed.

(** A table without atom records adds no block. *)
Lemma orientation_blocks_empty_table (line : string) (rest all_blocks : list string) :
  contains "Standard orientation:" line = true ->
  read_orientation (drop 4 rest) [] = inr [] ->
  orientation_blocks (line :: rest) all_blocks = orientation_blocks rest all_blocks.
Proof.
  intros Hm Ht. cbn [orientation_blocks]. now rewrite Hm, Ht.
Qed.

(** Every block the loop appends renders a table with at least one atom. *)
Lemma orientation_blocks_rendered (lines all_blocks out : list string) :
  Forall (fun block => exists atoms, atoms <> [] /\ block = render_block atoms)
         all_blocks ->
  orientation_blocks lines all_blocks = inr out ->
  Forall (fun block => exists atoms, atoms <> [] /\ block = render_block atoms) out.
Proof.
  revert all_blocks. induction lines as [|line rest IH]; intros all_blocks Hacc H.
  - now injection H as <-.
  - cbn [orientation_blocks] in H.
    destruct (contains "Standard orientation:" line); [|eauto].
    destruct (read_orientation (drop 4 rest) []) as [e|block_data]; [discriminate|].
    cbn [ebind] in H. apply IH in H; [assumption|].
    destruct block_data as [|atom atoms]; [assumption|].
    apply Forall_app. split; [assumption|].
    constructor; [|constructor]. exists (atom :: atoms). split; [discriminate|reflexivity].
Qed.

(** C10: [extract_data_from_log] passes over a table line with fewer than
    six fields, adds no block for a table that gave no atom record, and so
    writes only blocks whose count line is the number, never 0, of their
    atom lines. *)
Theorem trajectory_blocks_nonempty :
  (forall (line : string) (rest block_data : list string),
     startswith (strip line) "-" = false ->
     (length (split line) < 6)%nat ->
     read_orientation (line :: rest) block_data
       = read_orientation rest block_data) /\
  (forall (line : string) (rest all_blocks : list string),
     contains "Standard orientation:" line = true ->
     read_orientation (drop 4 rest) [] = inr [] ->
     orientation_blocks (line :: rest) all_blocks
       = orientation_blocks rest all_blocks) /\
  (forall (lines : list string) (trace : list event),
     extract_data_from_log lines = (trace, inr tt) ->
     exists all_blocks : list string,
       trace = [Wrote Trajectory
                  (concat (map (fun block => block +:+ LF) all_blocks))] /\
       Forall (fun block =>
                 exists atoms : list string,
                   (0 < length atoms)%nat /\
                   block = str_of_int (Z.of_nat (length atoms)) +:+ LF +:+ LF
                           +:+ join LF atoms /\
                   str_of_int (Z.of_nat (length atoms)) <> "0")
              all_blocks).
Proof.
  split; [exact read_orientation_short|].
  split; [exact orientation_blocks_empty_table|].
  intros lines trace H.
  apply extract_data_from_log_inv in H
    as [(e & _ & _ & ?) | (all_blocks & Hb & -> & _)]; [discriminate|].
  exists all_blocks. split; [reflexivity|].
  apply orientation_blocks_rendered in Hb; [|constructor].
  eapply Forall_impl; [exact Hb|].
  intros block (atoms & Hne & ->).
  assert (0 < length atoms)%nat by (destruct atoms; [congruence | simpl; lia]).
  exists atoms. split; [assumption|]. split; [reflexivity|].
  now apply str_of_int_positive.
Qed.

(** ** The line that [update_scan_bond] rewrites *)

Lemma insert_middle {A} (pre post : list A) (x y : A) :
  <[length pre := x]> (pre ++ y :: post) = pre ++ x :: post.
Proof. induction pre as [|a pre IH]; simpl; [reflexivity | now rewrite IH]. Qed.

(** The loop rewrites the first selected line, wherever it stands. *)
Lemma update_scan_bond_loop_first (p : params) (bond line name token : string)
    (lines pre post : list string) (i : nat) :
  Forall (fun l => selected bond l = false) pre ->
  startswith (strip line) bond = true ->
  split line = [name; token] ->
  update_scan_bond_loop float_repr p bond lines (pre ++ line :: post) i
    = update_scan_bond_loop float_repr p bond lines (line :: post) (i + length pre).
Proof.
  intros Hpre Hs Hp. revert i.
  induction Hpre as [|l pre Hl _ IH]; intros i.
  - simpl. now rewrite Nat.add_0_r.
  - cbn [app length]. rewrite update_scan_bond_loop_skip by assumption.
    rewrite IH. f_equal. lia.
Qed.

(** C6 (as amended): with the bond B4, the lower bound 0.7, the upper bound
    1.75 and 105 steps, a deck whose first selected line gives the
    equilibrium distance 1.40000000 makes [update_scan_bond] compute the
    floats 1.4 * 0.7 = 0.9799999999999999 (minimum), 1.4 * 1.75 =
    2.4499999999999997 (maximum) and their difference over 105,
    0.013999999999999997 (step size), and replace that line by
    " B4   0.98000000   105   " followed by that step size as Python prints
    it. *)
Theorem scan_directive_example
    (p : params) (pre post : list string) (line name : string) :
  scan_bond p = "B4" ->
  lower_bound p = PyFloat 0.7 ->
  upper_bound p = PyFloat 1.75 ->
  scan_step_number p = PyInt 105 ->
  Forall (fun l => selected "B4" l = false) pre ->
  startswith (strip line) "B4" = true ->
  split line = [name; "1.40000000"] ->
  float_of_str "1.40000000" = Some 1.4%float /\
  float_mul 1.4 (lower_bound p) = inr 0.9799999999999999%float /\
  float_mul 1.4 (upper_bound p) = inr 2.4499999999999997%float /\
  float_div (2.4499999999999997 - 0.9799999999999999) (scan_step_number p)
    = inr 0.013999999999999997%float /\
  update_scan_bond_loop float_repr p (scan_bond p)
      (pre ++ line :: post) (pre ++ line :: post) 0
    = inr ({| minimum_dist := Some 0.9799999999999999%float;
              step_size := Some 0.013999999999999997%float |},
           pre ++ (" B4   0.98000000   105   "
                   +:+ float_repr 0.013999999999999997 +:+ LF) :: post).
Proof.
  intros Hbond Hlow Hup Hsteps Hpre Hs Hp.
  assert (Hx : float_of_str "1.40000000" = Some 1.4%float) by (vm_compute; reflexivity).
  assert (Hm : float_mul 1.4 (PyFloat 0.7) = inr 0.9799999999999999%float)
    by (vm_compute; reflexivity).
  assert (Hmx : float_mul 1.4 (PyFloat 1.75) = inr 2.4499999999999997%float)
    by (vm_compute; reflexivity).
  assert (Hd : float_div (2.4499999999999997 - 0.9799999999999999) (PyInt 105)
               = inr 0.013999999999999997%float) by (vm_compute; reflexivity).
  assert (Hf : format_8f 0.9799999999999999 = "0.98000000") by (vm_compute; reflexivity).
  rewrite Hbond, Hlow, Hup, Hsteps.
  repeat (split; [assumption|]).
  rewrite (update_scan_bond_loop_first p "B4" line name "1.40000000"
             _ pre post 0 Hpre Hs Hp).
  rewrite (update_scan_bond_loop_selected p "B4" line name "1.40000000"
             _ post _ Hs Hp).
  rewrite Hx, Hlow, Hup, Hsteps. cbn [ebind].
  rewrite Hm. cbn [ebind]. rewrite Hmx. cbn [ebind]. rewrite Hd. cbn [ebind].
  cbn [int_of_pyval ebind]. rewrite Hf. f_equal. f_equal.
  change (0 + length pre)%nat with (length pre). apply insert_middle.
Qed.

End Facts.

(** C4, counterexample: the last non-blank line of this log begins with the
    marker, yet the check raises the engine-failure error, because the last
    line is blank. *)
Lemma termination_check_trailing_blank_line :
  last_nonblank_line_has_marker
    ["Normal termination of Gaussian 16." +:+ LF; LF] = true /\
  check_termination Scan ["Normal termination of Gaussian 16." +:+ LF; LF]
    = ([], inl (RuntimeError "Error: Bond scan didn't terminate properly.")).
Proof. split; reflexivity. Qed.

(** C4, witness: a run whose optimisation log has a blank line after the
    marker line. *)
Lemma termination_check_last_line_witness :
  let run := notebook float_str Sample.g16_trailing_blank Sample.p
               Sample.geom_text Sample.basis_text in
  let deck := concat (header_opt Sample.p
                      ++ read_geometry_block (readlines Sample.geom_text)
                      ++ read_basis_set (readlines Sample.basis_text)) in
  let log := " Normal termination of Gaussian 16." +:+ LF +:+ LF in
  ((exists init line, readlines log = init ++ [line] /\
      startswith (strip line) "Normal termination" = true)
   <-> In (Printed (stage_done Opt)) run.1) /\
  (~ (exists init line, readlines log = init ++ [line] /\
        startswith (strip line) "Normal termination" = true) ->
   run.2 = inl (RuntimeError (stage_failed Opt)) /\
   exists before, run.1 = before ++ [EngineRun Opt deck]).
Proof.
  cbv zeta.
  apply (termination_check_last_line float_str Sample.g16_trailing_blank
           Sample.p Sample.geom_text Sample.basis_text).
  - apply surjective_pairing.
  - vm_compute. right. left. reflexivity.
  - reflexivity.
Defined.

(** C1, counterexample: the sample run reaches its end; the directive line
    of the deck written shows the minimum as 0.98000000, which is the float
    0.98, while row 0 of the energy file carries the minimum itself,
    0.9799999999999999, another float. *)
Lemma scan_parameters_deck_line_rounded :
  (notebook float_str Sample.g16 Sample.p Sample.geom_text Sample.basis_text).2
    = inr tt /\
  (exists deck_before deck_after : list string,
     In (Wrote ScanDeck
           (concat (deck_before
                    ++ [ " B4   0.98000000   105   0.013999999999999997" +:+ LF ]
                    ++ deck_after)))
        (notebook float_str Sample.g16 Sample.p
           Sample.geom_text Sample.basis_text).1) /\
  In (Wrote EnergyFile
        ("0.9799999999999999 -2727.523717847464" +:+ LF
         +:+ "0.9939999999999999 -2726.5830768906" +:+ LF))
     (notebook float_str Sample.g16 Sample.p
        Sample.geom_text Sample.basis_text).1 /\
  float_of_str "0.98000000" = Some 0.98%float /\
  float_of_str "0.9799999999999999" = Some 0.9799999999999999%float /\
  PrimFloat.eqb 0.98 0.9799999999999999 = false.
Proof.
  split; [reflexivity|].
  split.
  - exists (header_scan Sample.p
            ++ [ "0 1" +:+ LF; " H" +:+ LF; " F   1   B1" +:+ LF;
                 " H   2   B4   1   A1" +:+ LF; LF; " B1   0.93" +:+ LF ]),
           ([ " A1   104.5" +:+ LF ] ++ read_basis_set Sample.basis_lines).
    vm_compute. do 4 right. left. reflexivity.
  - split; [vm_compute; do 9 right; left; reflexivity|].
    repeat split.
Qed.

(** C1, witness: the sample run reaches its end. *)
Lemma scan_parameters_label_energies_witness :
  let trace := (notebook float_str Sample.g16 Sample.p
                  Sample.geom_text Sample.basis_text).1 in
  exists (m s : float) (n : Z) (scan_deck : string) (deck : list string)
         (k : nat) (scan_log : string) (rows : list string),
    In (Wrote ScanDeck scan_deck) trace /\
    update_scan_bond_loop float_str Sample.p (scan_bond Sample.p)
        (readlines scan_deck) (readlines scan_deck) 0
      = inr ({| minimum_dist := Some m; step_size := Some s |}, deck) /\
    scan_step_number Sample.p = PyInt n /\
    deck !! k = Some (" " +:+ scan_bond Sample.p +:+ "   " +:+ format_8f m +:+ "   "
                      +:+ str_of_int n +:+ "   " +:+ float_str s +:+ LF) /\
    (forall j, j <> k -> deck !! j = readlines scan_deck !! j) /\
    In (Wrote ScanDeck (concat deck)) trace /\
    In (EngineRun Scan (concat deck)) trace /\
    Sample.g16 Scan (concat deck) = Some scan_log /\
    In (Wrote EnergyFile (concat rows)) trace /\
    length rows = Nat.min (Z.to_nat (n + 1))
                    (length (omap energy_of (readlines scan_log))) /\
    forall (i : nat) (e : float),
      omap energy_of (readlines scan_log) !! i = Some e -> Z.of_nat i <= n ->
      exists fi, float_of_int (Z.of_nat i) = Some fi /\
        rows !! i = Some (float_str (m + fi * s)%float +:+ " "
                          +:+ float_str e +:+ LF).
Proof.
  cbv zeta.
  apply (scan_parameters_label_energies float_str Sample.g16 Sample.p
           Sample.geom_text Sample.basis_text).
  vm_compute. reflexivity.
Defined.

(** C2, counterexample: with one energy and N = 1 the file has one row, not
    N + 1 = 2, whatever the rendering of floats. *)
Lemma energy_file_short :
  write_energies_to_file float_str [(-2727.5)%float]
      (Some 0.98%float) (Some 0.014%float) (PyInt 1)
    = ([Wrote EnergyFile ("0.98 -2727.5" +:+ LF)], inr tt) /\
  length (readlines ("0.98 -2727.5" +:+ LF)) = 1%nat /\
  Z.to_nat (1 + 1) = 2%nat.
Proof. repeat split. Qed.

(** C2, witness: two energies and N = 1. *)
Lemma energy_file_rows_witness :
  exists rows : list string,
    write_energies_to_file float_str [(-2727.5)%float; (-2726.5)%float]
        (Some 0.98%float) (Some 0.014%float) (PyInt 1)
      = ([Wrote EnergyFile (concat rows)], inr tt) /\
    length rows = Nat.min (Z.to_nat (1 + 1)) 2 /\
    forall (i : nat) (e : float),
      [(-2727.5)%float; (-2726.5)%float] !! i = Some e -> Z.of_nat i <= 1 ->
      exists fi, float_of_int (Z.of_nat i) = Some fi /\
        rows !! i = Some (energy_line float_str (0.98 + fi * 0.014)%float e).
Proof.
  apply (energy_file_rows float_str [(-2727.5)%float; (-2726.5)%float]
           0.98%float 0.014%float 1).
  reflexivity.
Defined.

(** C3: a deck in which the line of B10 stands before the line of B1.  The
    cell that checks the geometry file accepts the bond B1 by its own line,
    and [update_scan_bond] rewrites the line of B10, from the distance 0.92
    of B10; in a run of the notebook on such a geometry the engine gets a
    scan deck with two lines for B1 and none for B10. *)
Lemma update_scan_bond_rewrites_longer_name :
  check_scan_bond "B1" Sample.geom_B10_lines = inr tt /\
  update_scan_bond float_str Sample.p_B1 Sample.deck_B10_first "B1"
    = ([Wrote ScanDeck
          (concat
             [ " H" +:+ LF; " F   1   B10" +:+ LF; " H   2   B1   1   A1" +:+ LF;
               LF; " B1   0.64400000   105   0.009200000000000002" +:+ LF;
               " B1   1.40000000" +:+ LF; " A1   104.5" +:+ LF ])],
       inr ({| minimum_dist := Some 0.644%float;
               step_size := Some 0.009200000000000002%float |},
            [ " H" +:+ LF; " F   1   B10" +:+ LF; " H   2   B1   1   A1" +:+ LF;
              LF; " B1   0.64400000   105   0.009200000000000002" +:+ LF;
              " B1   1.40000000" +:+ LF; " A1   104.5" +:+ LF ])) /\
  In (EngineRun Scan
        (concat
           (header_scan Sample.p_B1
            ++ [ "0 1" +:+ LF; " H" +:+ LF; " F   1   B10" +:+ LF;
                 " H   2   B1   1   A1" +:+ LF; LF;
                 " B1   0.64400000   105   0.009200000000000002" +:+ LF;
                 " B1   1.40000000" +:+ LF; " A1   104.5" +:+ LF ]
            ++ read_basis_set Sample.basis_lines)))
     (notebook float_str Sample.g16_B10 Sample.p_B1
        (concat Sample.geom_B10_lines) Sample.basis_text).1.
Proof.
  split; [vm_compute; reflexivity|].
  split; [vm_compute; reflexivity|].
  vm_compute. do 5 right. left. reflexivity.
Qed.

(** C5, counterexample: a copied line with "Variables" but without the colon
    is not replaced by a blank line. *)
Lemma extract_optimized_structure_variables_without_colon :
  contains "Variables" (" Variables" +:+ LF) = true /\
  extract_optimized_structure
    [ " Final structure in terms of initial Z-matrix:" +:+ LF; " H" +:+ LF;
      " F,1,B1" +:+ LF; " Variables" +:+ LF; " B1=0.93" +:+ LF;
      " 1\1\GINC-NODE" +:+ LF ]
    = inr [ " H" +:+ LF; " F   1   B1" +:+ LF; " Variables" +:+ LF;
            " B1   0.93" +:+ LF ].
Proof. split; reflexivity. Qed.

(** C5, witness: the sample optimisation log, and a run whose log has no
    final structure. *)
Lemma extract_optimized_structure_spec_witness :
  extract_optimized_structure Sample.opt_log_lines
    = inr [ " H" +:+ LF; " F   1   B1" +:+ LF; " H   2   B4   1   A1" +:+ LF; LF;
            " B1   0.93" +:+ LF; " B4   1.40000000" +:+ LF; " A1   104.5" +:+ LF ] /\
  (notebook float_str Sample.g16_no_structure Sample.p
     Sample.geom_text Sample.basis_text).2 = inl structure_not_found.
Proof.
  destruct (extract_optimized_structure_spec float_str Sample.g16_no_structure)
    as (Hpresent & _ & Hrun).
  split.
  - apply (Hpresent [" Optimization completed." +:+ LF]
             (skipn 2 Sample.opt_log_lines)
             (" Final structure in terms of initial Z-matrix:" +:+ LF)).
    + repeat constructor.
    + reflexivity.
  - rewrite (Hrun Sample.p Sample.geom_text Sample.basis_text
               (" Normal termination of Gaussian 16." +:+ LF)).
    + reflexivity.
    + reflexivity.
    + reflexivity.
    + reflexivity.
    + repeat constructor.
Defined.

(** C6, counterexample: the floats computed are not 0.98, 2.45 and 0.014,
    and the step size is printed as 0.013999999999999997. *)
Lemma scan_directive_example_floats :
  update_scan_bond_loop float_str Sample.p "B4"
      ["   B4   1.40000000" +:+ LF] ["   B4   1.40000000" +:+ LF] 0
    = inr ({| minimum_dist := Some 0.9799999999999999%float;
              step_size := Some 0.013999999999999997%float |},
           [" B4   0.98000000   105   0.013999999999999997" +:+ LF]) /\
  float_mul 1.4 (PyFloat 1.75) = inr 2.4499999999999997%float /\
  PrimFloat.eqb 0.9799999999999999 0.98 = false /\
  PrimFloat.eqb 2.4499999999999997 2.45 = false /\
  PrimFloat.eqb 0.013999999999999997 0.014 = false.
Proof. repeat split; vm_compute; reflexivity. Qed.

(** C6, witness: the variable line of B4 in a deck of three lines. *)
Lemma scan_directive_example_witness :
  float_of_str "1.40000000" = Some 1.4%float /\
  float_mul 1.4 (lower_bound Sample.p) = inr 0.9799999999999999%float /\
  float_mul 1.4 (upper_bound Sample.p) = inr 2.4499999999999997%float /\
  float_div (2.4499999999999997 - 0.9799999999999999) (scan_step_number Sample.p)
    = inr 0.013999999999999997%float /\
  update_scan_bond_loop float_str Sample.p (scan_bond Sample.p)
      ([" B1   0.93" +:+ LF] ++ (" B4   1.40000000" +:+ LF) :: [" A1   104.5" +:+ LF])
      ([" B1   0.93" +:+ LF] ++ (" B4   1.40000000" +:+ LF) :: [" A1   104.5" +:+ LF]) 0
    = inr ({| minimum_dist := Some 0.9799999999999999%float;
              step_size := Some 0.013999999999999997%float |},
           [" B1   0.93" +:+ LF]
           ++ (" B4   0.98000000   105   "
               +:+ float_str 0.013999999999999997 +:+ LF) :: [" A1   104.5" +:+ LF]).
Proof.
  apply (scan_directive_example float_str Sample.p [" B1   0.93" +:+ LF]
           [" A1   104.5" +:+ LF] (" B4   1.40000000" +:+ LF) "B4");
    try reflexivity.
  repeat constructor.
Defined.

(** C8, counterexample: a line with the label whose payload is the row of
    stars that the engine prints for a number too wide for its field;
    [float] rejects that text, the pattern does not match the line, and
    the line is passed over with nothing printed. *)
Lemma extract_energies_unmatched_silent :
  contains "EUMP2" (" E2 =    -0.2D+00 EUMP2 =    ********" +:+ LF) = true /\
  float_of_str "********" = None /\
  extract_energies [ " E2 =    -0.2D+00 EUMP2 =    ********" +:+ LF ]
    = ([], inr []).
Proof. repeat split. Qed.

(** C8, witness: the second energy line of the sample scan log. *)
Lemma extract_energies_skips_unparsed_witness :
  let line := " E2 =    -0.2D+00 EUMP2 =    1.2.3+5" +:+ LF in
  let before := take 10 Sample.scan_log_lines in
  let after := drop 11 Sample.scan_log_lines in
  extract_energies (before ++ line :: after)
    = ((extract_energies before).1
         ++ [Printed ("Error converting energy: 1.2.3+5"
                      +:+ " - could not convert string to float: '1.2.3+5'")]
         ++ (extract_energies after).1,
       inr (omap energy_of before ++ omap energy_of after)) /\
  (extract_energies before).2 = inr (omap energy_of before) /\
  (extract_energies after).2 = inr (omap energy_of after) /\
  (forall lines : list string,
     (extract_energies lines).2 = inr (omap energy_of lines)) /\
  forall (l : string) (energy_eV : float),
    energy_of l = Some energy_eV <->
    contains "EUMP2" l = true /\
    exists (group1 : string) (x : float),
      Re.search_group energy_prefix energy_group l = Some group1 /\
      float_of_str (replace "D" "E" group1) = Some x /\
      energy_eV = (x * 27.211407953)%float.
Proof.
  cbv zeta.
  apply (extract_energies_skips_unparsed
           (take 10 Sample.scan_log_lines) (drop 11 Sample.scan_log_lines)
           (" E2 =    -0.2D+00 EUMP2 =    1.2.3+5" +:+ LF));
    vm_compute; reflexivity.
Defined.


(** C10, witness: a table whose second line has five fields, and the
    trajectory of the sample scan log. *)
Lemma trajectory_blocks_nonempty_witness :
  read_orientation
    [ "      1          1           0        0.000000    0.000000    0.100000" +:+ LF;
      "      2          9           0        0.000000    0.000000" +:+ LF ] []
    = inr ["H 0.000000 0.000000 0.100000"] /\
  exists all_blocks : list string,
    (extract_data_from_log Sample.scan_log_lines).1
      = [Wrote Trajectory (concat (map (fun block => block +:+ LF) all_blocks))] /\
    Forall (fun block =>
              exists atoms : list string,
                (0 < length atoms)%nat /\
                block = str_of_int (Z.of_nat (length atoms)) +:+ LF +:+ LF
                        +:+ join LF atoms /\
                str_of_int (Z.of_nat (length atoms)) <> "0")
           all_blocks.
Proof.
  destruct trajectory_blocks_nonempty as (Hshort & _ & Hblocks).
  split.
  - change (read_orientation
              [ "      1          1           0        0.000000    0.000000    0.100000" +:+ LF;
                "      2          9           0        0.000000    0.000000" +:+ LF ] [])
      with (read_orientation
              [ "      2          9           0        0.000000    0.000000" +:+ LF ]
              ["H 0.000000 0.000000 0.100000"]).
    rewrite Hshort; [reflexivity | reflexivity | vm_compute; lia].
  - apply (Hblocks Sample.scan_log_lines). vm_compute. reflexivity.
Defined.

(** * Further properties of the cells *)

Import Text.

(** ** Fields and prefixes *)

Section Strings.

Lemma str_app_cons (c : ascii) (s t : string) :
  String c s +:+ t = String c (s +:+ t).
Proof. reflexivity. Qed.

Lemma str_app_nil_l (s : string) : "" +:+ s = s.
Proof. reflexivity. Qed.

Lemma str_app_nil_r (s : string) : s +:+ "" = s.
Proof. induction s as [|c s IH]; [reflexivity|]. now rewrite str_app_cons, IH. Qed.

Lemma str_app_assoc (a b c : string) : (a +:+ b) +:+ c = a +:+ (b +:+ c).
Proof. induction a as [|x a IH]; [reflexivity|]. now rewrite !str_app_cons, IH. Qed.

Lemma all_chars_app (p : ascii -> bool) (a b : string) :
  all_chars p (a +:+ b) = all_chars p a && all_chars p b.
Proof.
  induction a as [|c a IH]; [reflexivity|].
  rewrite str_app_cons. simpl. now rewrite IH, andb_assoc.
Qed.

Lemma str_prefix_nil (s : string) : String.prefix "" s = true.
Proof. now destruct s. Qed.

Lemma str_prefix_cons (c d : ascii) (p s : string) :
  String.prefix (String c p) (String d s)
    = if ascii_dec c d then String.prefix p s else false.
Proof. reflexivity. Qed.

Lemma all_chars_impl (p q : ascii -> bool) (s : string) :
  (forall c, p c = true -> q c = true) ->
  all_chars p s = true -> all_chars q s = true.
Proof.
  intros Hpq. induction s as [|c s IH]; [reflexivity|].
  cbn [all_chars]. intros [Hc Hs]%andb_true_iff.
  now rewrite (Hpq c Hc), IH.
Qed.

(** [p] is a prefix of [s] exactly when [s] is [p] followed by something. *)
Lemma str_prefix_app_iff (p s : string) :
  String.prefix p s = true <-> exists r, s = p +:+ r.
Proof.
  revert s. induction p as [|c p IH]; intros s.
  - rewrite str_prefix_nil. split; [intros _; exists s; reflexivity | reflexivity].
  - destruct s as [|d s].
    + split; [discriminate | intros [r Hr]; discriminate].
    + rewrite str_prefix_cons. destruct (ascii_dec c d) as [->|Hne].
      * rewrite IH. split; intros [r Hr]; exists r.
        -- now rewrite Hr.
        -- now injection Hr.
      * split; [discriminate | intros [r Hr]; injection Hr; congruence].
Qed.

(** The first characters decide. *)
Lemma str_prefix_app_short (p a b : string) :
  (String.length p <= String.length a)%nat ->
  String.prefix p (a +:+ b) = String.prefix p a.
Proof.
  revert a. induction p as [|c p IH]; intros a Hlen; [now rewrite !str_prefix_nil|].
  destruct a as [|d a]; [simpl in Hlen; lia|].
  rewrite str_app_cons, !str_prefix_cons. simpl in Hlen.
  destruct (ascii_dec c d); [apply IH; lia | reflexivity].
Qed.

Lemma str_prefix_app_l (p a b : string) :
  String.prefix p a = true -> String.prefix p (a +:+ b) = true.
Proof.
  rewrite !str_prefix_app_iff. intros [r ->]. exists (r +:+ b). apply str_app_assoc.
Qed.

Lemma split_space (c : ascii) (s : string) :
  isspace c = true -> split (String c s) = split s.
Proof. intros H. simpl. now rewrite H. Qed.

Lemma split_all_space (w : string) (s : string) :
  all_space w = true -> split (w +:+ s) = split s.
Proof.
  induction w as [|c w IH]; [reflexivity|].
  unfold all_space. simpl. intros [Hc Hw]%andb_true_iff.
  rewrite Hc. now apply IH.
Qed.

Lemma at_gap_cases (s : string) :
  at_gap s <-> s = "" \/ exists c s', s = String c s' /\ isspace c = true.
Proof.
  unfold at_gap. destruct s as [|c s']; simpl.
  - split; auto.
  - rewrite negb_false_iff. split.
    + intros H. right. eauto.
    + intros [?|(c' & s'' & [= <- <-] & H)]; [discriminate | assumption].
Qed.

Lemma is_token_cons (c : ascii) (t : string) :
  is_token (String c t) = negb (isspace c) && no_space t.
Proof. reflexivity. Qed.

(** A field followed by a gap is the first field. *)
Lemma split_token (t s : string) :
  is_token t = true -> at_gap s -> split (t +:+ s) = t :: split s.
Proof.
  intros Ht Hs. induction t as [|c t IH]; [discriminate|].
  rewrite is_token_cons in Ht. apply andb_true_iff in Ht as [Hc Ht].
  apply negb_true_iff in Hc. rewrite str_app_cons. cbn [split]. rewrite Hc.
  destruct t as [|d t].
  - rewrite str_app_nil_l. unfold at_gap in Hs. rewrite Hs. reflexivity.
  - assert (Hd : is_token (String d t) = true) by exact Ht.
    rewrite (IH Hd). rewrite str_app_cons. cbn [starts_token].
    rewrite is_token_cons in Hd. apply andb_true_iff in Hd as [Hd _].
    now rewrite Hd.
Qed.

(** Every field of [split] is one. *)
Lemma split_fields (s : string) : Forall (fun t => is_token t = true) (split s).
Proof.
  induction s as [|c s IH]; [constructor|].
  cbn [split]. destruct (isspace c) eqn:Hc; [assumption|].
  destruct (starts_token s) eqn:Hs.
  - destruct (split s) as [|t ts].
    + repeat constructor. rewrite is_token_cons, Hc. reflexivity.
    + inversion IH as [|? ? Ht Hts]; subst. constructor; [|assumption].
      rewrite is_token_cons, Hc. simpl.
      unfold is_token in Ht. now apply andb_true_iff in Ht as [_ ?].
  - constructor; [|assumption]. rewrite is_token_cons, Hc. reflexivity.
Qed.

(** The text from the first field on. *)
Lemma split_head (s t : string) (ts : list string) :
  split s = t :: ts ->
  exists r, lstrip s = t +:+ r /\ at_gap r /\ split r = ts.
Proof.
  revert t ts. induction s as [|c s IH]; intros t ts; [discriminate|].
  cbn [split lstrip]. destruct (isspace c) eqn:Hc; [apply IH|].
  destruct (starts_token s) eqn:Hs.
  - destruct (split s) as [|t' ts'] eqn:Hsp.
    + destruct s as [|d s]; [discriminate|]. simpl in Hs.
      apply negb_true_iff in Hs. cbn [split] in Hsp. rewrite Hs in Hsp.
      destruct (starts_token s); [destruct (split s)|]; discriminate.
    + intros [= <- <-].
      destruct (IH _ _ eq_refl) as (r & Hl & Hr & Hts).
      exists r. split; [|auto].
      destruct s as [|d s]; [discriminate|]. simpl in Hs.
      apply negb_true_iff in Hs. cbn [lstrip] in Hl. rewrite Hs in Hl.
      rewrite str_app_cons. now rewrite <- Hl.
  - intros [= <- <-]. exists s. auto.
Qed.

Lemma split_lstrip (s : string) : split (lstrip s) = split s.
Proof.
  induction s as [|c s IH]; [reflexivity|].
  cbn [lstrip]. destruct (isspace c) eqn:Hc; [|reflexivity].
  rewrite IH. symmetry. now apply split_space.
Qed.

Lemma rstrip_cons (c : ascii) (s : string) :
  rstrip (String c s) = String c (rstrip s) \/
  (rstrip (String c s) = "" /\ rstrip s = "" /\ isspace c = true).
Proof.
  cbn [rstrip]. destruct (rstrip s) as [|d r]; [|left; reflexivity].
  destruct (isspace c); [right; auto | left; reflexivity].
Qed.

(** After a field, [rstrip] works on the rest. *)
Lemma rstrip_token (t r : string) :
  is_token t = true -> rstrip (t +:+ r) = t +:+ rstrip r.
Proof.
  intros Ht. induction t as [|c t IH]; [discriminate|].
  rewrite is_token_cons in Ht. apply andb_true_iff in Ht as [Hc Ht].
  apply negb_true_iff in Hc. rewrite !str_app_cons.
  destruct (rstrip_cons c (t +:+ r)) as [Hr|(_ & _ & Hsp)]; [|congruence].
  rewrite Hr. f_equal. destruct t as [|d t]; [reflexivity|]. now apply IH.
Qed.

Lemma split_rstrip (s : string) : split (rstrip s) = split s.
Proof.
  induction s as [|c s IH]; [reflexivity|].
  destruct (rstrip_cons c s) as [Hr|(Hr & Hs & Hc)]; rewrite Hr.
  - cbn [split]. destruct (isspace c); [assumption|].
    rewrite IH.
    assert (Hst : starts_token (rstrip s) = starts_token s).
    { destruct s as [|d s]; [reflexivity|].
      destruct (rstrip_cons d s) as [Hr'|(Hr' & _ & Hd)]; rewrite Hr'.
      - reflexivity.
      - simpl. now rewrite Hd. }
    now rewrite Hst.
  - cbn [split]. rewrite Hc. now rewrite <- IH, Hs.
Qed.

Lemma split_strip (s : string) : split (strip s) = split s.
Proof. unfold strip. now rewrite split_rstrip, split_lstrip. Qed.

(** The stripped text begins with the first field, and a gap follows. *)
Lemma strip_head (s t : string) (ts : list string) :
  split s = t :: ts ->
  exists r, strip s = t +:+ r /\ at_gap r.
Proof.
  intros Hs. destruct (split_head _ _ _ Hs) as (r & Hl & Hr & _).
  pose proof (split_fields s) as Hf. rewrite Hs in Hf.
  inversion Hf as [|? ? Ht _]; subst.
  exists (rstrip r). unfold strip. rewrite Hl.
  split; [now apply rstrip_token|].
  apply at_gap_cases in Hr as [->|(c & s' & -> & Hc)]; [reflexivity|].
  destruct (rstrip_cons c s') as [->|(-> & _)]; [|reflexivity].
  unfold at_gap. simpl. now rewrite Hc.
Qed.

Lemma strip_nil (s : string) : split s = [] -> strip s = "".
Proof.
  intros Hs. rewrite <- split_strip in Hs. unfold strip in *.
  induction s as [|c s IH]; [reflexivity|].
  cbn [lstrip] in *. destruct (isspace c) eqn:Hc; [now apply IH|].
  destruct (rstrip_cons c s) as [Hr|(_ & _ & ?)]; [|congruence].
  rewrite Hr in Hs. cbn [split] in Hs. rewrite Hc in Hs.
  destruct (starts_token (rstrip s)); [destruct (split (rstrip s))|]; discriminate.
Qed.

(** A prefix without whitespace of a field followed by a gap is a prefix
    of the field. *)
Lemma str_prefix_token (b t r : string) :
  no_space b = true -> at_gap r ->
  String.prefix b (t +:+ r) = String.prefix b t.
Proof.
  intros Hb Hr. revert b Hb. induction t as [|c t IH]; intros b Hb.
  - rewrite str_app_nil_l. destruct b as [|x b]; [now rewrite !str_prefix_nil|].
    unfold no_space in Hb. simpl in Hb. apply andb_true_iff in Hb as [Hx _].
    apply at_gap_cases in Hr as [->|(c & s' & -> & Hc)]; [reflexivity|].
    rewrite str_prefix_cons. destruct (ascii_dec x c) as [->|]; [|reflexivity].
    rewrite Hc in Hx. discriminate.
  - destruct b as [|x b]; [now rewrite !str_prefix_nil|].
    rewrite str_app_cons, !str_prefix_cons.
    unfold no_space in Hb. simpl in Hb. apply andb_true_iff in Hb as [_ Hb].
    destruct (ascii_dec x c); [now apply IH | reflexivity].
Qed.

End Strings.

(** ** The lines that the two searches for the bond take *)

Section Selection.

(** A text is in one way only a string without whitespace followed by a
    gap. *)
Lemma token_gap_unique (t1 t2 r1 r2 : string) :
  no_space t1 = true -> no_space t2 = true -> at_gap r1 -> at_gap r2 ->
  t1 +:+ r1 = t2 +:+ r2 -> t1 = t2.
Proof.
  unfold no_space. revert t2.
  induction t1 as [|c t1 IH]; intros [|d t2] H1 H2 Hr1 Hr2 Heq;
    [reflexivity| | |].
  - rewrite str_app_nil_l in Heq. subst r1. rewrite str_app_cons in Hr1.
    simpl in H2. apply andb_true_iff in H2 as [Hd _].
    unfold at_gap in Hr1. simpl in Hr1. rewrite Hr1 in Hd. discriminate.
  - rewrite str_app_nil_l in Heq. subst r2. rewrite str_app_cons in Hr2.
    simpl in H1. apply andb_true_iff in H1 as [Hc _].
    unfold at_gap in Hr2. simpl in Hr2. rewrite Hr2 in Hc. discriminate.
  - rewrite !str_app_cons in Heq. injection Heq as -> Heq.
    simpl in H1, H2. apply andb_true_iff in H1 as [_ H1].
    apply andb_true_iff in H2 as [_ H2]. f_equal. eauto.
Qed.

Lemma two_fields (line : string) :
  length (split line) = 2%nat <-> exists name token, split line = [name; token].
Proof.
  split.
  - destruct (split line) as [|name [|token [|]]]; try discriminate. eauto.
  - intros (name & token & ->). reflexivity.
Qed.

Lemma accepted_fields (bond line : string) :
  no_space bond = true -> accepted bond line = true ->
  exists token, split line = [bond; token].
Proof.
  intros Hb [Hs Hl]%andb_true_iff.
  apply Nat.eqb_eq, two_fields in Hl as (name & token & Hsp).
  exists token. rewrite Hsp. do 2 f_equal.
  destruct (strip_head _ _ _ Hsp) as (r & Hstrip & Hr).
  apply str_prefix_app_iff in Hs as [r' Hr']. rewrite str_app_assoc in Hr'.
  pose proof (split_fields line) as Hf. rewrite Hsp in Hf.
  inversion Hf as [|? ? Hname _]; subst.
  apply andb_true_iff in Hname as [_ Hname].
  symmetry.
  apply (token_gap_unique bond name (" " +:+ r') r);
    [assumption | assumption | reflexivity | assumption | congruence].
Qed.

Lemma accepted_selected (bond line : string) :
  accepted bond line = true -> selected bond line = true.
Proof.
  unfold accepted, selected, startswith.
  intros [Hs ->]%andb_true_iff. rewrite andb_true_r.
  apply str_prefix_app_iff in Hs as [r Hr]. apply str_prefix_app_iff.
  exists (" " +:+ r). now rewrite <- str_app_assoc.
Qed.

End Selection.

Section Cells.
Local Open Scope py_scope.

Variable float_repr : float -> string.
Variable g16 : stage -> string -> option string.

(** ** The check of the geometry file *)

Lemma str_prefix_refl (s : string) : String.prefix s s = true.
Proof. apply str_prefix_app_iff. exists "". now rewrite str_app_nil_r. Qed.

(** A line of two fields is selected for every bond with whose name its
    first field begins. *)
Lemma fields_selected (bond line name token : string) :
  split line = [name; token] -> startswith name bond = true ->
  selected bond line = true.
Proof.
  intros Hsp Hs. unfold selected. rewrite Hsp, andb_true_r.
  destruct (strip_head _ _ _ Hsp) as (r & -> & _).
  now apply str_prefix_app_l.
Qed.

Lemma check_scan_bond_cases (bond : string) (lines : list string) :
  (check_scan_bond bond lines = inr tt /\
   Exists (fun l => accepted bond l = true) lines) \/
  (check_scan_bond bond lines = inl (bond_not_in_geometry bond) /\
   Forall (fun l => accepted bond l = false) lines).
Proof.
  induction lines as [|line rest IH]; [right; split; [reflexivity|constructor]|].
  cbn [check_scan_bond]. destruct (accepted bond line) eqn:Hacc.
  - left. unfold accepted in Hacc. apply andb_true_iff in Hacc as [Hs Hl].
    rewrite Hs, Hl. split; [reflexivity|]. constructor.
    unfold accepted. now rewrite Hs, Hl.
  - assert (Hstep : (if startswith (strip line) (bond +:+ " ")
                     then if (length (split line) =? 2)%nat
                          then inr tt else check_scan_bond bond rest
                     else check_scan_bond bond rest) = check_scan_bond bond rest).
    { unfold accepted in Hacc.
      destruct (startswith (strip line) (bond +:+ " ")); [|reflexivity].
      simpl in Hacc. now rewrite Hacc. }
    rewrite Hstep. destruct IH as [[-> Hex]|[-> Hall]].
    + left. split; [reflexivity|]. now constructor 2.
    + right. split; [reflexivity|]. now constructor.
Qed.

(** X1: when the check of the geometry file passes, the file has a line
    of exactly two fields, the first of them the name of the bond. *)
Theorem check_scan_bond_fields (bond : string) (lines : list string) :
  no_space bond = true ->
  check_scan_bond bond lines = inr tt ->
  exists line token, In line lines /\ split line = [bond; token].
Proof.
  intros Hb Hok.
  destruct (check_scan_bond_cases bond lines) as [[_ Hex]|[Hno _]]; [|congruence].
  apply Exists_exists in Hex as (line & Hin & Hacc).
  destruct (accepted_fields _ _ Hb Hacc) as [token Hsp].
  exists line, token. split; [|assumption]. now apply list_elem_of_In.
Qed.

(** ** [validate_parameters] *)

Lemma SFcompare_antisym (x y : spec_float) :
  SFcompare y x = option_map CompOpp (SFcompare x y).
Proof.
  destruct x as [s1|s1| |s1 m1 e1], y as [s2|s2| |s2 m2 e2]; try reflexivity;
    try (destruct s1; reflexivity); try (destruct s2; reflexivity);
    try (destruct s1, s2; reflexivity).
  cbn [SFcompare option_map]. f_equal.
  destruct s1, s2; try reflexivity;
    rewrite (Z.compare_antisym e1 e2); destruct (e1 ?= e2); try reflexivity;
    cbn [CompOpp]; rewrite (ZC4 m2 m1); reflexivity.
Qed.

Lemma not_nan (f : float) : PrimFloat.is_nan f = false -> Prim2SF f <> S754_nan.
Proof.
  unfold PrimFloat.is_nan. rewrite FloatAxioms.eqb_spec. intros H Hnan. rewrite Hnan in H.
  discriminate.
Qed.

(** For floats other than NaN, [x <= y] fails exactly when [y < x]. *)
Lemma leb_false_ltb (x y : float) :
  PrimFloat.is_nan x = false -> PrimFloat.is_nan y = false ->
  ((x <=? y)%float = false <-> (y <? x)%float = true).
Proof.
  intros Hx%not_nan Hy%not_nan. rewrite FloatAxioms.leb_spec, FloatAxioms.ltb_spec.
  unfold SFleb, SFltb. rewrite (SFcompare_antisym (Prim2SF x) (Prim2SF y)).
  destruct (SFcompare (Prim2SF x) (Prim2SF y)) as [[]|] eqn:Hc;
    cbn [option_map CompOpp]; try (split; congruence).
  destruct (Prim2SF x), (Prim2SF y); try congruence; discriminate.
Qed.

(** The same for a float and the integer 0. *)
Lemma float_le_zero_false (f : float) :
  PrimFloat.is_nan f = false ->
  (float_le_int f 0 = false <-> (0 <? f)%float = true).
Proof.
  intros Hf%not_nan. rewrite FloatAxioms.ltb_spec. unfold float_le_int, SFltb.
  change (Prim2SF 0) with (S754_zero false).
  destruct (Prim2SF f) as [s|s| |s m e]; cbn [SFcompare]; [| |congruence|].
  - split; discriminate.
  - destruct s; split; congruence.
  - destruct s.
    + assert (Hneg : (if 0 <=? e then Z.neg m * 2 ^ e <=? 0
                      else Z.neg m <=? 0 * 2 ^ (- e)) = true).
      { destruct (0 <=? e) eqn:He; apply Z.leb_le; [|lia].
        apply Z.leb_le in He. pose proof (Z.pow_pos_nonneg 2 e). nia. }
      rewrite Hneg. split; discriminate.
    + assert (Hpos : (if 0 <=? e then Z.pos m * 2 ^ e <=? 0
                      else Z.pos m <=? 0 * 2 ^ (- e)) = false).
      { destruct (0 <=? e) eqn:He; apply Z.leb_gt; [|lia].
        apply Z.leb_le in He. pose proof (Z.pow_pos_nonneg 2 e). nia. }
      rewrite Hpos. split; reflexivity.
Qed.

(** X2: for bounds that are floats other than NaN and a step count that
    is an integer, [validate_parameters] raises nothing exactly when both
    bounds are above zero, the lower bound is below the upper bound, and
    the step count is above zero. *)
Theorem validate_parameters_accepts (lo hi : float) (n : Z) :
  PrimFloat.is_nan lo = false -> PrimFloat.is_nan hi = false ->
  (validate_parameters (PyFloat lo) (PyFloat hi) (PyInt n) = inr tt <->
   (0 <? lo)%float = true /\ (0 <? hi)%float = true /\
   (lo <? hi)%float = true /\ 0 < n).
Proof.
  intros Hlo Hhi.
  rewrite <- (float_le_zero_false lo Hlo), <- (float_le_zero_false hi Hhi).
  rewrite <- (leb_false_ltb hi lo Hhi Hlo), <- Z.leb_gt.
  unfold validate_parameters. cbn [le isinstance_int negb orb].
  destruct (float_le_int lo 0); [split; [discriminate | intros [? _]; discriminate]|].
  destruct (float_le_int hi 0);
    [split; [discriminate | intros (_ & ? & _); discriminate]|].
  destruct (hi <=? lo)%float;
    [split; [discriminate | intros (_ & _ & ? & _); discriminate]|].
  destruct (n <=? 0); [split; [discriminate | intros (_ & _ & _ & ?); discriminate]|].
  split; auto.
Qed.

(** ** Numbers as text *)

Lemma uint_digits (u : Decimal.uint) :
  all_chars isdecimal (NilEmpty.string_of_uint u) = true.
Proof. induction u; simpl; auto. Qed.

Lemma is_token_iff (t : string) :
  is_token t = true <-> t <> "" /\ no_space t = true.
Proof.
  unfold is_token. rewrite andb_true_iff, negb_true_iff, String.eqb_neq. tauto.
Qed.

Lemma decimal_not_space (c : ascii) : isdecimal c = true -> isspace c = false.
Proof. destruct c as [[] [] [] [] [] [] [] []]; vm_compute; congruence. Qed.

Lemma digits_no_space (s : string) :
  all_chars isdecimal s = true -> no_space s = true.
Proof.
  apply all_chars_impl. intros c Hc. now rewrite (decimal_not_space c Hc).
Qed.

Lemma string_of_uint_nonempty (u : Decimal.uint) :
  u <> Decimal.Nil -> NilEmpty.string_of_uint u <> "".
Proof. destruct u; simpl; congruence. Qed.

Lemma str_of_int_token (z : Z) : is_token (str_of_int z) = true.
Proof.
  apply is_token_iff. destruct z as [|q|q]; cbn [str_of_int].
  - split; [discriminate | reflexivity].
  - split; [apply string_of_uint_nonempty, Unsigned.to_uint_nonnil|].
    apply digits_no_space, uint_digits.
  - split; [discriminate|]. unfold no_space. cbn [all_chars].
    apply andb_true_iff. split; [reflexivity|].
    apply digits_no_space, uint_digits.
Qed.

Lemma zero_pad_no_space (width : nat) (s : string) :
  no_space s = true -> no_space (zero_pad width s) = true.
Proof.
  intros Hs. induction width as [|w IH]; [assumption|].
  cbn [zero_pad]. destruct (String.length s <? S w)%nat; [|assumption].
  unfold no_space in *. cbn [all_chars]. now rewrite IH.
Qed.

Lemma format_8f_token (x : float) : is_token (format_8f x) = true.
Proof.
  unfold format_8f. destruct (Prim2SF x) as [s|s| |s m e].
  - now destruct s.
  - now destruct s.
  - reflexivity.
  - apply is_token_iff. split.
    + destruct s; [discriminate|]. rewrite str_app_nil_l.
      pose proof (str_of_int_token (scaled_round (Z.pos m) e / 10 ^ 8)) as Ht.
      apply is_token_iff in Ht as [Hne _].
      destruct (str_of_int _); [congruence | discriminate].
    + unfold no_space. rewrite !all_chars_app.
      pose proof (str_of_int_token (scaled_round (Z.pos m) e / 10 ^ 8)) as Hq.
      pose proof (str_of_int_token (scaled_round (Z.pos m) e mod 10 ^ 8)) as Hr.
      apply is_token_iff in Hq as [_ Hq]. apply is_token_iff in Hr as [_ Hr].
      apply (zero_pad_no_space 8) in Hr. unfold no_space in Hq, Hr.
      rewrite Hq, Hr. now destruct s.
Qed.

Lemma no_space_no_break (s : string) : no_space s = true -> no_break s = true.
Proof.
  apply all_chars_impl. intros c Hc.
  destruct (Ascii.eqb_spec c "010") as [->|_]; [discriminate|].
  destruct (Ascii.eqb_spec c "013") as [->|_]; [discriminate|]. reflexivity.
Qed.

Lemma token_no_break (t : string) : is_token t = true -> no_break t = true.
Proof. intros [_ Ht]%andb_true_iff. now apply no_space_no_break. Qed.

Lemma str_of_int_no_break (n : nat) : no_break (str_of_int (Z.of_nat n)) = true.
Proof.
  assert (Hd : all_chars isdecimal (str_of_int (Z.of_nat n)) = true).
  { destruct n as [|n]; [reflexivity|].
    change (Z.of_nat (S n)) with (Zpos (Pos.of_succ_nat n)).
    apply uint_digits. }
  revert Hd. apply all_chars_impl. intros c Hc.
  destruct (Ascii.eqb_spec c "010") as [->|_]; [discriminate|].
  destruct (Ascii.eqb_spec c "013") as [->|_]; [discriminate|]. reflexivity.
Qed.

(** ** [read_geometry_block] *)

Lemma skip_blank_all (pre rest : list string) :
  Forall (fun line => is_blank line = true) pre ->
  skip_blank (pre ++ rest) = skip_blank rest.
Proof.
  induction 1 as [|line pre Hline _ IH]; [reflexivity|].
  simpl. now rewrite Hline.
Qed.

Lemma skip_two_blank_text (text rest : list string) (n : nat) :
  (n < 2)%nat ->
  Forall (fun line => is_blank line = false) text ->
  skip_two_blank (text ++ rest) n = skip_two_blank rest n.
Proof.
  intros Hn. induction 1 as [|line text Hline _ IH]; [reflexivity|].
  apply Nat.ltb_lt in Hn. simpl. now rewrite Hn, Hline.
Qed.

Lemma skip_two_blank_blank (line : string) (rest : list string) (n : nat) :
  (n < 2)%nat -> is_blank line = true ->
  skip_two_blank (line :: rest) n = skip_two_blank rest (S n).
Proof. intros Hn Hline. apply Nat.ltb_lt in Hn. simpl. now rewrite Hn, Hline. Qed.

Lemma skip_two_blank_done (rest : list string) : skip_two_blank rest 2 = rest.
Proof. now destruct rest. Qed.

Lemma read_block_text (text rest : list string) (n : nat) (acc : list string) :
  (n < 2)%nat ->
  Forall (fun line => is_blank line = false) text ->
  read_block (text ++ rest) n acc = read_block rest n (acc ++ text).
Proof.
  intros Hn Htext. revert acc.
  induction Htext as [|line text Hline _ IH]; intros acc.
  - now rewrite app_nil_r.
  - apply Nat.ltb_lt in Hn. simpl. rewrite Hn, Hline, IH, <- app_assoc.
    reflexivity.
Qed.

Lemma read_block_blank (line : string) (rest : list string) (n : nat)
    (acc : list string) :
  (n < 2)%nat -> is_blank line = true ->
  read_block (line :: rest) n acc = read_block rest (S n) (acc ++ [line]).
Proof. intros Hn Hline. apply Nat.ltb_lt in Hn. simpl. now rewrite Hn, Hline. Qed.

Lemma read_block_done (rest acc : list string) : read_block rest 2 acc = acc.
Proof. now destruct rest. Qed.

Lemma pop_blank_snoc_blank (block : list string) (line : string) :
  is_blank line = true -> pop_blank (block ++ [line]) = pop_blank block.
Proof.
  intros Hline. induction block as [|l block IH]; simpl.
  - now rewrite Hline.
  - now rewrite IH.
Qed.

Lemma pop_blank_snoc_text (block : list string) (line : string) :
  is_blank line = false -> pop_blank (block ++ [line]) = block ++ [line].
Proof.
  intros Hline. induction block as [|l block IH]; simpl.
  - now rewrite Hline.
  - rewrite IH. now destruct block.
Qed.

Lemma pop_blank_text (before text : list string) :
  Forall (fun line => is_blank line = false) text -> text <> [] ->
  pop_blank (before ++ text) = before ++ text.
Proof.
  intros Htext Hne. destruct text as [|l text _] using rev_ind; [congruence|].
  apply Forall_app in Htext as [_ Hl]. inversion Hl; subst.
  rewrite app_assoc. now apply pop_blank_snoc_text.
Qed.

Lemma pop_blank_all_text (text : list string) :
  Forall (fun line => is_blank line = false) text -> pop_blank text = text.
Proof.
  intros Htext. destruct text as [|l text]; [reflexivity|].
  now apply (pop_blank_text []).
Qed.

(** X3: the geometry block of a file laid out as Gaussian input is: a first
    section, a blank line, a title section, a blank line, then the molecule
    specification [spec] and, after one blank line, the [variables]. *)
Theorem read_geometry_block_layout
    (leading route title spec variables tail : list string)
    (first_line e1 e2 e3 : string) :
  Forall (fun line => is_blank line = true) leading ->
  is_blank first_line = false ->
  Forall (fun line => is_blank line = false) route ->
  is_blank e1 = true ->
  Forall (fun line => is_blank line = false) title ->
  is_blank e2 = true ->
  Forall (fun line => is_blank line = false) spec ->
  is_blank e3 = true ->
  Forall (fun line => is_blank line = false) variables ->
  (tail = [] \/ exists e4 rest, tail = e4 :: rest /\ is_blank e4 = true) ->
  read_geometry_block
    (leading ++ first_line :: route ++ e1 :: title ++ e2 ::
     spec ++ e3 :: variables ++ tail)
  = match variables with
    | [] => spec
    | _ => spec ++ e3 :: variables
    end.
Proof.
  intros Hlead Hfirst Hroute He1 Htitle He2 Hspec He3 Hvars Htail.
  unfold read_geometry_block.
  rewrite skip_blank_all by assumption. cbn [skip_blank]. rewrite Hfirst.
  cbn [skip_title].
  rewrite skip_two_blank_text, skip_two_blank_blank by (assumption || lia).
  rewrite skip_two_blank_text, skip_two_blank_blank by (assumption || lia).
  rewrite skip_two_blank_done.
  rewrite read_block_text, read_block_blank by (assumption || lia).
  rewrite read_block_text by (assumption || lia).
  cbn [app].
  assert (Hpop : pop_blank ((spec ++ [e3]) ++ variables)
                 = match variables with
                   | [] => spec
                   | _ => spec ++ e3 :: variables
                   end).
  { destruct variables as [|v vs].
    - rewrite app_nil_r, pop_blank_snoc_blank by assumption.
      now apply pop_blank_all_text.
    - rewrite pop_blank_text by (assumption || discriminate).
      now rewrite <- app_assoc. }
  destruct Htail as [->|(e4 & rest & -> & He4)].
  - cbn [read_block]. exact Hpop.
  - rewrite read_block_blank, read_block_done by (assumption || lia).
    rewrite pop_blank_snoc_blank by assumption. exact Hpop.
Qed.

Lemma blank_lines_app (a b : list string) :
  blank_lines (a ++ b) = (blank_lines a + blank_lines b)%nat.
Proof. unfold blank_lines. now rewrite filter_app, length_app. Qed.

Lemma blank_lines_cons (line : string) (rest : list string) :
  blank_lines (line :: rest)
    = ((if is_blank line then 1 else 0) + blank_lines rest)%nat.
Proof.
  unfold blank_lines. destruct (is_blank line) eqn:Hline.
  - now rewrite filter_cons_True.
  - rewrite filter_cons_False; [reflexivity | congruence].
Qed.

(** What the loop that reads the block appends: the lines up to the second
    blank one. *)
Lemma read_block_segment (lines : list string) (n : nat) (acc : list string) :
  (n <= 2)%nat ->
  exists segment rest,
    lines = segment ++ rest /\
    read_block lines n acc = acc ++ segment /\
    (n = 2%nat -> segment = []) /\
    (blank_lines segment <= 2 - n)%nat /\
    ((n < 2)%nat -> blank_lines segment = (2 - n)%nat ->
     exists init line, segment = init ++ [line] /\ is_blank line = true).
Proof.
  revert n acc. induction lines as [|line lines IH]; intros n acc Hn.
  - exists [], [].
    change (blank_lines []) with 0%nat.
    split; [reflexivity|]. split; [now rewrite app_nil_r|]. split; [reflexivity|].
    split; [lia|]. intros ? Hb. lia.
  - cbn [read_block]. destruct (n <? 2)%nat eqn:Hlt.
    + apply Nat.ltb_lt in Hlt.
      destruct (IH (if is_blank line then S n else n) (acc ++ [line]))
        as (segment & rest & -> & Hread & Hdone & Hcount & Hlast).
      { destruct (is_blank line); lia. }
      exists (line :: segment), rest.
      split; [reflexivity|].
      split; [now rewrite Hread, <- app_assoc|].
      split; [lia|].
      rewrite blank_lines_cons.
      destruct (is_blank line) eqn:Hline.
      * split; [lia|]. intros _ Hb.
        destruct (decide (S n = 2%nat)) as [Heq|Hne].
        -- rewrite (Hdone Heq). exists [], line. auto.
        -- destruct Hlast as (init & l & -> & Hl); [lia | lia |].
           exists (line :: init), l. auto.
      * split; [lia|]. intros _ Hb.
        destruct Hlast as (init & l & -> & Hl); [lia | lia |].
        exists (line :: init), l. auto.
    + apply Nat.ltb_ge in Hlt. exists [], (line :: lines).
      change (blank_lines []) with 0%nat.
      split; [reflexivity|]. split; [now rewrite app_nil_r|]. split; [reflexivity|].
      split; lia.
Qed.

Lemma skip_two_blank_suffix (lines : list string) (n : nat) :
  exists pre, lines = pre ++ skip_two_blank lines n.
Proof.
  revert n. induction lines as [|line lines IH]; intros n; [now exists []|].
  cbn [skip_two_blank]. destruct (n <? 2)%nat; [|now exists []].
  destruct (IH (if is_blank line then S n else n)) as [pre Hpre].
  exists (line :: pre). simpl. now rewrite <- Hpre.
Qed.

(** The geometry block is a run of consecutive lines of the file. *)
Lemma read_geometry_block_infix (lines : list string) :
  exists before after, lines = before ++ read_geometry_block lines ++ after.
Proof.
  unfold read_geometry_block.
  destruct (skip_blank_split lines) as [pre1 [H1 _]].
  assert (H2 : exists pre, skip_blank lines = pre ++ skip_title (skip_blank lines)).
  { destruct (skip_blank lines) as [|l ls]; [now exists [] | now exists [l]]. }
  destruct H2 as [pre2 H2].
  destruct (skip_two_blank_suffix (skip_title (skip_blank lines)) 0) as [pre3 H3].
  destruct (read_block_segment
              (skip_two_blank (skip_title (skip_blank lines)) 0) 0 [])
    as (segment & rest & H4 & Hread & _); [lia|].
  rewrite Hread. cbn [app].
  destruct (pop_blank_split segment) as [post [H5 _]].
  exists (pre1 ++ pre2 ++ pre3), (post ++ rest).
  rewrite H1 at 1. rewrite H2 at 1. rewrite H3 at 1. rewrite H4 at 1.
  rewrite H5 at 1. now rewrite <- !app_assoc.
Qed.

(** X4: whatever the file, the geometry block is a run of consecutive lines
    of it, does not end with a blank line, and has at most one blank
    line. *)
Theorem read_geometry_block_shape (lines : list string) :
  (exists before after, lines = before ++ read_geometry_block lines ++ after) /\
  (forall line, last (read_geometry_block lines) = Some line ->
                is_blank line = false) /\
  (blank_lines (read_geometry_block lines) <= 1)%nat.
Proof.
  split; [apply read_geometry_block_infix|].
  unfold read_geometry_block.
  destruct (read_block_segment
              (skip_two_blank (skip_title (skip_blank lines)) 0) 0 [])
    as (segment & rest & H4 & Hread & _ & Hcount & Hlast); [lia|].
  rewrite Hread. cbn [app].
  destruct (pop_blank_split segment) as [post [H5 Hpost]].
  split.
  - intros line Hl. apply last_Some in Hl as [init Hinit].
    pose proof (pop_blank_trailing segment) as Ht.
    unfold trailing_blank in Ht. rewrite Hinit, rev_unit in Ht.
    simpl in Ht. now destruct (is_blank line).
  - assert (Hle : (blank_lines (pop_blank segment) <= blank_lines segment)%nat).
    { rewrite H5 at 2. rewrite blank_lines_app. lia. }
    destruct (decide (blank_lines segment = 2%nat)) as [Htwo|Hne]; [|lia].
    destruct Hlast as (init & l & -> & Hl); [lia | exact Htwo |].
    rewrite pop_blank_snoc_blank by assumption.
    rewrite blank_lines_app, blank_lines_cons, Hl in Htwo. simpl in Htwo.
    assert (Hle' : (blank_lines (pop_blank init) <= blank_lines init)%nat).
    { destruct (pop_blank_split init) as [post' [H6 _]].
      rewrite H6 at 2. rewrite blank_lines_app. lia. }
    lia.
Qed.

(** ** [read_basis_set] *)

Lemma pop_blank_idem (block : list string) :
  pop_blank (pop_blank block) = pop_blank block.
Proof.
  induction block as [|line rest IH]; [reflexivity|].
  cbn [pop_blank]. destruct (pop_blank rest) as [|l r] eqn:Hp.
  - destruct (is_blank line) eqn:Hline; [reflexivity|].
    simpl. now rewrite Hline.
  - cbn [pop_blank]. cbn [pop_blank] in IH. rewrite IH. reflexivity.
Qed.

(** Framing a framed block again gives the same block. *)
Lemma read_basis_set_twice (basisset : list string) :
  read_basis_set (read_basis_set basisset) = read_basis_set basisset.
Proof.
  unfold read_basis_set.
  pose proof (pop_blank_leading _ (skip_blank_leading basisset)) as Hlead.
  set (core := pop_blank (skip_blank basisset)) in *.
  change (LF :: core) with ([LF] ++ core). rewrite <- app_assoc.
  rewrite (skip_blank_all [LF]) by (repeat constructor).
  assert (Hcore : pop_blank (skip_blank (core ++ [LF])) = core).
  { destruct core as [|line rest] eqn:Hc; [reflexivity|].
    assert (Hline : is_blank line = false).
    { simpl in Hlead. now destruct (is_blank line). }
    cbn [app skip_blank]. rewrite Hline.
    change (line :: rest ++ [LF]) with ((line :: rest) ++ [LF]).
    rewrite pop_blank_snoc_blank by reflexivity.
    rewrite <- Hc. apply pop_blank_idem. }
  now rewrite Hcore.
Qed.

(** ** Lines written to a file and read back *)

Lemma concat_lines_cons (line : string) (lines : list string) :
  concat (line :: lines) = line +:+ concat lines.
Proof. reflexivity. Qed.

Lemma concat_lines_app (a b : list string) : concat (a ++ b) = concat a +:+ concat b.
Proof.
  induction a as [|line a IH]; [reflexivity|].
  cbn [app]. now rewrite !concat_lines_cons, IH, str_app_assoc.
Qed.

Lemma universal_newlines_line (line text : string) :
  is_line line = true ->
  universal_newlines (line +:+ text) = line +:+ universal_newlines text.
Proof.
  induction line as [|c line IH]; [discriminate|].
  cbn [is_line]. rewrite str_app_cons. cbn [universal_newlines].
  destruct (Ascii.eqb c "010") eqn:Hlf.
  - apply Ascii.eqb_eq in Hlf as ->. intros ->%String.eqb_eq. reflexivity.
  - intros [Hcr Hline]%andb_true_iff. apply negb_true_iff in Hcr. rewrite Hcr.
    now rewrite IH.
Qed.

Lemma splitlines_keepends_line (line text : string) :
  is_line line = true ->
  splitlines_keepends (line +:+ text) = line :: splitlines_keepends text.
Proof.
  induction line as [|c line IH]; [discriminate|].
  cbn [is_line]. rewrite str_app_cons. cbn [splitlines_keepends].
  destruct (Ascii.eqb c "010") eqn:Hlf.
  - intros ->%String.eqb_eq. reflexivity.
  - intros [_ Hline]%andb_true_iff. now rewrite IH.
Qed.

(** Lines written one after another are the lines read back. *)
Lemma readlines_concat (lines : list string) :
  Forall (fun line => is_line line = true) lines ->
  readlines (concat lines) = lines.
Proof.
  unfold readlines. induction 1 as [|line lines Hline _ IH]; [reflexivity|].
  change (concat (line :: lines)) with (line +:+ concat lines).
  rewrite universal_newlines_line, splitlines_keepends_line by assumption.
  now rewrite IH.
Qed.

Lemma splitlines_keepends_nil (s : string) :
  splitlines_keepends s = [] -> s = "".
Proof.
  destruct s as [|c s]; [reflexivity|]. cbn [splitlines_keepends].
  destruct (Ascii.eqb c "010"); [discriminate|].
  destruct (splitlines_keepends s); discriminate.
Qed.

Lemma concat_splitlines_keepends (s : string) :
  concat (splitlines_keepends s) = s.
Proof.
  induction s as [|c s IH]; [reflexivity|]. cbn [splitlines_keepends].
  destruct (Ascii.eqb c "010").
  - change (concat (String c "" :: splitlines_keepends s))
      with (String c (concat (splitlines_keepends s))). now rewrite IH.
  - destruct (splitlines_keepends s) as [|l ls] eqn:Hs.
    + apply splitlines_keepends_nil in Hs as ->. reflexivity.
    + change (concat (String c l :: ls)) with (String c (concat (l :: ls))).
      now rewrite IH.
Qed.

(** The lines read from a file, written one after another, are the text
    of the file with its line ends translated. *)
Lemma concat_readlines (text : string) :
  concat (readlines text) = universal_newlines text.
Proof. apply concat_splitlines_keepends. Qed.

Lemma universal_newlines_nil (s : string) : universal_newlines s = "" -> s = "".
Proof.
  induction s as [|c s IH]; [reflexivity|]. cbn [universal_newlines].
  destruct (Ascii.eqb c "013"); [|discriminate].
  destruct s as [|d s]; [discriminate|].
  destruct (Ascii.eqb_spec d "010") as [->|Hne].
  - intros H%IH. discriminate.
  - destruct d as [[] [] [] [] [] [] [] []]; try discriminate.
Qed.

Lemma ends_line_cons (c : ascii) (s : string) :
  s <> "" -> ends_line (String c s) = ends_line s.
Proof. destruct s; [congruence | reflexivity]. Qed.

Lemma universal_newlines_ends (s : string) :
  ends_line s = true -> ends_line (universal_newlines s) = true.
Proof.
  induction s as [|c s IH]; [reflexivity|].
  destruct s as [|d s].
  - cbn [ends_line universal_newlines]. intros ->%Ascii.eqb_eq. reflexivity.
  - rewrite ends_line_cons by discriminate. intros Hs. specialize (IH Hs).
    assert (Hne : universal_newlines (String d s) <> "").
    { intros H%universal_newlines_nil. discriminate. }
    assert (Hcons : forall x, ends_line (String x (universal_newlines (String d s)))
                              = true).
    { intros x. now rewrite ends_line_cons. }
    change (universal_newlines (String c (String d s)))
      with (if Ascii.eqb c "013" then
              match String d s with
              | String "010" _ => universal_newlines (String d s)
              | _ => String "010" (universal_newlines (String d s))
              end
            else String c (universal_newlines (String d s))).
    destruct (Ascii.eqb c "013"); [|apply Hcons].
    destruct d as [[] [] [] [] [] [] [] []]; try apply Hcons. exact IH.
Qed.

Lemma universal_newlines_no_cr (s : string) :
  all_chars (fun c => negb (Ascii.eqb c "013")) (universal_newlines s) = true.
Proof.
  induction s as [|c s IH]; [reflexivity|]. cbn [universal_newlines].
  destruct (Ascii.eqb c "013") eqn:Hc.
  - destruct s as [|d s]; [reflexivity|].
    destruct d as [[] [] [] [] [] [] [] []]; cbn [all_chars]; now rewrite IH.
  - cbn [all_chars]. now rewrite Hc, IH.
Qed.

Lemma splitlines_keepends_lines (s : string) :
  all_chars (fun c => negb (Ascii.eqb c "013")) s = true ->
  ends_line s = true ->
  Forall (fun line => is_line line = true) (splitlines_keepends s).
Proof.
  induction s as [|c s IH]; [constructor|].
  cbn [all_chars]. intros [Hc Hs]%andb_true_iff He.
  cbn [splitlines_keepends]. destruct (Ascii.eqb c "010") eqn:Hlf.
  - constructor; [cbn [is_line]; now rewrite Hlf|].
    apply IH; [assumption|]. destruct s; [reflexivity | exact He].
  - destruct s as [|d s].
    + cbn [ends_line] in He. congruence.
    + rewrite ends_line_cons in He by discriminate.
      specialize (IH Hs He).
      destruct (splitlines_keepends (String d s)) as [|l ls] eqn:Hsp.
      * apply splitlines_keepends_nil in Hsp. discriminate.
      * inversion IH as [|? ? Hl Hls]; subst. constructor; [|assumption].
        cbn [is_line]. now rewrite Hlf, Hc, Hl.
Qed.

(** The lines of a text that ends with a line feed are whole lines. *)
Lemma readlines_lines (text : string) :
  ends_line text = true ->
  Forall (fun line => is_line line = true) (readlines text).
Proof.
  intros He. apply splitlines_keepends_lines.
  - apply universal_newlines_no_cr.
  - now apply universal_newlines_ends.
Qed.

(** ** The basis set block, written and read again *)

Lemma basis_set_lines (basisset : list string) :
  Forall (fun line => is_line line = true) basisset ->
  Forall (fun line => is_line line = true) (read_basis_set basisset).
Proof.
  intros Hlines. unfold read_basis_set.
  destruct (skip_blank_split basisset) as [pre [H1 _]].
  destruct (pop_blank_split (skip_blank basisset)) as [post [H2 _]].
  rewrite H1, H2 in Hlines.
  apply Forall_app in Hlines as [_ [H _]%Forall_app].
  apply Forall_app. split; constructor; [reflexivity | assumption | reflexivity |].
  constructor.
Qed.

(** X5: when the basis set file ends with a line feed, the block that
    [read_basis_set] returns, written to a file, is read back line for
    line, and [read_basis_set] on that file returns the same block. *)
Theorem read_basis_set_idempotent (text : string) :
  ends_line text = true ->
  readlines (concat (read_basis_set (readlines text)))
    = read_basis_set (readlines text) /\
  read_basis_set (readlines (concat (read_basis_set (readlines text))))
    = read_basis_set (readlines text).
Proof.
  intros Hend.
  assert (Hback : readlines (concat (read_basis_set (readlines text)))
                  = read_basis_set (readlines text)).
  { apply readlines_concat, basis_set_lines, readlines_lines, Hend. }
  split; [exact Hback|].
  rewrite Hback. apply read_basis_set_twice.
Qed.

(** ** [extract_optimized_structure] *)

(** [c in s] for a character [c]. *)
Lemma contains_char_nil (c : ascii) : contains (String c "") "" = false.
Proof. reflexivity. Qed.

Lemma contains_char_cons (c d : ascii) (s : string) :
  contains (String c "") (String d s)
    = (if ascii_dec c d then true else false) || contains (String c "") s.
Proof.
  cbn [contains]. rewrite str_prefix_cons, str_prefix_nil. reflexivity.
Qed.

Lemma contains_char_app (c : ascii) (a b : string) :
  contains (String c "") (a +:+ b)
    = contains (String c "") a || contains (String c "") b.
Proof.
  induction a as [|d a IH]; [now rewrite str_app_nil_l|].
  rewrite str_app_cons, !contains_char_cons, IH. now rewrite orb_assoc.
Qed.

Lemma replace_app (c : ascii) (by_ a b : string) :
  replace c by_ (a +:+ b) = replace c by_ a +:+ replace c by_ b.
Proof.
  induction a as [|d a IH]; [reflexivity|].
  rewrite str_app_cons. cbn [replace]. rewrite IH.
  destruct (Ascii.eqb d c); [now rewrite str_app_assoc | reflexivity].
Qed.

Lemma replace_absent (c : ascii) (by_ s : string) :
  contains (String c "") s = false -> replace c by_ s = s.
Proof.
  induction s as [|d s IH]; [reflexivity|].
  rewrite contains_char_cons. intros [Hd Hs]%orb_false_iff.
  cbn [replace]. destruct (Ascii.eqb_spec d c) as [->|_].
  - now destruct (ascii_dec c c).
  - now rewrite IH.
Qed.

(** After the replacement the character is gone, unless the replacement
    brings it. *)
Lemma replace_removes (c : ascii) (by_ s : string) :
  contains (String c "") by_ = false ->
  contains (String c "") (replace c by_ s) = false.
Proof.
  intros Hby. induction s as [|d s IH]; [reflexivity|].
  cbn [replace]. destruct (Ascii.eqb_spec d c) as [->|Hne].
  - now rewrite contains_char_app, Hby, IH.
  - rewrite contains_char_cons, IH.
    destruct (ascii_dec c d); [congruence | reflexivity].
Qed.

Lemma replace_keeps_absent (c d : ascii) (by_ s : string) :
  contains (String c "") by_ = false ->
  contains (String c "") s = false ->
  contains (String c "") (replace d by_ s) = false.
Proof.
  intros Hby. induction s as [|x s IH]; [reflexivity|].
  rewrite contains_char_cons. intros [Hx Hs]%orb_false_iff.
  cbn [replace]. destruct (Ascii.eqb x d).
  - now rewrite contains_char_app, Hby, IH.
  - now rewrite contains_char_cons, Hx, IH.
Qed.

Lemma convert_line_clean (line : string) :
  contains "," (convert_line line) = false /\
  contains "=" (convert_line line) = false.
Proof.
  unfold convert_line. destruct (contains "Variables:" line); [split; reflexivity|].
  split.
  - apply replace_keeps_absent; [reflexivity|]. now apply replace_removes.
  - now apply replace_removes.
Qed.

(** X6: no line of the extracted structure has a comma or an equals sign. *)
Theorem extract_optimized_structure_clean (lines geometry_block : list string) :
  extract_optimized_structure lines = inr geometry_block ->
  Forall (fun line => contains "," line = false /\ contains "=" line = false)
         geometry_block.
Proof.
  unfold extract_optimized_structure.
  destruct (find_start_index lines 0) as [start_index|]; [|discriminate].
  intros [= <-]. rewrite copy_structure_eq. cbn [app].
  apply Forall_map, Forall_forall. intros line _. apply convert_line_clean.
Qed.

Lemma all_space_absent (c : ascii) (w : string) :
  isspace c = false -> all_space w = true -> contains (String c "") w = false.
Proof.
  intros Hc. induction w as [|d w IH]; [reflexivity|].
  unfold all_space. cbn [all_chars]. intros [Hd Hw]%andb_true_iff.
  rewrite contains_char_cons, (IH Hw).
  destruct (ascii_dec c d); [congruence | reflexivity].
Qed.

Lemma all_space_gap (w s : string) :
  all_space w = true -> at_gap s -> at_gap (w +:+ s).
Proof.
  destruct w as [|c w]; [now rewrite str_app_nil_l|].
  unfold all_space, at_gap. cbn [all_chars]. intros [Hc _]%andb_true_iff _.
  rewrite str_app_cons. simpl. now rewrite Hc.
Qed.

Lemma split_all_space_only (w : string) : all_space w = true -> split w = [].
Proof.
  intros Hw. rewrite <- (str_app_nil_r w). now rewrite split_all_space.
Qed.

(** The fields of a line of two fields. *)
Lemma split_two_fields (indent name gap value trail : string) :
  all_space indent = true -> is_token name = true ->
  all_space gap = true -> gap <> "" -> is_token value = true ->
  all_space trail = true ->
  split (indent +:+ name +:+ gap +:+ value +:+ trail) = [name; value].
Proof.
  intros Hi Hn Hg Hgne Hv Ht.
  rewrite split_all_space by assumption.
  rewrite split_token; [|assumption|].
  - rewrite split_all_space by assumption.
    rewrite split_token; [|assumption|].
    + now rewrite split_all_space_only.
    + destruct trail as [|c trail]; [reflexivity|].
      unfold all_space in Ht. cbn [all_chars] in Ht.
      apply andb_true_iff in Ht as [Hc _]. unfold at_gap. simpl. now rewrite Hc.
  - destruct gap as [|c gap]; [congruence|].
    unfold all_space in Hg. cbn [all_chars] in Hg.
    apply andb_true_iff in Hg as [Hc _]. unfold at_gap.
    rewrite str_app_cons. simpl. now rewrite Hc.
Qed.

(** X7: an assignment [name=value] of the log becomes a line of the two
    fields [name] and [value], which [update_scan_bond] takes for the bond
    [name]. *)
Theorem variable_line_selected (indent name value trail : string) :
  all_space indent = true -> is_token name = true ->
  is_token value = true -> all_space trail = true ->
  contains "," name = false -> contains "=" name = false ->
  contains "," value = false -> contains "=" value = false ->
  contains "Variables:" (indent +:+ name +:+ "=" +:+ value +:+ trail) = false ->
  convert_line (indent +:+ name +:+ "=" +:+ value +:+ trail)
    = indent +:+ name +:+ "   " +:+ value +:+ trail /\
  split (indent +:+ name +:+ "   " +:+ value +:+ trail) = [name; value] /\
  selected name (indent +:+ name +:+ "   " +:+ value +:+ trail) = true.
Proof.
  intros Hi Hn Hv Ht Hn1 Hn2 Hv1 Hv2 Hvar.
  assert (Hsplit : split (indent +:+ name +:+ "   " +:+ value +:+ trail)
                   = [name; value]).
  { apply split_two_fields; try assumption; [reflexivity | discriminate]. }
  split; [|split; [assumption|]].
  - unfold convert_line. rewrite Hvar.
    pose proof (all_space_absent "," indent eq_refl Hi) as Hi1.
    pose proof (all_space_absent "," trail eq_refl Ht) as Ht1.
    rewrite (replace_absent "," "   ").
    2:{ rewrite !contains_char_app, Hi1, Hn1, Hv1, Ht1. reflexivity. }
    rewrite !replace_app.
    rewrite (replace_absent "=" _ indent) by now apply all_space_absent.
    rewrite (replace_absent "=" _ name), (replace_absent "=" _ value) by assumption.
    rewrite (replace_absent "=" _ trail) by now apply all_space_absent.
    reflexivity.
  - apply (fields_selected name _ name value Hsplit), str_prefix_refl.
Qed.

(** ** [update_scan_bond] *)

(** X8: [update_scan_bond] takes a line exactly when it has two fields and
    the first field begins with the name of the bond. *)
Theorem selected_by_fields (bond line : string) :
  no_space bond = true ->
  (selected bond line = true <->
   exists name token, split line = [name; token] /\ startswith name bond = true).
Proof.
  intros Hb. split.
  - intros [Hs Hl]%andb_true_iff.
    apply Nat.eqb_eq, two_fields in Hl as (name & token & Hsp).
    exists name, token. split; [assumption|].
    destruct (strip_head _ _ _ Hsp) as (r & Hstrip & Hr).
    unfold startswith in *. rewrite Hstrip in Hs.
    now rewrite str_prefix_token in Hs.
  - intros (name & token & Hsp & Hs). now apply (fields_selected _ _ name token).
Qed.

(** The first line with a property, when there is one. *)
Lemma first_such {A} (P : A -> bool) (l : list A) :
  Forall (fun a => P a = false) l \/
  exists pre a post, l = pre ++ a :: post /\
    Forall (fun a => P a = false) pre /\ P a = true.
Proof.
  induction l as [|a l IH]; [left; constructor|].
  destruct (P a) eqn:Ha.
  - right. exists [], a, l. repeat split; [constructor | assumption].
  - destruct IH as [Hall|(pre & b & post & -> & Hpre & Hb)].
    + left. now constructor.
    + right. exists (a :: pre), b, post. repeat split; [now constructor | assumption].
Qed.

Lemma update_scan_bond_loop_none (p : params) (bond : string)
    (lines rest : list string) (i : nat) :
  Forall (fun l => selected bond l = false) rest ->
  update_scan_bond_loop float_repr p bond lines rest i = inl (bond_not_in_deck bond).
Proof.
  intros Hno. revert i. induction Hno as [|line rest Hline _ IH]; intros i.
  - reflexivity.
  - rewrite update_scan_bond_loop_skip by assumption. apply IH.
Qed.

(** What the loop returns when a line is selected: the outcome of the
    arithmetic on the second field of the first such line. *)
Lemma update_scan_bond_loop_some (p : params) (bond line : string)
    (pre post : list string) :
  Forall (fun l => selected bond l = false) pre ->
  selected bond line = true ->
  exists name token,
    split line = [name; token] /\
    update_scan_bond_loop float_repr p bond
        (pre ++ line :: post) (pre ++ line :: post) 0 =
      (equilibrium_dist <~
         match float_of_str token with
         | Some x => inr x
         | None => inl (FloatValueError token)
         end ;;
       minimum_dist <~ float_mul equilibrium_dist (lower_bound p) ;;
       maximum_dist <~ float_mul equilibrium_dist (upper_bound p) ;;
       step_size <~ float_div (maximum_dist - minimum_dist)%float (scan_step_number p) ;;
       steps <~ int_of_pyval (scan_step_number p) ;;
       inr ({| minimum_dist := Some minimum_dist; step_size := Some step_size |},
            pre ++ (" " +:+ bond +:+ "   " +:+ format_8f minimum_dist +:+ "   "
                    +:+ str_of_int steps +:+ "   " +:+ float_repr step_size +:+ LF)
                :: post))%py.
Proof.
  intros Hpre Hsel. apply selected_parts in Hsel as [Hs (name & token & Hp)].
  exists name, token. split; [assumption|].
  rewrite (update_scan_bond_loop_first float_repr p bond line name token
             _ pre post 0 Hpre Hs Hp).
  rewrite (update_scan_bond_loop_selected float_repr p bond line name token
             _ post _ Hs Hp).
  change (0 + length pre)%nat with (length pre).
  destruct (float_of_str token) as [x|]; [|reflexivity]. cbn [ebind].
  destruct (float_mul x (lower_bound p)) as [|m]; [reflexivity|]. cbn [ebind].
  destruct (float_mul x (upper_bound p)) as [|mx]; [reflexivity|]. cbn [ebind].
  destruct (float_div (mx - m) (scan_step_number p)) as [|s]; [reflexivity|].
  cbn [ebind].
  destruct (int_of_pyval (scan_step_number p)) as [|n]; [reflexivity|].
  cbn [ebind]. now rewrite insert_middle.
Qed.

Lemma float_mul_not_value_error (x : float) (y : pyval) (msg : string) :
  float_mul x y <> inl (ValueError msg).
Proof.
  unfold float_mul, float_of_pyval.
  destruct y as [z|f]; [destruct (float_of_int z)|]; discriminate.
Qed.

Lemma float_div_not_value_error (x : float) (y : pyval) (msg : string) :
  float_div x y <> inl (ValueError msg).
Proof.
  unfold float_div, float_of_pyval.
  destruct y as [z|f]; [destruct (float_of_int z) as [f|]|]; cbn [ebind];
    try destruct (PrimFloat.eqb f 0); discriminate.
Qed.

Lemma int_of_pyval_not_value_error (y : pyval) (msg : string) :
  int_of_pyval y <> inl (ValueError msg).
Proof.
  unfold int_of_pyval. destruct y as [z|f]; [discriminate|].
  destruct (Prim2SF f); discriminate.
Qed.

(** With a selected line the loop does not end in its [else]. *)
Lemma update_scan_bond_loop_found (p : params) (bond line : string)
    (pre post : list string) :
  Forall (fun l => selected bond l = false) pre ->
  selected bond line = true ->
  update_scan_bond_loop float_repr p bond
      (pre ++ line :: post) (pre ++ line :: post) 0
    <> inl (bond_not_in_deck bond).
Proof.
  intros Hpre Hsel Hloop.
  destruct (update_scan_bond_loop_some p bond line pre post Hpre Hsel)
    as (name & token & _ & Heq).
  rewrite Heq in Hloop. clear Heq.
  destruct (float_of_str token) as [x|]; [|discriminate]. cbn [ebind] in Hloop.
  destruct (float_mul x (lower_bound p)) as [e|m] eqn:Hm;
    [injection Hloop as ->; now apply float_mul_not_value_error in Hm|].
  cbn [ebind] in Hloop.
  destruct (float_mul x (upper_bound p)) as [e|mx] eqn:Hmx;
    [injection Hloop as ->; now apply float_mul_not_value_error in Hmx|].
  cbn [ebind] in Hloop.
  destruct (float_div (mx - m) (scan_step_number p)) as [e|s] eqn:Hd;
    [injection Hloop as ->; now apply float_div_not_value_error in Hd|].
  cbn [ebind] in Hloop.
  destruct (int_of_pyval (scan_step_number p)) as [e|n] eqn:Hn;
    [injection Hloop as ->; now apply int_of_pyval_not_value_error in Hn|].
  discriminate.
Qed.

(** X9: [update_scan_bond] raises its own error, the bond was not found,
    exactly when the deck has no selected line; it then writes nothing. *)
Theorem update_scan_bond_not_found (p : params) (lines : list string) (bond : string) :
  (Forall (fun l => selected bond l = false) lines ->
   update_scan_bond float_repr p lines bond = ([], inl (bond_not_in_deck bond))) /\
  (forall t, update_scan_bond float_repr p lines bond = (t, inl (bond_not_in_deck bond)) ->
   t = [] /\ Forall (fun l => selected bond l = false) lines).
Proof.
  split.
  - intros Hno. unfold update_scan_bond.
    now rewrite update_scan_bond_loop_none.
  - intros t H.
    apply update_scan_bond_inv in H as [(e & Hloop & -> & [= <-])|(g & l' & _ & _ & ?)];
      [|discriminate].
    split; [reflexivity|].
    destruct (first_such (selected bond) lines)
      as [Hall|(pre & line & post & -> & Hpre & Hsel)]; [assumption|].
    now apply update_scan_bond_loop_found in Hloop.
Qed.

(** X10: a line that the check of the geometry file accepts is a line that
    [update_scan_bond] selects; a deck with such a line never makes
    [update_scan_bond] raise that the bond was not found. *)
Theorem accepted_line_is_found (p : params) (lines : list string) (bond line : string) :
  In line lines -> accepted bond line = true ->
  selected bond line = true /\
  (update_scan_bond float_repr p lines bond).2 <> inl (bond_not_in_deck bond).
Proof.
  intros Hin Hacc. pose proof (accepted_selected _ _ Hacc) as Hsel.
  split; [assumption|]. intros Hr.
  destruct (update_scan_bond float_repr p lines bond) as [t r] eqn:H.
  cbn [snd] in Hr. subst r.
  apply update_scan_bond_inv in H as [(e & Hloop & _ & [= <-])|(g & l' & _ & _ & ?)];
    [|discriminate].
  destruct (first_such (selected bond) lines)
    as [Hall|(pre & line' & post & -> & Hpre & Hsel')].
  - rewrite Forall_forall in Hall. apply list_elem_of_In in Hin.
    apply Hall in Hin. congruence.
  - now apply update_scan_bond_loop_found in Hloop.
Qed.

(** X11: on success [update_scan_bond] writes back the deck it read with one
    line replaced, the first selected line. *)
Theorem update_scan_bond_one_line (p : params) (lines : list string) (bond : string)
    (t : list event) (g : globals) (lines' : list string) :
  update_scan_bond float_repr p lines bond = (t, inr (g, lines')) ->
  t = [Wrote ScanDeck (concat lines')] /\
  length lines' = length lines /\
  exists (k : nat) (line : string) (m s : float) (n : Z),
    lines !! k = Some line /\
    selected bond line = true /\
    (forall j l, (j < k)%nat -> lines !! j = Some l -> selected bond l = false) /\
    g = {| minimum_dist := Some m; step_size := Some s |} /\
    lines' !! k = Some (" " +:+ bond +:+ "   " +:+ format_8f m +:+ "   "
                        +:+ str_of_int n +:+ "   " +:+ float_repr s +:+ LF) /\
    (forall j, j <> k -> lines' !! j = lines !! j).
Proof.
  intros H.
  apply update_scan_bond_inv in H as [(e & _ & _ & ?)|(g' & l' & Hloop & -> & [= <- <-])];
    [discriminate|].
  split; [reflexivity|].
  pose proof (update_scan_bond_loop_inv float_repr p bond lines [] lines g lines'
                eq_refl Hloop)
    as (k & line & name & token & x & m & mx & s & n & _ & Hk & Hfirst & Hs & Hp
        & _ & _ & _ & _ & _ & -> & ->).
  split; [apply length_insert|].
  exists k, line, m, s, n.
  split; [assumption|].
  split; [apply selected_parts; eauto|].
  split; [intros j l Hj; apply Hfirst; simpl; lia|].
  split; [reflexivity|].
  split; [apply list_lookup_insert_eq; eapply lookup_lt_Some; eassumption|].
  intros j Hj. now apply list_lookup_insert_ne.
Qed.

(** X12: the first selected line decides.  When its second field is not a
    number, [update_scan_bond] ends with the error of [float] and writes
    nothing, whatever the lines after it. *)
Theorem update_scan_bond_bad_number (p : params) (bond line name token : string)
    (pre post : list string) :
  Forall (fun l => selected bond l = false) pre ->
  startswith (strip line) bond = true ->
  split line = [name; token] ->
  float_of_str token = None ->
  update_scan_bond float_repr p (pre ++ line :: post) bond
    = ([], inl (FloatValueError token)).
Proof.
  intros Hpre Hs Hp Hf. unfold update_scan_bond.
  rewrite (update_scan_bond_loop_first float_repr p bond line name token
             _ pre post 0 Hpre Hs Hp).
  rewrite (update_scan_bond_loop_selected float_repr p bond line name token
             _ post _ Hs Hp).
  now rewrite Hf.
Qed.

(** X13: with a step count of zero, [update_scan_bond] ends with
    [ZeroDivisionError] at the first selected line and writes nothing. *)
Theorem update_scan_bond_zero_steps (p : params) (bond line name token : string)
    (pre post : list string) (x lo hi : float) :
  scan_step_number p = PyInt 0 ->
  lower_bound p = PyFloat lo ->
  upper_bound p = PyFloat hi ->
  Forall (fun l => selected bond l = false) pre ->
  startswith (strip line) bond = true ->
  split line = [name; token] ->
  float_of_str token = Some x ->
  update_scan_bond float_repr p (pre ++ line :: post) bond
    = ([], inl ZeroDivisionError).
Proof.
  intros Hn Hlo Hhi Hpre Hs Hp Hf. unfold update_scan_bond.
  rewrite (update_scan_bond_loop_first float_repr p bond line name token
             _ pre post 0 Hpre Hs Hp).
  rewrite (update_scan_bond_loop_selected float_repr p bond line name token
             _ post _ Hs Hp).
  rewrite Hf, Hlo, Hhi, Hn. reflexivity.
Qed.

Lemma concat_insert (lines : list string) (k : nat) (line new_line : string) :
  lines !! k = Some line ->
  concat lines = concat (take k lines) +:+ line +:+ concat (drop (S k) lines) /\
  concat (<[k := new_line]> lines)
    = concat (take k lines) +:+ new_line +:+ concat (drop (S k) lines).
Proof.
  intros Hk. pose proof (lookup_lt_Some _ _ _ Hk) as Hlt.
  rewrite <- (take_drop_middle lines k line Hk) at 1 4.
  rewrite insert_app_r_alt; rewrite length_take; [|lia].
  replace (k - k `min` length lines)%nat with 0%nat by lia.
  cbn [insert list_insert]. now rewrite !concat_lines_app, !concat_lines_cons.
Qed.

(** X14: [update_scan_bond] writes the file back with nothing changed but
    one line.  The lines of the file are some lines [before], none of them
    selected, the first selected [line], and the lines [after]; the text
    written is the text of [before], the directive line made from the pair
    of globals and the step count, and the text of [after]. *)
Theorem update_scan_bond_keeps_text (p : params) (text bond : string)
    (t : list event) (g : globals) (lines' : list string) :
  update_scan_bond float_repr p (readlines text) bond = (t, inr (g, lines')) ->
  exists (before after : list string) (line : string) (m s : float) (n : Z),
    readlines text = before ++ line :: after /\
    Forall (fun l => selected bond l = false) before /\
    selected bond line = true /\
    g = {| minimum_dist := Some m; step_size := Some s |} /\
    int_of_pyval (scan_step_number p) = inr n /\
    universal_newlines text = concat before +:+ line +:+ concat after /\
    t = [Wrote ScanDeck
           (concat before
            +:+ (" " +:+ bond +:+ "   " +:+ format_8f m +:+ "   "
                 +:+ str_of_int n +:+ "   " +:+ float_repr s +:+ LF)
            +:+ concat after)].
Proof.
  intros H.
  apply update_scan_bond_inv in H as [(e & _ & _ & ?)|(g' & l' & Hloop & -> & [= <- <-])];
    [discriminate|].
  pose proof (update_scan_bond_loop_inv float_repr p bond (readlines text) []
                (readlines text) g lines' eq_refl Hloop)
    as (k & line & name & token & x & m & mx & s & n & _ & Hk & Hfirst & Hs & Hp
        & _ & _ & _ & _ & Hn & -> & ->).
  match goal with
  | |- context [<[k := ?new]> _] =>
      destruct (concat_insert (readlines text) k line new Hk) as [Hold Hnew]
  end.
  exists (take k (readlines text)), (drop (S k) (readlines text)), line, m, s, n.
  split; [symmetry; now apply take_drop_middle|].
  split.
  { apply Forall_lookup. intros j l [Hl Hj]%lookup_take_Some.
    apply (Hfirst j l); [simpl; lia | assumption]. }
  split; [apply selected_parts; eauto|].
  split; [reflexivity|].
  split; [assumption|].
  split; [now rewrite <- concat_readlines|].
  now rewrite Hnew.
Qed.

Lemma new_line_fields (bond f8 n fr : string) :
  is_token bond = true -> is_token f8 = true ->
  is_token n = true -> is_token fr = true ->
  split (" " +:+ bond +:+ "   " +:+ f8 +:+ "   " +:+ n +:+ "   " +:+ fr +:+ LF)
    = [bond; f8; n; fr].
Proof.
  intros Hb Hf Hn Hr.
  rewrite (split_all_space " ") by reflexivity.
  rewrite split_token, (split_all_space "   ") by (assumption || reflexivity).
  rewrite split_token, (split_all_space "   ") by (assumption || reflexivity).
  rewrite split_token, (split_all_space "   ") by (assumption || reflexivity).
  rewrite split_token by (assumption || reflexivity). reflexivity.
Qed.

(** X15: the line that [update_scan_bond] writes has four fields, so it is
    not a line that [update_scan_bond] selects: in the deck written, no
    line up to and including the new one is selected, and a second call on
    that deck takes a later line or ends with the error that the bond was
    not found. *)
Theorem rewritten_line_not_selected (p : params) (lines : list string) (bond : string)
    (t : list event) (m s : float) (lines' : list string) :
  is_token bond = true ->
  is_token (float_repr s) = true ->
  update_scan_bond float_repr p lines bond
    = (t, inr ({| minimum_dist := Some m; step_size := Some s |}, lines')) ->
  exists (k : nat) (new_line : string) (n : Z),
    lines' !! k = Some new_line /\
    split new_line = [bond; format_8f m; str_of_int n; float_repr s] /\
    selected bond new_line = false /\
    forall j l, (j <= k)%nat -> lines' !! j = Some l -> selected bond l = false.
Proof.
  intros Hbond Hrepr H.
  apply update_scan_bond_inv in H as [(e & _ & _ & ?)|(g' & l' & Hloop & _ & [= <- <-])];
    [discriminate|].
  pose proof (update_scan_bond_loop_inv float_repr p bond lines [] lines _ lines'
                eq_refl Hloop)
    as (k & line & name & token & x & m' & mx & s' & n & _ & Hk & Hfirst & _ & _
        & _ & _ & _ & _ & _ & [= <- <-] & ->).
  pose proof (new_line_fields bond (format_8f m) (str_of_int n) (float_repr s)
                Hbond (format_8f_token m) (str_of_int_token n) Hrepr) as Hsplit.
  assert (Hnot : selected bond
                   (" " +:+ bond +:+ "   " +:+ format_8f m +:+ "   "
                    +:+ str_of_int n +:+ "   " +:+ float_repr s +:+ LF) = false).
  { unfold selected. rewrite Hsplit. apply andb_false_r. }
  pose proof (lookup_lt_Some _ _ _ Hk) as Hlt.
  eexists k, _, n. split; [now apply list_lookup_insert_eq|].
  split; [exact Hsplit|]. split; [exact Hnot|].
  intros j l Hj Hl. destruct (decide (j = k)) as [->|Hne].
  - rewrite list_lookup_insert_eq in Hl by assumption. now injection Hl as <-.
  - rewrite list_lookup_insert_ne in Hl by congruence.
    apply (Hfirst j l); [simpl; lia | assumption].
Qed.

(** ** The trajectory *)

Lemma dict_get_default (table : list (Z * string)) (key : Z) (default : string) :
  ~ In key (map fst table) -> dict_get table key default = default.
Proof.
  induction table as [|[k v] table IH]; [reflexivity|].
  simpl. intros Hnot. destruct (Z.eqb_spec k key) as [->|_].
  - exfalso. auto.
  - apply IH. auto.
Qed.

Lemma dict_get_cases (table : list (Z * string)) (key : Z) (default : string) :
  dict_get table key default = default \/
  In (key, dict_get table key default) table.
Proof.
  induction table as [|[k v] table IH]; [now left|].
  simpl. destruct (Z.eqb_spec k key) as [->|_]; [right; now left|].
  destruct IH; auto.
Qed.

Lemma periodic_table_keys : map fst periodic_table = seqZ 1 118.
Proof. reflexivity. Qed.

Lemma in_range (n : Z) : 1 <= n <= 118 -> In n (seqZ 1 118).
Proof. intros Hn. apply list_elem_of_In, elem_of_seqZ. lia. Qed.

(** X16: every atomic number from 1 to 118 has a symbol of its own, and any
    other number gets the default "X". *)
Theorem periodic_table_lookup :
  (forall n, 1 <= n <= 118 -> dict_get periodic_table n "X" <> "X") /\
  (forall n, n < 1 \/ 118 < n -> dict_get periodic_table n "X" = "X") /\
  (forall m n, 1 <= m <= 118 -> 1 <= n <= 118 ->
     dict_get periodic_table m "X" = dict_get periodic_table n "X" -> m = n).
Proof.
  split; [|split].
  - intros n Hn.
    assert (Hall : forallb (fun n => negb (String.eqb (dict_get periodic_table n "X") "X"))
                     (seqZ 1 118) = true) by (vm_compute; reflexivity).
    rewrite forallb_forall in Hall. specialize (Hall n (in_range n Hn)).
    apply negb_true_iff, String.eqb_neq in Hall. exact Hall.
  - intros n Hn. apply dict_get_default. rewrite periodic_table_keys.
    intros Hin%list_elem_of_In%elem_of_seqZ. lia.
  - intros m n Hm Hn.
    assert (Hall : forallb (fun m => forallb (fun n =>
                     implb (String.eqb (dict_get periodic_table m "X")
                                       (dict_get periodic_table n "X"))
                           (m =? n)) (seqZ 1 118)) (seqZ 1 118) = true)
      by (vm_compute; reflexivity).
    rewrite forallb_forall in Hall. specialize (Hall m (in_range m Hm)).
    rewrite forallb_forall in Hall. specialize (Hall n (in_range n Hn)).
    intros Heq. apply String.eqb_eq in Heq. rewrite Heq in Hall.
    now apply Z.eqb_eq in Hall.
Qed.

Lemma element_token (n : Z) : is_token (dict_get periodic_table n "X") = true.
Proof.
  assert (Hall : forallb (fun kv => is_token kv.2) periodic_table = true)
    by (vm_compute; reflexivity).
  rewrite forallb_forall in Hall.
  destruct (dict_get_cases periodic_table n "X") as [->|Hin]; [reflexivity|].
  exact (Hall _ Hin).
Qed.

(** The line of an atom, made of four fields. *)
Abbreviation is_atom_line :=
  (fun atom : string =>
     exists element x y z,
       is_token element = true /\ is_token x = true /\
       is_token y = true /\ is_token z = true /\
       atom = atom_line element x y z).

Lemma read_orientation_atoms (lines block_data out : list string) :
  Forall is_atom_line block_data ->
  read_orientation lines block_data = inr out ->
  Forall is_atom_line out.
Proof.
  revert block_data. induction lines as [|line rest IH]; intros block_data Hacc H.
  - now injection H as <-.
  - cbn [read_orientation] in H.
    destruct (startswith (strip line) "-"); [now injection H as <-|].
    pose proof (split_fields line) as Hf.
    destruct (split line) as [|? [|number [|? [|x [|y [|z ?]]]]]]; eauto.
    destruct (int_of_str number) as [n|]; [|discriminate]. cbn [ebind] in H.
    apply IH in H; [assumption|].
    apply Forall_app. split; [assumption|]. constructor; [|constructor].
    inversion Hf as [|? ? _ Hf1]; subst. inversion Hf1 as [|? ? _ Hf2]; subst.
    inversion Hf2 as [|? ? _ Hf3]; subst. inversion Hf3 as [|? ? Hx Hf4]; subst.
    inversion Hf4 as [|? ? Hy Hf5]; subst. inversion Hf5 as [|? ? Hz _]; subst.
    exists (dict_get periodic_table n "X"), x, y, z.
    split; [apply element_token|]. auto.
Qed.

Lemma orientation_blocks_atoms (lines : list string) (blocks : list (list string))
    (out : list string) :
  Forall (fun atoms => atoms <> [] /\ Forall is_atom_line atoms) blocks ->
  orientation_blocks lines (map render_block blocks) = inr out ->
  exists blocks', out = map render_block blocks' /\
    Forall (fun atoms => atoms <> [] /\ Forall is_atom_line atoms) blocks'.
Proof.
  revert blocks. induction lines as [|line rest IH]; intros blocks Hacc H.
  - injection H as <-. eauto.
  - cbn [orientation_blocks] in H.
    destruct (contains "Standard orientation:" line); [|eauto].
    destruct (read_orientation (drop 4 rest) []) as [e|block_data] eqn:Hread;
      [discriminate|].
    cbn [ebind] in H. destruct block_data as [|atom atoms]; [eauto|].
    apply (IH (blocks ++ [atom :: atoms])).
    + apply Forall_app. split; [assumption|]. constructor; [|constructor].
      split; [discriminate|]. eapply read_orientation_atoms; [|exact Hread].
      constructor.
    + now rewrite map_app.
Qed.

Lemma atom_line_fields (element x y z : string) :
  is_token element = true -> is_token x = true ->
  is_token y = true -> is_token z = true ->
  split (atom_line element x y z) = [element; x; y; z].
Proof.
  intros He Hx Hy Hz. unfold atom_line.
  rewrite split_token, (split_all_space " ") by (assumption || reflexivity).
  rewrite split_token, (split_all_space " ") by (assumption || reflexivity).
  rewrite split_token, (split_all_space " ") by (assumption || reflexivity).
  pose proof (split_token z "" Hz eq_refl) as Hz'.
  rewrite str_app_nil_r in Hz'. now rewrite Hz'.
Qed.

(** X17: every atom line of the trajectory has four fields: the symbol of
    the element and the three coordinates as the log gives them. *)
Theorem trajectory_atom_fields (lines : list string) (trace : list event) :
  extract_data_from_log lines = (trace, inr tt) ->
  exists blocks : list (list string),
    trace = [Wrote Trajectory
               (concat (map (fun atoms => render_block atoms +:+ LF) blocks))] /\
    Forall (fun atoms =>
              atoms <> [] /\
              Forall (fun atom =>
                        exists element x y z,
                          atom = atom_line element x y z /\
                          split atom = [element; x; y; z])
                     atoms)
           blocks.
Proof.
  intros H.
  apply extract_data_from_log_inv in H
    as [(e & _ & _ & ?) | (all_blocks & Hb & -> & _)]; [discriminate|].
  destruct (orientation_blocks_atoms lines [] all_blocks) as (blocks & -> & Hall);
    [constructor | exact Hb |].
  exists blocks. rewrite map_map. split; [reflexivity|].
  eapply Forall_impl; [exact Hall|].
  intros atoms [Hne Hatoms]. split; [assumption|].
  eapply Forall_impl; [exact Hatoms|].
  intros atom (element & x & y & z & He & Hx & Hy & Hz & ->).
  exists element, x, y, z. split; [reflexivity|]. now apply atom_line_fields.
Qed.

Lemma join_lines (atoms : list string) :
  atoms <> [] ->
  join LF atoms +:+ LF = concat (map (fun atom => atom +:+ LF) atoms).
Proof.
  intros Hne. induction atoms as [|atom atoms IH]; [congruence|].
  destruct atoms as [|atom' atoms].
  - cbn [join map]. now rewrite concat_lines_cons, str_app_nil_r.
  - change (join LF (atom :: atom' :: atoms))
      with (atom +:+ LF +:+ join LF (atom' :: atoms)).
    rewrite (map_cons _ atom), concat_lines_cons, <- IH by discriminate.
    now rewrite !str_app_assoc.
Qed.

Lemma render_block_lines (atoms : list string) :
  atoms <> [] -> render_block atoms +:+ LF = concat (block_lines atoms).
Proof.
  intros Hne. unfold render_block, block_lines.
  rewrite !concat_lines_cons, <- join_lines by assumption.
  now rewrite !str_app_assoc.
Qed.

Lemma is_line_end (s : string) : no_break s = true -> is_line (s +:+ LF) = true.
Proof.
  induction s as [|c s IH]; [reflexivity|].
  unfold no_break. cbn [all_chars]. rewrite str_app_cons. cbn [is_line].
  intros [[Hlf Hcr]%andb_true_iff Hs]%andb_true_iff.
  apply negb_true_iff in Hlf. rewrite Hlf, Hcr. now apply IH.
Qed.

Lemma atom_line_no_break (atom : string) : is_atom_line atom -> no_break atom = true.
Proof.
  intros (element & x & y & z & He & Hx & Hy & Hz & ->).
  unfold atom_line, no_break. rewrite !all_chars_app.
  fold (no_break element) (no_break x) (no_break y) (no_break z).
  rewrite (token_no_break _ He), (token_no_break _ Hx),
    (token_no_break _ Hy), (token_no_break _ Hz). reflexivity.
Qed.

(** X18: the trajectory file is a sequence of blocks, each the number of its
    atoms on a line, a blank line, and the lines of the atoms. *)
Theorem trajectory_file_lines (lines : list string) (trace : list event) :
  extract_data_from_log lines = (trace, inr tt) ->
  exists (blocks : list (list string)) (content : string),
    trace = [Wrote Trajectory content] /\
    Forall (fun atoms => atoms <> []) blocks /\
    readlines content = flat_map block_lines blocks.
Proof.
  intros H.
  apply extract_data_from_log_inv in H
    as [(e & _ & _ & ?) | (all_blocks & Hb & -> & _)]; [discriminate|].
  destruct (orientation_blocks_atoms lines [] all_blocks) as (blocks & -> & Hall);
    [constructor | exact Hb |].
  exists blocks, (concat (map (fun block => block +:+ LF) (map render_block blocks))).
  split; [reflexivity|].
  split; [eapply Forall_impl; [exact Hall | now intros atoms [? _]]|].
  assert (Htext : concat (map (fun block => block +:+ LF) (map render_block blocks))
                  = concat (flat_map block_lines blocks)).
  { clear Hb. induction Hall as [|atoms blocks [Hne _] _ IH]; [reflexivity|].
    cbn [map flat_map]. rewrite concat_lines_cons, concat_lines_app, IH.
    now rewrite render_block_lines. }
  rewrite Htext. apply readlines_concat.
  clear Hb Htext. induction Hall as [|atoms blocks [_ Hatoms] _ IH]; [constructor|].
  cbn [flat_map]. apply Forall_app. split; [|assumption].
  unfold block_lines. constructor; [apply is_line_end, str_of_int_no_break|].
  constructor; [reflexivity|].
  apply Forall_map. eapply Forall_impl; [exact Hatoms|].
  intros atom Hatom. now apply is_line_end, atom_line_no_break.
Qed.

Lemma read_orientation_rows (rows atoms rest block_data : list string) :
  Forall2 row_atom rows atoms ->
  read_orientation (rows ++ rest) block_data
    = read_orientation rest (block_data ++ atoms).
Proof.
  intros Hrows. revert block_data.
  induction Hrows as [|row atom rows atoms Hrow _ IH]; intros block_data.
  - now rewrite app_nil_r.
  - destruct Hrow as (Hsep & c & number & kind & x & y & z & more & n & Hsp & Hn & ->).
    cbn [app read_orientation]. rewrite Hsep, Hsp, Hn. cbn [ebind].
    rewrite IH, <- app_assoc. reflexivity.
Qed.

Lemma orientation_blocks_none (lines rest all_blocks : list string) :
  Forall (fun l => contains "Standard orientation:" l = false) lines ->
  orientation_blocks (lines ++ rest) all_blocks = orientation_blocks rest all_blocks.
Proof.
  induction 1 as [|line lines Hline _ IH]; [reflexivity|].
  cbn [app orientation_blocks]. now rewrite Hline.
Qed.

(** X19: a log with one table of a standard orientation gives one block:
    the atoms of the rows of the table, in their order. *)
Theorem single_table_trajectory
    (before header rows rest atoms : list string) (line sep : string) :
  Forall (fun l => contains "Standard orientation:" l = false) before ->
  contains "Standard orientation:" line = true ->
  length header = 4%nat ->
  Forall2 row_atom rows atoms ->
  startswith (strip sep) "-" = true ->
  Forall (fun l => contains "Standard orientation:" l = false)
         (header ++ rows ++ sep :: rest) ->
  extract_data_from_log (before ++ line :: header ++ rows ++ sep :: rest)
    = ([Wrote Trajectory match atoms with
                         | [] => ""
                         | _ => render_block atoms +:+ LF
                         end],
       inr tt).
Proof.
  intros Hbefore Hline Hheader Hrows Hsep Hafter.
  unfold extract_data_from_log.
  rewrite orientation_blocks_none by assumption.
  cbn [orientation_blocks]. rewrite Hline.
  rewrite <- Hheader, drop_app_length.
  rewrite read_orientation_rows with (atoms := atoms) by assumption.
  cbn [read_orientation]. rewrite Hsep. cbn [ebind app].
  rewrite <- (app_nil_r (header ++ rows ++ sep :: rest)).
  rewrite orientation_blocks_none by assumption.
  cbn [orientation_blocks]. rewrite bind_lift_ok.
  destruct atoms as [|atom atoms]; [reflexivity|].
  cbn [app map]. unfold emit. now rewrite concat_lines_cons, str_app_nil_r.
Qed.

(** ** The energies *)

Lemma str_length_app (a b : string) :
  String.length (a +:+ b) = (String.length a + String.length b)%nat.
Proof. induction a as [|c a IH]; [reflexivity|]. rewrite str_app_cons. simpl. now rewrite IH. Qed.

Lemma re_take_app (a r : string) :
  Re.take (String.length (a +:+ r) - String.length r) (a +:+ r) = a.
Proof.
  rewrite str_length_app.
  replace (String.length a + String.length r - String.length r)%nat
    with (String.length a) by lia.
  induction a as [|c a IH]; [now destruct r|].
  rewrite str_app_cons. simpl. now rewrite IH.
Qed.

Lemma drop_prefix_app (p s : string) : Re.drop_prefix p (p +:+ s) = Some s.
Proof.
  induction p as [|c p IH]; [reflexivity|].
  rewrite str_app_cons. simpl. now rewrite Ascii.eqb_refl.
Qed.

Lemma drop_prefix_none (p s : string) :
  String.prefix p s = false -> Re.drop_prefix p s = None.
Proof.
  revert s. induction p as [|c p IH]; intros s; [now rewrite str_prefix_nil|].
  destruct s as [|d s]; [reflexivity|]. rewrite str_prefix_cons. simpl.
  destruct (Ascii.eqb_spec c d) as [->|Hne].
  - destruct (ascii_dec d d); [apply IH | congruence].
  - reflexivity.
Qed.

(** A greedy repetition gives back characters until the rest of the
    pattern matches. *)
Lemma star_fails (p : ascii -> bool) (b s : string)
    (k : string -> option string) :
  all_chars p b = true -> stops p s = true ->
  (forall b1 b2, b = b1 +:+ b2 -> k (b2 +:+ s) = None) ->
  Re.star p (b +:+ s) k = None.
Proof.
  intros Hb Hs. induction b as [|c b IH]; intros Hk.
  - rewrite str_app_nil_l. specialize (Hk "" "" eq_refl). rewrite str_app_nil_l in Hk.
    destruct s as [|d s]; [exact Hk|]. simpl in *.
    apply negb_true_iff in Hs. now rewrite Hs.
  - cbn [all_chars] in Hb. apply andb_true_iff in Hb as [Hc Hb].
    rewrite str_app_cons. cbn [Re.star]. rewrite Hc, IH.
    + exact (Hk "" (String c b) eq_refl).
    + assumption.
    + intros b1 b2 ->. exact (Hk (String c b1) b2 eq_refl).
Qed.

Lemma star_backtracks (p : ascii -> bool) (a b s r : string)
    (k : string -> option string) :
  all_chars p a = true -> all_chars p b = true -> stops p s = true ->
  (forall b1 b2, b = b1 +:+ b2 -> b1 <> "" -> k (b2 +:+ s) = None) ->
  k (b +:+ s) = Some r ->
  Re.star p (a +:+ b +:+ s) k = Some r.
Proof.
  intros Ha Hb Hs Hfail Hk. induction a as [|c a IH].
  - rewrite str_app_nil_l. destruct b as [|c b].
    + rewrite str_app_nil_l in *. destruct s as [|d s]; [exact Hk|]. simpl in *.
      apply negb_true_iff in Hs. now rewrite Hs.
    + cbn [all_chars] in Hb. apply andb_true_iff in Hb as [Hc Hb].
      rewrite str_app_cons. cbn [Re.star]. rewrite Hc, star_fails; try assumption.
      intros b1 b2 ->. apply (Hfail (String c b1) b2); [reflexivity | discriminate].
  - cbn [all_chars] in Ha. apply andb_true_iff in Ha as [Hc Ha].
    rewrite str_app_cons. cbn [Re.star]. now rewrite Hc, IH.
Qed.

Lemma star_all (p : ascii -> bool) (a s r : string) (k : string -> option string) :
  all_chars p a = true -> stops p s = true -> k s = Some r ->
  Re.star p (a +:+ s) k = Some r.
Proof.
  intros Ha Hs Hk.
  apply (star_backtracks p a "" s r k); try assumption; [reflexivity|].
  intros [|] b2 Heq Hne; [congruence | discriminate].
Qed.

Lemma plus_all (p : ascii -> bool) (a s r : string) (k : string -> option string) :
  a <> "" -> all_chars p a = true -> stops p s = true -> k s = Some r ->
  Re.matches (Re.Plus p) (a +:+ s) k = Some r.
Proof.
  intros Hne Ha Hs Hk. destruct a as [|c a]; [congruence|].
  cbn [all_chars] in Ha. apply andb_true_iff in Ha as [Hc Ha].
  rewrite str_app_cons. cbn [Re.matches]. rewrite Hc. now apply star_all.
Qed.

Lemma mantissa_not_space (c : ascii) : mantissa_char c = true -> isspace c = false.
Proof.
  destruct c as [[] [] [] [] [] [] [] []]; vm_compute; congruence.
Qed.

Lemma decimal_mantissa (c : ascii) : isdecimal c = true -> mantissa_char c = true.
Proof.
  unfold mantissa_char. intros ->. now rewrite orb_true_r.
Qed.

Lemma decimal_not_sign (c : ascii) : isdecimal c = true -> sign_char c = false.
Proof.
  destruct c as [[] [] [] [] [] [] [] []]; vm_compute; congruence.
Qed.

Lemma sign_cases (c : ascii) : sign_char c = true -> c = "+"%char \/ c = "-"%char.
Proof.
  unfold sign_char. intros [H|H]%orb_true_iff; apply Ascii.eqb_eq in H; auto.
Qed.

(** The group after the label, for a number in the notation of the log. *)
Lemma energy_group_matches (mant digits rest : string) (sign : ascii) :
  mant <> "" -> all_chars mantissa_char mant = true ->
  sign_char sign = true ->
  digits <> "" -> all_chars isdecimal digits = true ->
  stops mantissa_char rest = true -> stops sign_char rest = true ->
  Re.matches energy_group (mant +:+ String sign digits +:+ rest) Some = Some rest.
Proof.
  intros Hm Hmant Hsign Hd Hdigits Hrest1 Hrest2.
  assert (Hrest3 : stops isdecimal rest = true).
  { destruct rest as [|h rest]; [reflexivity|]. simpl in *.
    apply negb_true_iff in Hrest1. apply negb_true_iff.
    destruct (isdecimal h) eqn:Hh; [|reflexivity].
    apply decimal_mantissa in Hh. congruence. }
  set (k := fun s' => Re.matches (Re.Cat (Re.Cls sign_char) (Re.Plus isdecimal)) s' Some).
  assert (Hk : k (String sign digits +:+ rest) = Some rest).
  { unfold k. rewrite str_app_cons. cbn [Re.matches]. rewrite Hsign.
    change (Re.matches (Re.Plus isdecimal) (digits +:+ rest) Some = Some rest).
    now apply plus_all. }
  destruct mant as [|c mant]; [congruence|].
  cbn [all_chars] in Hmant. apply andb_true_iff in Hmant as [Hc Hmant].
  unfold energy_group. rewrite str_app_cons. cbn [Re.matches]. rewrite Hc.
  fold k.
  destruct (sign_cases sign Hsign) as [->| ->].
  - apply star_all; [assumption | reflexivity | exact Hk].
  - apply (star_backtracks mantissa_char mant (String "-" digits) rest rest k);
      try assumption.
    + cbn [all_chars]. apply andb_true_iff. split; [reflexivity|].
      revert Hdigits. apply all_chars_impl, decimal_mantissa.
    + intros b1 b2 Heq Hne. destruct b1 as [|c1 b1]; [congruence|].
      rewrite str_app_cons in Heq. injection Heq as _ Heq.
      unfold k. destruct b2 as [|d b2].
      * rewrite str_app_nil_l. destruct rest as [|h rest]; [reflexivity|].
        simpl in Hrest2. apply negb_true_iff in Hrest2.
        cbn [Re.matches]. now rewrite Hrest2.
      * rewrite str_app_cons. cbn [Re.matches].
        assert (Hd' : isdecimal d = true).
        { rewrite Heq, all_chars_app in Hdigits.
          apply andb_true_iff in Hdigits as [_ Hd2]. cbn [all_chars] in Hd2.
          now apply andb_true_iff in Hd2 as [? _]. }
        now rewrite (decimal_not_sign d Hd').
Qed.

Lemma energy_prefix_matches (ws1 ws2 s r : string) (k : string -> option string) :
  all_space ws1 = true -> all_space ws2 = true -> stops isspace s = true ->
  k s = Some r ->
  Re.matches energy_prefix ("EUMP2" +:+ ws1 +:+ "=" +:+ ws2 +:+ s) k = Some r.
Proof.
  intros H1 H2 Hs Hk. unfold energy_prefix. cbn [Re.matches].
  rewrite drop_prefix_app.
  apply star_all; [assumption | reflexivity|].
  rewrite drop_prefix_app. now apply star_all.
Qed.

Lemma contains_prefix (sub s : string) :
  String.prefix sub s = true -> contains sub s = true.
Proof. intros H. destruct s; cbn [contains]; now rewrite H. Qed.

Lemma contains_app_r (sub a b : string) : contains sub (a +:+ sub +:+ b) = true.
Proof.
  induction a as [|c a IH].
  - rewrite str_app_nil_l. apply contains_prefix, str_prefix_app_iff. eauto.
  - rewrite str_app_cons. cbn [contains]. rewrite IH. apply orb_true_r.
Qed.

Lemma search_group_cons (pre grp : Re.re) (c : ascii) (s : string) :
  Re.search_group pre grp (String c s)
    = match Re.match_group pre grp (String c s) with
      | Some g => Some g
      | None => Re.search_group pre grp s
      end.
Proof. reflexivity. Qed.

(** The search passes over the text before the first label. *)
Lemma search_group_skip (before tail : string) :
  contains "EUMP2" (before +:+ "EUMP") = false ->
  Re.search_group energy_prefix energy_group (before +:+ "EUMP2" +:+ tail)
    = Re.search_group energy_prefix energy_group ("EUMP2" +:+ tail).
Proof.
  remember ("EUMP2" +:+ tail) as label eqn:Hlabel.
  induction before as [|c before IH]; [reflexivity|].
  rewrite !(str_app_cons c). cbn [contains]. intros [Hp Hc]%orb_false_iff.
  rewrite search_group_cons.
  assert (Hnone : Re.match_group energy_prefix energy_group
                    (String c (before +:+ label)) = None).
  { unfold Re.match_group, energy_prefix. cbn [Re.matches].
    rewrite drop_prefix_none; [reflexivity|].
    etransitivity; [|exact Hp]. rewrite <- !(str_app_cons c). subst label.
    change ("EUMP2" +:+ tail) with ("EUMP" +:+ "2" +:+ tail).
    rewrite <- str_app_assoc. apply str_prefix_app_short.
    rewrite str_length_app. simpl. lia. }
  rewrite Hnone. now apply IH.
Qed.

(** X20: a line with the energy in the notation of the log, as in
    [EUMP2 =    -0.10023456789D+03], gives that number, with E for D,
    times the conversion factor. *)
Theorem extract_energies_log_notation
    (before ws1 ws2 mant digits rest : string) (sign : ascii) (x : float)
    (lines_before lines_after : list string) :
  contains "EUMP2" (before +:+ "EUMP") = false ->
  all_space ws1 = true -> all_space ws2 = true ->
  mant <> "" -> all_chars mantissa_char mant = true ->
  sign_char sign = true ->
  digits <> "" -> all_chars isdecimal digits = true ->
  stops mantissa_char rest = true -> stops sign_char rest = true ->
  float_of_str (replace "D" "E" (mant +:+ String sign digits)) = Some x ->
  (extract_energies
     (lines_before
      ++ (before +:+ "EUMP2" +:+ ws1 +:+ "=" +:+ ws2
          +:+ mant +:+ String sign digits +:+ rest)
      :: lines_after)).2
  = inr (omap energy_of lines_before ++ (x * hartree_to_eV)%float
         :: omap energy_of lines_after).
Proof.
  intros Hfirst H1 H2 Hm Hmant Hsign Hd Hdigits Hr1 Hr2 Hx.
  rewrite extract_energies_eq. cbn [snd]. rewrite omap_app. cbn [omap list_omap].
  assert (Hpay : payload (before +:+ "EUMP2" +:+ ws1 +:+ "=" +:+ ws2
                          +:+ mant +:+ String sign digits +:+ rest)
                 = Some (replace "D" "E" (mant +:+ String sign digits))).
  { unfold payload. rewrite contains_app_r.
    rewrite search_group_skip by assumption.
    assert (Hmatch : Re.match_group energy_prefix energy_group
                       ("EUMP2" +:+ ws1 +:+ "=" +:+ ws2
                        +:+ mant +:+ String sign digits +:+ rest)
                     = Some (mant +:+ String sign digits)).
    { unfold Re.match_group. apply energy_prefix_matches; try assumption.
      - destruct mant as [|c mant]; [congruence|]. rewrite str_app_cons.
        cbn [all_chars] in Hmant. apply andb_true_iff in Hmant as [Hc _].
        simpl. now rewrite (mantissa_not_space c Hc).
      - rewrite energy_group_matches by assumption.
        rewrite <- str_app_assoc. now rewrite re_take_app. }
    change ("EUMP2" +:+ ws1 +:+ "=" +:+ ws2 +:+ mant +:+ String sign digits +:+ rest)
      with (String "E" ("UMP2" +:+ ws1 +:+ "=" +:+ ws2
                        +:+ mant +:+ String sign digits +:+ rest)) in *.
    rewrite search_group_cons, Hmatch. reflexivity. }
  unfold energy_of. now rewrite Hpay, Hx.
Qed.

(** X21: a log without the label of the energy gives no energy, and the
    energy file is then written empty, without an error. *)
Theorem no_energy_label_empty_file (lines : list string) (m s : float) (n : Z) :
  Forall (fun line => contains "EUMP2" line = false) lines ->
  n < float_int_bound ->
  extract_energies lines = ([], inr []) /\
  write_energies_to_file float_repr [] (Some m) (Some s) (PyInt n)
    = ([Wrote EnergyFile ""], inr tt).
Proof.
  intros Hno Hn. split.
  - rewrite extract_energies_eq.
    assert (Hc : omap complaint_of lines = [] /\ omap energy_of lines = []).
    { induction Hno as [|line lines Hline _ [IH1 IH2]]; [split; reflexivity|].
      cbn [omap list_omap]. unfold complaint_of, energy_of, payload.
      rewrite Hline. auto. }
    destruct Hc as [-> ->]. reflexivity.
  - destruct (comprehension_total (distance_at (Some m) (Some s)) (seqZ 0 (n + 1)))
      as [distances Hd].
    { apply Forall_forall. intros i Hi.
      apply list_elem_of_lookup in Hi as [j Hj].
      apply lookup_seqZ in Hj as [-> Hj]. apply distance_at_small. lia. }
    unfold write_energies_to_file, step_range.
    rewrite bind_lift_ok, Hd, bind_lift_ok.
    now rewrite zip_with_nil_r.
Qed.

(** X23: with a negative step count the energy file is written empty,
    whatever the energies. *)
Theorem negative_step_count_empty_file (energies : list float)
    (minimum_dist step_size : option float) (n : Z) :
  n < 0 ->
  write_energies_to_file float_repr energies minimum_dist step_size (PyInt n)
    = ([Wrote EnergyFile ""], inr tt).
Proof.
  intros Hn. unfold write_energies_to_file, step_range.
  rewrite bind_lift_ok.
  replace (seqZ 0 (n + 1)) with (@nil Z); [reflexivity|].
  unfold seqZ. replace (Z.to_nat (n + 1)) with 0%nat by lia. reflexivity.
Qed.

(** X24: a line in which the pattern finds nothing, with the label or
    without it, is passed over in silence. *)
Theorem extract_energies_passes_unmatched (before after : list string) (line : string) :
  Re.search_group energy_prefix energy_group line = None ->
  extract_energies (before ++ line :: after) = extract_energies (before ++ after).
Proof.
  intros Hnone. rewrite !extract_energies_eq, !omap_app. cbn [omap list_omap].
  unfold complaint_of, energy_of, payload. rewrite Hnone.
  now destruct (contains "EUMP2" line).
Qed.

(** ** The notebook as a whole *)

(** One step of a run [H : bind m k = (t, r)]: either [m] stops with an
    exception or it returns and the run goes on in [k]. *)
Tactic Notation "step_lift" hyp(H) "as" ident(a) ident(Ha) :=
  let e := fresh "e" in let H' := fresh "Hnext" in
  apply bind_lift_inv in H;
  destruct H as [(e & Ha & -> & ->) | (a & Ha & H')];
  [|cbv beta zeta in H'; rename H' into H].
Tactic Notation "step_emit" hyp(H) :=
  let t' := fresh "t" in let H' := fresh "Hnext" in
  apply bind_emit_inv in H; destruct H as (t' & H' & ->);
  cbv beta zeta in H'; rename H' into H.
Tactic Notation "step_bind" hyp(H) "as" ident(a) ident(Ha) :=
  let e := fresh "e" in let t1 := fresh "t" in let t2 := fresh "t" in
  let H' := fresh "Hnext" in
  apply bind_inv in H;
  destruct H as [(e & Ha & ->) | (t1 & a & t2 & Ha & H' & ->)];
  [|cbv beta zeta in H'; rename H' into H].
(** Membership of an event in a trace that is a concatenation of known
    pieces. *)
Ltac in_trace H :=
  repeat (rewrite in_app_iff in H || cbn [In app] in H);
  repeat match type of H with
         | _ \/ _ => destruct H as [H|H]
         | False => destruct H
         | _ = _ => first [discriminate H | injection H as <- <- | injection H as <-]
         end.

(** An event that stands in a trace given piece by piece. *)
Ltac find_event :=
  solve [repeat first [apply in_eq | apply in_cons | (apply in_or_app; right)]].

Lemma steps_app (a b : list event) : steps (a ++ b) = steps a ++ steps b.
Proof. apply omap_app. Qed.

Lemma steps_cons (ev : event) (trace : list event) :
  steps (ev :: trace)
    = match step_of ev with
      | Some s => s :: steps trace
      | None => steps trace
      end.
Proof. reflexivity. Qed.

Lemma steps_complaints (lines : list string) : steps (omap complaint_of lines) = [].
Proof.
  induction lines as [|line lines IH]; [reflexivity|].
  cbn [omap list_omap]. destruct (complaint_of line) as [ev|] eqn:Hc; [|exact IH].
  unfold complaint_of in Hc. destruct (payload line); [|discriminate].
  destruct (float_of_str s); [discriminate|]. injection Hc as <-. exact IH.
Qed.

Lemma steps_validation (p : params) (t : list event) (r : exn + unit) :
  validation_cell p = (t, r) -> r = inr tt /\ steps t = [].
Proof.
  intros H. apply validation_cell_inv in H as [-> H]. split; [reflexivity|].
  destruct (validate_parameters _ _ _) as [[]|]; subst t; reflexivity.
Qed.

(** The steps of a trace given piece by piece. *)
Ltac steps_of_trace Hv :=
  cbn [app]; repeat (rewrite steps_app || rewrite steps_cons);
  cbn [step_of]; rewrite ?Hv, ?steps_complaints; reflexivity.

(** How a run of the notebook ends: with all its steps done, or with an
    exception after some of them. *)
Lemma notebook_outcome (p : params) (geom_text basis_text : string)
    (trace : list event) (r : exn + unit) :
  notebook float_repr g16 p geom_text basis_text = (trace, r) ->
  (r = inr tt /\ steps trace = all_steps) \/
  (exists e k, r = inl e /\ (k < 7)%nat /\ steps trace = take k all_steps).
Proof.
  intros H. unfold notebook in H. cbv beta zeta in H.
  remember (read_geometry_block (readlines geom_text)) as input_geometry.
  remember (read_basis_set (readlines basis_text)) as basisset.
  remember (concat (header_opt p ++ input_geometry ++ basisset)) as opt_deck.
  step_lift H as u Hbond; [right; exists e, 0%nat; auto with lia|].
  step_bind H as u' Hval; [apply steps_validation in Hval as [? _]; discriminate|].
  apply steps_validation in Hval as [_ Hv].
  step_emit H.
  step_bind H as opt_log Hrun.
  { apply run_engine_inv in Hrun as [-> _]. right. exists e, 2%nat.
    split; [reflexivity|]. split; [lia|]. steps_of_trace Hv. }
  apply run_engine_inv in Hrun as [-> _].
  step_bind H as u'' Hcheck.
  { apply check_termination_inv in Hcheck as [(_ & _ & ?) | (_ & -> & _)];
      [discriminate|].
    right. exists e, 2%nat. split; [reflexivity|]. split; [lia|]. steps_of_trace Hv. }
  apply check_termination_inv in Hcheck as [(_ & -> & _) | (_ & _ & ?)];
    [|discriminate].
  step_lift H as optimized_structure Hstruct.
  { right. exists e, 2%nat. split; [reflexivity|]. split; [lia|]. steps_of_trace Hv. }
  step_lift H as first_line Hfirst.
  { right. exists e, 2%nat. split; [reflexivity|]. split; [lia|]. steps_of_trace Hv. }
  remember (concat (header_scan p ++ (first_line :: optimized_structure) ++ basisset))
    as scan_deck.
  step_emit H.
  step_bind H as updated Hupd.
  { apply update_scan_bond_inv in Hupd
      as [(e' & _ & -> & _) | (g & lines' & _ & _ & ?)]; [|discriminate].
    right. exists e, 3%nat. split; [reflexivity|]. split; [lia|]. steps_of_trace Hv. }
  apply update_scan_bond_inv in Hupd
    as [(e' & _ & _ & ?) | (g & lines' & _ & -> & [= ->])]; [discriminate|].
  cbn [fst snd] in H.
  step_bind H as scan_log Hrun.
  { apply run_engine_inv in Hrun as [-> _]. right. exists e, 5%nat.
    split; [reflexivity|]. split; [lia|]. steps_of_trace Hv. }
  apply run_engine_inv in Hrun as [-> _].
  step_bind H as u3 Hcheck.
  { apply check_termination_inv in Hcheck as [(_ & _ & ?) | (_ & -> & _)];
      [discriminate|].
    right. exists e, 5%nat. split; [reflexivity|]. split; [lia|]. steps_of_trace Hv. }
  apply check_termination_inv in Hcheck as [(_ & -> & _) | (_ & _ & ?)];
    [|discriminate].
  step_bind H as u4 Hxyz.
  { apply extract_data_from_log_inv in Hxyz
      as [(e' & _ & -> & _) | (blocks & _ & _ & ?)]; [|discriminate].
    right. exists e, 5%nat. split; [reflexivity|]. split; [lia|]. steps_of_trace Hv. }
  apply extract_data_from_log_inv in Hxyz
    as [(e' & _ & _ & ?) | (blocks & _ & -> & _)]; [discriminate|].
  rewrite extract_energies_eq in H.
  step_bind H as energies Hen; [discriminate|].
  injection Hen as <- <-.
  apply write_energies_to_file_inv in H
    as [(e' & -> & ->) | (n & distances & _ & _ & -> & ->)].
  - right. exists e', 6%nat. split; [reflexivity|]. split; [lia|].
    steps_of_trace Hv.
  - left. split; [reflexivity|].
    steps_of_trace Hv.
Qed.

(** X25: the steps of any run of the notebook are the first steps of a
    whole run, in their order, and the run ends without an exception
    exactly when all of them are done. *)
Theorem notebook_steps (p : params) (geom_text basis_text : string)
    (trace : list event) (r : exn + unit) :
  notebook float_repr g16 p geom_text basis_text = (trace, r) ->
  steps trace `prefix_of` all_steps /\
  (r = inr tt <-> steps trace = all_steps).
Proof.
  intros H.
  destruct (notebook_outcome _ _ _ _ _ H) as [[-> ->]|(e & k & -> & Hk & ->)].
  - split; [reflexivity | tauto].
  - split; [apply prefix_take|].
    split; [discriminate|]. intros Heq. apply (f_equal length) in Heq.
    rewrite length_take in Heq. simpl in Heq. lia.
Qed.

(** X26: the notebook stops at the check of the geometry file, with nothing
    printed, written or run, exactly when no line of the file passes the
    test of that cell. *)
Theorem precheck_failure_halts (p : params) (geom_text basis_text : string) :
  notebook float_repr g16 p geom_text basis_text
    = ([], inl (bond_not_in_geometry (scan_bond p)))
  <-> Forall (fun line => accepted (scan_bond p) line = false) (readlines geom_text).
Proof.
  destruct (check_scan_bond_cases (scan_bond p) (readlines geom_text))
    as [[Hok Hex]|[Hno Hall]].
  - split.
    + unfold notebook. rewrite Hok, bind_lift_ok.
      rewrite (bind_ok _ _ _ _ (validation_cell_returns p)). cbn [fst snd].
      rewrite bind_emit. cbn [fst snd]. intros [= Ht _].
      destruct (validation_cell p).1; discriminate.
    + intros Hall. apply Exists_exists in Hex as (line & Hin & Hacc).
      rewrite Forall_forall in Hall. specialize (Hall line Hin). congruence.
  - split; [intros _; exact Hall|]. intros _.
    unfold notebook. now rewrite Hno, bind_lift_fail.
Qed.

(** X27: with a geometry file that gives an empty geometry block, the
    optimisation runs on a deck without a molecule, and the cell that
    composes the scan deck then ends with [IndexError]. *)
Theorem empty_geometry_block_index_error
    (p : params) (geom_text basis_text log : string) (structure : list string) :
  check_scan_bond (scan_bond p) (readlines geom_text) = inr tt ->
  read_geometry_block (readlines geom_text) = [] ->
  g16 Opt (concat (header_opt p ++ read_basis_set (readlines basis_text))) = Some log ->
  terminated_normally (readlines log) = true ->
  extract_optimized_structure (readlines log) = inr structure ->
  notebook float_repr g16 p geom_text basis_text
    = ((validation_cell p).1
         ++ [ Wrote OptDeck (concat (header_opt p ++ read_basis_set (readlines basis_text)));
              EngineRun Opt (concat (header_opt p ++ read_basis_set (readlines basis_text)));
              Printed (stage_done Opt) ],
       inl IndexError).
Proof.
  intros Hbond Hgeom Hlog Hterm Hstruct.
  unfold notebook. rewrite Hgeom. cbn [app].
  rewrite Hbond, bind_lift_ok.
  rewrite (bind_ok _ _ _ _ (validation_cell_returns p)). cbn [fst snd].
  rewrite bind_emit.
  rewrite (bind_ok _ _ _ _ (run_engine_log g16 _ _ _ Hlog)). cbn [fst snd].
  rewrite (bind_ok _ _ _ _ (check_termination_ok Opt _ Hterm)). cbn [fst snd].
  rewrite Hstruct, bind_lift_ok, bind_lift_fail. reflexivity.
Qed.

Lemma float_div_zero (x : float) : float_div x (PyInt 0) = inl ZeroDivisionError.
Proof. reflexivity. Qed.

(** X28: what a run that ends without an exception needed: a line of the
    geometry file that passes the check, a geometry block that is not
    empty, and a step count that is an integer other than zero. *)
Theorem complete_run_requirements (p : params) (geom_text basis_text : string)
    (trace : list event) :
  notebook float_repr g16 p geom_text basis_text = (trace, inr tt) ->
  Exists (fun line => accepted (scan_bond p) line = true) (readlines geom_text) /\
  read_geometry_block (readlines geom_text) <> [] /\
  exists n, scan_step_number p = PyInt n /\ n <> 0.
Proof.
  remember (inr tt) as r eqn:Hr. intros H.
  unfold notebook in H. cbv beta zeta in H.
  remember (read_geometry_block (readlines geom_text)) as input_geometry.
  remember (read_basis_set (readlines basis_text)) as basisset.
  remember (concat (header_opt p ++ input_geometry ++ basisset)) as opt_deck.
  step_lift H as u Hbond; [discriminate|].
  step_bind H as u' Hval; [discriminate|].
  step_emit H.
  step_bind H as opt_log Hrun; [discriminate|].
  step_bind H as u'' Hcheck; [discriminate|].
  step_lift H as optimized_structure Hstruct; [discriminate|].
  step_lift H as first_line Hfirst; [discriminate|].
  remember (concat (header_scan p ++ (first_line :: optimized_structure) ++ basisset))
    as scan_deck.
  step_emit H.
  step_bind H as updated Hupd; [discriminate|].
  apply update_scan_bond_inv in Hupd
    as [(e' & _ & _ & ?) | (g & deck & Hloop & -> & [= ->])]; [discriminate|].
  cbn [fst snd] in H.
  step_bind H as scan_log Hscan; [discriminate|].
  step_bind H as u3 Hcheck'; [discriminate|].
  step_bind H as u4 Hxyz; [discriminate|].
  rewrite extract_energies_eq in H.
  step_bind H as energies Hen; [discriminate|].
  apply write_energies_to_file_inv in H
    as [(e' & _ & ?) | (n & distances & Hn & _ & _ & _)]; [congruence|].
  split; [|split].
  - destruct (check_scan_bond_cases (scan_bond p) (readlines geom_text))
      as [[_ Hex]|[Hno _]]; [assumption | congruence].
  - intros Hnil. rewrite Hnil in Hfirst. discriminate.
  - exists n. split; [assumption|]. intros ->.
    pose proof (update_scan_bond_loop_inv float_repr p (scan_bond p) _ [] _ _ _
                  eq_refl Hloop)
      as (k & line & name & token & x & m & mx & s & n' & _ & _ & _ & _ & _ & _
          & _ & _ & Hdiv & _).
    rewrite Hn, float_div_zero in Hdiv. discriminate.
Qed.

Lemma validation_no_run (p : params) (t : list event) (r : exn + unit)
    (s : stage) (deck : string) (rest : list event) :
  validation_cell p = (t, r) ->
  In (EngineRun s deck) (t ++ rest) -> In (EngineRun s deck) rest.
Proof.
  intros H%validation_cell_inv Hin. destruct H as [_ H].
  destruct (validate_parameters _ _ _) as [[]|]; subst t; in_trace Hin; auto.
Qed.

(** X29: what the engine is run on.  The optimisation runs on the header,
    the geometry block and the basis set, after the check of the geometry
    file has passed.  The scan runs only after an optimisation whose log
    ends normally and has a final structure, and on nothing but the deck
    that [update_scan_bond] wrote from the scan header, the first line of
    the geometry block, the structure extracted from that log and the basis
    set. *)
Theorem engine_run_inputs (p : params) (geom_text basis_text : string)
    (trace : list event) (r : exn + unit) (s : stage) (deck : string) :
  notebook float_repr g16 p geom_text basis_text = (trace, r) ->
  In (EngineRun s deck) trace ->
  check_scan_bond (scan_bond p) (readlines geom_text) = inr tt /\
  match s with
  | Opt =>
      deck = concat (header_opt p ++ read_geometry_block (readlines geom_text)
                     ++ read_basis_set (readlines basis_text))
  | Scan =>
      exists (opt_log first : string) (rest structure : list string)
             (g : globals) (lines' : list string),
        g16 Opt (concat (header_opt p ++ read_geometry_block (readlines geom_text)
                         ++ read_basis_set (readlines basis_text))) = Some opt_log /\
        terminated_normally (readlines opt_log) = true /\
        read_geometry_block (readlines geom_text) = first :: rest /\
        extract_optimized_structure (readlines opt_log) = inr structure /\
        update_scan_bond_loop float_repr p (scan_bond p)
          (readlines (concat (header_scan p ++ (first :: structure)
                              ++ read_basis_set (readlines basis_text))))
          (readlines (concat (header_scan p ++ (first :: structure)
                              ++ read_basis_set (readlines basis_text)))) 0
          = inr (g, lines') /\
        deck = concat lines'
  end.
Proof.
  intros H Hin. unfold notebook in H. cbv beta zeta in H.
  remember (read_geometry_block (readlines geom_text)) as input_geometry.
  remember (read_basis_set (readlines basis_text)) as basisset.
  remember (concat (header_opt p ++ input_geometry ++ basisset)) as opt_deck.
  step_lift H as u Hbond; [destruct Hin|].
  destruct u. split; [assumption|].
  step_bind H as u' Hval.
  { apply validation_cell_inv in Hval as [? _]. discriminate. }
  apply (validation_no_run _ _ _ _ _ _ Hval) in Hin. clear Hval.
  step_emit H.
  step_bind H as opt_log Hrun.
  { apply run_engine_inv in Hrun as [-> _]. in_trace Hin. reflexivity. }
  apply run_engine_inv in Hrun as [-> Hr].
  destruct (g16 Opt opt_deck) as [opt_log'|] eqn:Hopt; [|discriminate].
  injection Hr as <-.
  step_bind H as u'' Hcheck.
  { apply check_termination_inv in Hcheck as [(_ & _ & ?) | (_ & -> & _)];
      [discriminate|].
    in_trace Hin. reflexivity. }
  apply check_termination_inv in Hcheck as [(Hgood & -> & _) | (_ & _ & ?)];
    [|discriminate].
  step_lift H as optimized_structure Hstruct; [in_trace Hin; reflexivity|].
  step_lift H as first_line Hfirst; [in_trace Hin; reflexivity|].
  destruct input_geometry as [|first rest]; [discriminate|].
  injection Hfirst as ->.
  remember (concat (header_scan p ++ (first_line :: optimized_structure) ++ basisset))
    as scan_deck.
  step_emit H.
  step_bind H as updated Hupd.
  { apply update_scan_bond_inv in Hupd
      as [(e' & _ & -> & _) | (g & lines' & _ & _ & ?)]; [|discriminate].
    in_trace Hin. reflexivity. }
  apply update_scan_bond_inv in Hupd
    as [(e' & _ & _ & ?) | (g & lines' & Hloop & -> & [= ->])]; [discriminate|].
  cbn [fst snd] in H.
  assert (Hscan : exists (opt_log0 first0 : string) (rest0 structure : list string)
                    (g0 : globals) (lines0 : list string),
             Some opt_log = Some opt_log0 /\
             terminated_normally (readlines opt_log0) = true /\
             first_line :: rest = first0 :: rest0 /\
             extract_optimized_structure (readlines opt_log0) = inr structure /\
             update_scan_bond_loop float_repr p (scan_bond p)
               (readlines (concat (header_scan p ++ (first0 :: structure) ++ basisset)))
               (readlines (concat (header_scan p ++ (first0 :: structure) ++ basisset))) 0
               = inr (g0, lines0) /\
             concat lines' = concat lines0).
  { exists opt_log, first_line, rest, optimized_structure, g, lines'.
    subst scan_deck. auto 10. }
  step_bind H as scan_log Hrun.
  { apply run_engine_inv in Hrun as [-> _]. in_trace Hin; [reflexivity | exact Hscan]. }
  apply run_engine_inv in Hrun as [-> _].
  step_bind H as u3 Hcheck.
  { apply check_termination_inv in Hcheck as [(_ & _ & ?) | (_ & -> & _)];
      [discriminate|].
    in_trace Hin; [reflexivity | exact Hscan]. }
  apply check_termination_inv in Hcheck as [(_ & -> & _) | (_ & _ & ?)];
    [|discriminate].
  step_bind H as u4 Hxyz.
  { apply extract_data_from_log_inv in Hxyz
      as [(e' & _ & -> & _) | (blocks & _ & _ & ?)]; [|discriminate].
    in_trace Hin; [reflexivity | exact Hscan]. }
  apply extract_data_from_log_inv in Hxyz
    as [(e' & _ & _ & ?) | (blocks & _ & -> & _)]; [discriminate|].
  rewrite extract_energies_eq in H.
  step_bind H as energies Hen; [discriminate|].
  injection Hen as <- <-.
  apply write_energies_to_file_inv in H
    as [(e' & -> & _) | (n & distances & _ & _ & -> & _)];
    in_trace Hin; try reflexivity; try exact Hscan;
    apply complaints_printed in Hin as [msg ?]; discriminate.
Qed.

(** ** The scan deck read back *)

Lemma is_line_app_text (a b : string) :
  no_break a = true -> is_line (a +:+ b) = is_line b.
Proof.
  induction a as [|c a IH]; [now rewrite str_app_nil_l|].
  unfold no_break. cbn [all_chars]. rewrite str_app_cons. cbn [is_line].
  intros [[Hlf Hcr]%andb_true_iff Ha]%andb_true_iff.
  apply negb_true_iff in Hlf. rewrite Hlf, Hcr. now apply IH.
Qed.

Lemma is_line_replace (c : ascii) (by_ s : string) :
  c <> "010"%char -> no_break by_ = true ->
  is_line s = true -> is_line (replace c by_ s) = true.
Proof.
  intros Hc Hby. induction s as [|d s IH]; [discriminate|].
  cbn [is_line replace]. destruct (Ascii.eqb_spec d "010") as [->|Hd].
  - intros ->%String.eqb_eq.
    destruct (Ascii.eqb_spec "010" c) as [<-|_]; [congruence | reflexivity].
  - intros [Hcr Hs]%andb_true_iff. destruct (Ascii.eqb d c).
    + rewrite is_line_app_text by assumption. now apply IH.
    + cbn [is_line]. apply Ascii.eqb_neq in Hd. rewrite Hd, Hcr. now apply IH.
Qed.

Lemma convert_line_is_line (line : string) :
  is_line line = true -> is_line (convert_line line) = true.
Proof.
  intros Hline. unfold convert_line.
  destruct (contains "Variables:" line); [reflexivity|].
  apply is_line_replace; [discriminate | reflexivity |].
  apply is_line_replace; [discriminate | reflexivity | assumption].
Qed.

Lemma until_digit_lines (P : string -> Prop) (lines : list string) :
  Forall P lines -> Forall P (until_digit lines).
Proof.
  induction 1 as [|line lines Hline _ IH]; [constructor|].
  cbn [until_digit]. destruct (starts_with_digit (strip line)); now constructor.
Qed.

Lemma structure_lines (lines structure : list string) :
  Forall (fun line => is_line line = true) lines ->
  extract_optimized_structure lines = inr structure ->
  Forall (fun line => is_line line = true) structure.
Proof.
  intros Hlines. unfold extract_optimized_structure.
  destruct (find_start_index lines 0) as [start_index|]; [|discriminate].
  intros [= <-]. rewrite copy_structure_eq. cbn [app].
  pose proof (until_digit_lines _ _ (Forall_drop _ start_index _ Hlines)) as Hu.
  induction Hu as [|line rest Hline _ IH]; [constructor|].
  cbn [map]. constructor; [now apply convert_line_is_line | exact IH].
Qed.

Lemma geometry_block_lines (lines : list string) :
  Forall (fun line => is_line line = true) lines ->
  Forall (fun line => is_line line = true) (read_geometry_block lines).
Proof.
  intros Hlines.
  destruct (read_geometry_block_infix lines) as (before & after & Heq).
  rewrite Heq in Hlines.
  now apply Forall_app in Hlines as [_ [H _]%Forall_app].
Qed.

Lemma header_scan_lines (p : params) :
  no_break (molecule_name p) = true -> no_break (method p) = true ->
  no_break (title_card p) = true ->
  Forall (fun line => is_line line = true) (header_scan p).
Proof.
  intros Hname Hmethod Htitle. unfold header_scan.
  pose proof (token_no_break _ (str_of_int_token (memory p))) as Hmem.
  pose proof (token_no_break _ (str_of_int_token (n_cpus p))) as Hcpu.
  repeat constructor;
    repeat (rewrite is_line_app_text by (assumption || reflexivity));
    reflexivity.
Qed.

(** X30: the text of the scan deck, read back as [update_scan_bond] reads
    it, gives the very lines it was composed of: the header, the first
    line of the geometry file, the optimised structure and the basis set
    block.  It needs the name, the method and the title free of line
    breaks and the three files read to end with a line feed. *)
Theorem scan_deck_read_back (p : params)
    (geometry_text opt_log basis_text first : string)
    (rest structure : list string) :
  no_break (molecule_name p) = true -> no_break (method p) = true ->
  no_break (title_card p) = true ->
  ends_line geometry_text = true -> ends_line opt_log = true ->
  ends_line basis_text = true ->
  read_geometry_block (readlines geometry_text) = first :: rest ->
  extract_optimized_structure (readlines opt_log) = inr structure ->
  readlines
    (concat (header_scan p ++ (first :: structure)
             ++ read_basis_set (readlines basis_text)))
  = header_scan p ++ (first :: structure)
    ++ read_basis_set (readlines basis_text).
Proof.
  intros Hname Hmethod Htitle Hgeo Hlog Hbasis Hblock Hstruct.
  apply readlines_concat.
  apply Forall_app. split; [now apply header_scan_lines|].
  apply Forall_app. split; [|apply basis_set_lines, readlines_lines, Hbasis].
  constructor.
  - pose proof (geometry_block_lines _ (readlines_lines _ Hgeo)) as Hg.
    rewrite Hblock in Hg. now inversion Hg.
  - eapply structure_lines; [apply readlines_lines, Hlog | exact Hstruct].
Qed.

End Cells.

(** ** Examples *)

(** X1, witness: the sample geometry file has the line of the bond B4. *)
Lemma check_scan_bond_fields_witness :
  exists line token, In line Sample.geom_lines /\ split line = ["B4"; token].
Proof.
  apply (check_scan_bond_fields "B4" Sample.geom_lines); vm_compute; reflexivity.
Defined.

(** X2, witness: the sample bounds and step count. *)
Lemma validate_parameters_accepts_witness :
  validate_parameters (PyFloat 0.7) (PyFloat 1.75) (PyInt 105) = inr tt <->
  (0 <? 0.7)%float = true /\ (0 <? 1.75)%float = true /\
  (0.7 <? 1.75)%float = true /\ 0 < 105.
Proof.
  apply (validate_parameters_accepts 0.7 1.75 105); reflexivity.
Defined.

(** X3, witness: the sample geometry file. *)
Lemma read_geometry_block_layout_witness :
  read_geometry_block Sample.geom_lines
    = [ "0 1" +:+ LF; " H" +:+ LF; " F   1   B1" +:+ LF;
        " H   2   B4   1   A1" +:+ LF; LF; "   B1   0.92" +:+ LF;
        "   B4   1.40000000" +:+ LF; "   A1   104.5" +:+ LF ].
Proof.
  apply (read_geometry_block_layout
           [] ["# hf/3-21g" +:+ LF] ["Title Card Required" +:+ LF]
           [ "0 1" +:+ LF; " H" +:+ LF; " F   1   B1" +:+ LF;
             " H   2   B4   1   A1" +:+ LF ]
           [ "   B1   0.92" +:+ LF; "   B4   1.40000000" +:+ LF;
             "   A1   104.5" +:+ LF ]
           [LF] ("%chk=h3f.chk" +:+ LF) LF LF LF);
    try reflexivity;
    try (right; exists LF, []; split; reflexivity);
    repeat constructor.
Defined.

(** X5, witness: the sample basis set file. *)
Lemma read_basis_set_idempotent_witness :
  let block := [ LF; "H 0" +:+ LF; "S 1 1.0" +:+ LF; "****" +:+ LF; LF ] in
  readlines (concat block) = block /\
  read_basis_set (readlines (concat block)) = block.
Proof.
  cbv zeta. apply (read_basis_set_idempotent Sample.basis_text). reflexivity.
Defined.

(** X6, witness: the structure of the sample optimisation log. *)
Lemma extract_optimized_structure_clean_witness :
  Forall (fun line => contains "," line = false /\ contains "=" line = false)
    [ " H" +:+ LF; " F   1   B1" +:+ LF; " H   2   B4   1   A1" +:+ LF; LF;
      " B1   0.93" +:+ LF; " B4   1.40000000" +:+ LF; " A1   104.5" +:+ LF ].
Proof.
  apply (extract_optimized_structure_clean Sample.opt_log_lines). reflexivity.
Defined.

(** X7, witness: the line of B4 in the sample optimisation log. *)
Lemma variable_line_selected_witness :
  convert_line (" " +:+ "B4" +:+ "=" +:+ "1.40000000" +:+ LF)
    = " " +:+ "B4" +:+ "   " +:+ "1.40000000" +:+ LF /\
  split (" " +:+ "B4" +:+ "   " +:+ "1.40000000" +:+ LF) = ["B4"; "1.40000000"] /\
  selected "B4" (" " +:+ "B4" +:+ "   " +:+ "1.40000000" +:+ LF) = true.
Proof.
  apply (variable_line_selected " " "B4" "1.40000000" LF); reflexivity.
Defined.

(** X8, witness: the line of B10 is one that a scan of B1 selects. *)
Lemma selected_by_fields_witness :
  selected "B1" (" B10   0.92" +:+ LF) = true <->
  exists name token,
    split (" B10   0.92" +:+ LF) = [name; token] /\ startswith name "B1" = true.
Proof.
  apply (selected_by_fields "B1" (" B10   0.92" +:+ LF)). reflexivity.
Defined.

(** X10, witness: the line of B4 in the variable section of a deck. *)
Lemma accepted_line_is_found_witness :
  selected "B4" (" B4   1.40000000" +:+ LF) = true /\
  (update_scan_bond float_str Sample.p Cases.deck "B4").2
    <> inl (bond_not_in_deck "B4").
Proof.
  apply (accepted_line_is_found float_str Sample.p Cases.deck "B4"
           (" B4   1.40000000" +:+ LF)).
  - unfold Cases.deck. cbn [In]. right. left. reflexivity.
  - reflexivity.
Defined.

(** X11, witness: the variable section of a deck, with the sample parameters. *)
Lemma update_scan_bond_one_line_witness :
  let lines' := [ " B1   0.93" +:+ LF;
                  " B4   0.98000000   105   0.013999999999999997" +:+ LF;
                  " A1   104.5" +:+ LF ] in
  let g := {| minimum_dist := Some 0.9799999999999999%float;
              step_size := Some 0.013999999999999997%float |} in
  [Wrote ScanDeck (concat lines')] = [Wrote ScanDeck (concat lines')] /\
  length lines' = length Cases.deck /\
  exists (k : nat) (line : string) (m s : float) (n : Z),
    Cases.deck !! k = Some line /\
    selected "B4" line = true /\
    (forall j l, (j < k)%nat -> Cases.deck !! j = Some l -> selected "B4" l = false) /\
    g = {| minimum_dist := Some m; step_size := Some s |} /\
    lines' !! k = Some (" " +:+ "B4" +:+ "   " +:+ format_8f m +:+ "   "
                        +:+ str_of_int n +:+ "   " +:+ float_str s +:+ LF) /\
    (forall j, j <> k -> lines' !! j = Cases.deck !! j).
Proof.
  cbv zeta.
  apply (update_scan_bond_one_line float_str Sample.p Cases.deck "B4").
  vm_compute. reflexivity.
Defined.

(** X12, witness: a line of B4 whose second field is not a number. *)
Lemma update_scan_bond_bad_number_witness :
  update_scan_bond float_str Sample.p
      ([" B1   0.93" +:+ LF] ++ (" B4   abc" +:+ LF) :: [" B4   1.40000000" +:+ LF])
      "B4"
    = ([], inl (FloatValueError "abc")).
Proof.
  apply (update_scan_bond_bad_number float_str Sample.p "B4" (" B4   abc" +:+ LF)
           "B4" "abc" [" B1   0.93" +:+ LF] [" B4   1.40000000" +:+ LF]);
    try reflexivity.
  repeat constructor.
Defined.

(** X13, witness: the sample parameters with a step count of zero. *)
Lemma update_scan_bond_zero_steps_witness :
  update_scan_bond float_str Cases.p_zero
      ([" B1   0.93" +:+ LF] ++ (" B4   1.40000000" +:+ LF) :: [" A1   104.5" +:+ LF])
      "B4"
    = ([], inl ZeroDivisionError).
Proof.
  apply (update_scan_bond_zero_steps float_str Cases.p_zero "B4"
           (" B4   1.40000000" +:+ LF) "B4" "1.40000000"
           [" B1   0.93" +:+ LF] [" A1   104.5" +:+ LF] 1.4 0.7 1.75);
    try reflexivity.
  repeat constructor.
Defined.

(** X14, witness: the same deck, read from its text. *)
Lemma update_scan_bond_keeps_text_witness :
  exists (before after : list string) (line : string) (m s : float) (n : Z),
    readlines (concat Cases.deck) = before ++ line :: after /\
    Forall (fun l => selected "B4" l = false) before /\
    selected "B4" line = true /\
    {| minimum_dist := Some 0.9799999999999999%float;
       step_size := Some 0.013999999999999997%float |}
      = {| minimum_dist := Some m; step_size := Some s |} /\
    int_of_pyval (scan_step_number Sample.p) = inr n /\
    universal_newlines (concat Cases.deck)
      = concat before +:+ line +:+ concat after /\
    [Wrote ScanDeck
       (concat [ " B1   0.93" +:+ LF;
                 " B4   0.98000000   105   0.013999999999999997" +:+ LF;
                 " A1   104.5" +:+ LF ])]
      = [Wrote ScanDeck
           (concat before
            +:+ (" " +:+ "B4" +:+ "   " +:+ format_8f m +:+ "   "
                 +:+ str_of_int n +:+ "   " +:+ float_str s +:+ LF)
            +:+ concat after)].
Proof.
  apply (update_scan_bond_keeps_text float_str Sample.p (concat Cases.deck) "B4" _
           {| minimum_dist := Some 0.9799999999999999%float;
              step_size := Some 0.013999999999999997%float |}
           [ " B1   0.93" +:+ LF;
             " B4   0.98000000   105   0.013999999999999997" +:+ LF;
             " A1   104.5" +:+ LF ]).
  vm_compute. reflexivity.
Defined.

(** X15, witness: the deck written for the sample parameters. *)
Lemma rewritten_line_not_selected_witness :
  let lines' := [ " B1   0.93" +:+ LF;
                  " B4   0.98000000   105   0.013999999999999997" +:+ LF;
                  " A1   104.5" +:+ LF ] in
  exists (k : nat) (new_line : string) (n : Z),
    lines' !! k = Some new_line /\
    split new_line = [ "B4"; format_8f 0.9799999999999999; str_of_int n;
                       float_str 0.013999999999999997 ] /\
    selected "B4" new_line = false /\
    forall j l, (j <= k)%nat -> lines' !! j = Some l -> selected "B4" l = false.
Proof.
  cbv zeta.
  apply (rewritten_line_not_selected float_str Sample.p Cases.deck "B4"
           [Wrote ScanDeck
              (concat [ " B1   0.93" +:+ LF;
                        " B4   0.98000000   105   0.013999999999999997" +:+ LF;
                        " A1   104.5" +:+ LF ])]);
    vm_compute; reflexivity.
Defined.

(** X17, witness: the sample scan log. *)
Lemma trajectory_atom_fields_witness :
  exists blocks : list (list string),
    (extract_data_from_log Sample.scan_log_lines).1
      = [Wrote Trajectory
           (concat (map (fun atoms => render_block atoms +:+ LF) blocks))] /\
    Forall (fun atoms =>
              atoms <> [] /\
              Forall (fun atom =>
                        exists element x y z,
                          atom = atom_line element x y z /\
                          split atom = [element; x; y; z])
                     atoms)
           blocks.
Proof.
  apply (trajectory_atom_fields Sample.scan_log_lines). vm_compute. reflexivity.
Defined.

(** X18, witness: the sample scan log. *)
Lemma trajectory_file_lines_witness :
  exists (blocks : list (list string)) (content : string),
    (extract_data_from_log Sample.scan_log_lines).1 = [Wrote Trajectory content] /\
    Forall (fun atoms => atoms <> []) blocks /\
    readlines content = flat_map block_lines blocks.
Proof.
  apply (trajectory_file_lines Sample.scan_log_lines). vm_compute. reflexivity.
Defined.

(** X19, witness: the table of the sample scan log. *)
Lemma single_table_trajectory_witness :
  extract_data_from_log Sample.scan_log_lines
    = ([Wrote Trajectory
          (render_block [ "H 0.000000 0.000000 0.100000";
                          "F 0.000000 0.000000 -0.900000";
                          "H 1.000000 0.000000 -0.900000" ] +:+ LF)],
       inr tt).
Proof.
  apply (single_table_trajectory
           [] (take 4 (drop 1 Sample.table_lines)) (take 3 (drop 5 Sample.table_lines))
           (drop 9 Sample.scan_log_lines)
           [ "H 0.000000 0.000000 0.100000"; "F 0.000000 0.000000 -0.900000";
             "H 1.000000 0.000000 -0.900000" ]
           ("                         Standard orientation:" +:+ LF)
           (" ------------------------------------------------------" +:+ LF)).
  - constructor.
  - reflexivity.
  - reflexivity.
  - repeat (constructor;
            [split; [reflexivity|]; do 8 eexists;
             split; [reflexivity|]; split; reflexivity|]).
    constructor.
  - reflexivity.
  - repeat (constructor; [reflexivity|]). constructor.
Defined.

(** X20, witness: the first energy line of the sample scan log. *)
Lemma extract_energies_log_notation_witness :
  (extract_energies
     ([] ++ (" E2 =    -0.2D+00 " +:+ "EUMP2" +:+ " " +:+ "=" +:+ "    "
             +:+ "-0.10023456789D" +:+ String "+" "03" +:+ LF) :: [])).2
  = inr (omap energy_of [] ++ ((-100.23456789) * hartree_to_eV)%float
         :: omap energy_of []).
Proof.
  apply (extract_energies_log_notation " E2 =    -0.2D+00 " " " "    "
           "-0.10023456789D" "03" LF "+" (-100.23456789)%float [] []);
    try reflexivity; try discriminate.
Defined.

(** X21, witness: a log with the table of the geometry only. *)
Lemma no_energy_label_empty_file_witness :
  extract_energies Sample.table_lines = ([], inr []) /\
  write_energies_to_file float_str [] (Some 0.98%float) (Some 0.014%float) (PyInt 105)
    = ([Wrote EnergyFile ""], inr tt).
Proof.
  apply (no_energy_label_empty_file float_str Sample.table_lines 0.98 0.014 105).
  - repeat constructor.
  - reflexivity.
Defined.

(** X23, witness: one energy and a step count of -5. *)
Lemma negative_step_count_empty_file_witness :
  write_energies_to_file float_str [(-2727.5)%float]
      (Some 0.98%float) (Some (-0.3)%float) (PyInt (-5))
    = ([Wrote EnergyFile ""], inr tt).
Proof.
  apply (negative_step_count_empty_file float_str [(-2727.5)%float]
           (Some 0.98%float) (Some (-0.3)%float) (-5)).
  reflexivity.
Defined.

(** X24, witness: a line with the label and no number after it. *)
Lemma extract_energies_passes_unmatched_witness :
  extract_energies
    ([] ++ (" EUMP2 not converged" +:+ LF)
        :: [" E2 =    -0.2D+00 EUMP2 =    -0.10023456789D+03" +:+ LF])
  = extract_energies
      ([] ++ [" E2 =    -0.2D+00 EUMP2 =    -0.10023456789D+03" +:+ LF]).
Proof.
  apply (extract_energies_passes_unmatched
           [] [" E2 =    -0.2D+00 EUMP2 =    -0.10023456789D+03" +:+ LF]
           (" EUMP2 not converged" +:+ LF)).
  reflexivity.
Defined.

(** X25, witness: a run that stops after the optimisation. *)
Lemma notebook_steps_witness :
  let run := notebook float_str Sample.g16_no_structure Sample.p
               Sample.geom_text Sample.basis_text in
  steps run.1 `prefix_of` all_steps /\
  (run.2 = inr tt <-> steps run.1 = all_steps).
Proof.
  cbv zeta.
  apply (notebook_steps float_str Sample.g16_no_structure Sample.p
           Sample.geom_text Sample.basis_text).
  apply surjective_pairing.
Defined.

(** X27, witness: a geometry file without the blank lines before the molecule. *)
Lemma empty_geometry_block_index_error_witness :
  notebook float_str Sample.g16 Sample.p Cases.geom_no_block Sample.basis_text
    = ((validation_cell Sample.p).1
         ++ [ Wrote OptDeck (concat (header_opt Sample.p
                                     ++ read_basis_set (readlines Sample.basis_text)));
              EngineRun Opt (concat (header_opt Sample.p
                                     ++ read_basis_set (readlines Sample.basis_text)));
              Printed (stage_done Opt) ],
       inl IndexError).
Proof.
  apply (empty_geometry_block_index_error float_str Sample.g16 Sample.p
           Cases.geom_no_block Sample.basis_text (concat Sample.opt_log_lines)
           [ " H" +:+ LF; " F   1   B1" +:+ LF; " H   2   B4   1   A1" +:+ LF; LF;
             " B1   0.93" +:+ LF; " B4   1.40000000" +:+ LF; " A1   104.5" +:+ LF ]);
    vm_compute; reflexivity.
Defined.

(** X28, witness: the sample run. *)
Lemma complete_run_requirements_witness :
  Exists (fun line => accepted (scan_bond Sample.p) line = true)
         (readlines Sample.geom_text) /\
  read_geometry_block (readlines Sample.geom_text) <> [] /\
  exists n, scan_step_number Sample.p = PyInt n /\ n <> 0.
Proof.
  apply (complete_run_requirements float_str Sample.g16 Sample.p
           Sample.geom_text Sample.basis_text
           (notebook float_str Sample.g16 Sample.p
              Sample.geom_text Sample.basis_text).1).
  vm_compute. reflexivity.
Defined.

(** X29, witness: the scan of the sample run. *)
Lemma engine_run_inputs_witness :
  let deck :=
    concat (header_scan Sample.p
            ++ [ "0 1" +:+ LF; " H" +:+ LF; " F   1   B1" +:+ LF;
                 " H   2   B4   1   A1" +:+ LF; LF; " B1   0.93" +:+ LF;
                 " B4   0.98000000   105   0.013999999999999997" +:+ LF;
                 " A1   104.5" +:+ LF ]
            ++ read_basis_set Sample.basis_lines) in
  check_scan_bond (scan_bond Sample.p) (readlines Sample.geom_text) = inr tt /\
  exists (opt_log first : string) (rest structure : list string)
         (g : globals) (lines' : list string),
    Sample.g16 Opt (concat (header_opt Sample.p
                            ++ read_geometry_block (readlines Sample.geom_text)
                            ++ read_basis_set (readlines Sample.basis_text)))
      = Some opt_log /\
    terminated_normally (readlines opt_log) = true /\
    read_geometry_block (readlines Sample.geom_text) = first :: rest /\
    extract_optimized_structure (readlines opt_log) = inr structure /\
    update_scan_bond_loop float_str Sample.p (scan_bond Sample.p)
      (readlines (concat (header_scan Sample.p ++ (first :: structure)
                          ++ read_basis_set (readlines Sample.basis_text))))
      (readlines (concat (header_scan Sample.p ++ (first :: structure)
                          ++ read_basis_set (readlines Sample.basis_text)))) 0
      = inr (g, lines') /\
    deck = concat lines'.
Proof.
  cbv zeta.
  apply (engine_run_inputs float_str Sample.g16 Sample.p
           Sample.geom_text Sample.basis_text
           (notebook float_str Sample.g16 Sample.p
              Sample.geom_text Sample.basis_text).1
           (notebook float_str Sample.g16 Sample.p
              Sample.geom_text Sample.basis_text).2 Scan).
  - apply surjective_pairing.
  - vm_compute. do 5 right. left. reflexivity.
Defined.

(** X30, witness: the scan deck of the sample run, read back. *)
Lemma scan_deck_read_back_witness :
  let lines :=
    header_scan Sample.p
    ++ (("0 1" +:+ LF)
        :: [ " H" +:+ LF; " F   1   B1" +:+ LF; " H   2   B4   1   A1" +:+ LF; LF;
             " B1   0.93" +:+ LF; " B4   1.40000000" +:+ LF; " A1   104.5" +:+ LF ])
    ++ read_basis_set (readlines Sample.basis_text) in
  readlines (concat lines) = lines.
Proof.
  cbv zeta.
  apply (scan_deck_read_back Sample.p Sample.geom_text
           (concat Sample.opt_log_lines) Sample.basis_text ("0 1" +:+ LF)
           (skipn 1 (read_geometry_block (readlines Sample.geom_text))));
    reflexivity.
Defined.
